(** * ETL "Colombianos detenidos en el exterior": cleaning, paging and charts

    Shallow embedding of [proyecto_final_ETL.py].  A pandas [DataFrame] is a
    list of labelled rows together with its column names and dtypes; Python
    strings are lists of Unicode code points; exceptions are an explicit
    [result] type; the frames that [generar_visualizaciones] mutates in
    place live in a store indexed by object identity.  What the program
    leaves to its libraries (the Unicode tables, the date parser, the
    random draw, the endpoint, and the choices pandas makes inside
    [value_counts], [Series.apply] and [pd.concat]) is a parameter of the
    model. *)

From Stdlib Require Import ZArith String Ascii DecimalString Sorted.
From stdpp Require Import base option list gmap.

Local Open Scope Z_scope.

(** ** Python strings *)

(** A [str] is a sequence of Unicode code points. *)
Abbreviation str := (list Z).

(** ASCII literals of the source, as code-point lists. *)
Definition lit (s : string) : str :=
  List.map (fun a => Z.of_N (N_of_ascii a)) (list_ascii_of_string s).

(** [str(n)] for an [int]. *)
Definition str_of_int (n : Z) : str :=
  lit (NilZero.string_of_int (Z.to_int n)).

(** ** Exceptions *)

Inductive exn : Type :=
  | UnicodeEncodeError
  | UnicodeDecodeError
  | ValueError
  | KeyError
  | AttributeError
  | EmptyDataError
  | ParserError
  | InvalidIndexError
  | RequestException.

Inductive result (A : Type) : Type :=
  | Ok (a : A)
  | Raise (e : exn).
Arguments Ok {A} a.
Arguments Raise {A} e.

Definition rbind {A B} (m : result A) (k : A -> result B) : result B :=
  match m with
  | Ok a => k a
  | Raise e => Raise e
  end.

Notation "x <~ m ;; k" := (rbind m (fun x => k))
  (at level 100, m at next level, right associativity).

(** [Series.apply f]: the first exception raised by [f] aborts the whole
    call, nothing is returned. *)
Fixpoint apply_series {A B} (f : A -> result B) (l : list A) : result (list B) :=
  match l with
  | [] => Ok []
  | x :: r => y <~ f x ;; ys <~ apply_series f r ;; Ok (y :: ys)
  end.

(** ** Codecs: [x.encode('latin1').decode('utf-8')] *)

Module Codec.

(** [s.encode('latin1')]: one byte per code point, code points above
    U+00FF cannot be encoded. *)
Definition encode_latin1 (s : str) : result (list Z) :=
  apply_series
    (fun c => if (0 <=? c) && (c <=? 255) then Ok c else Raise UnicodeEncodeError) s.

Definition cont (b : Z) : bool := (128 <=? b) && (b <=? 191).
Definition between (lo hi b : Z) : bool := (lo <=? b) && (b <=? hi).

(** [bs.decode('utf-8')] with the default strict error handler: shortest
    forms only, no surrogates, nothing above U+10FFFF. *)
Fixpoint decode_utf8 (bs : list Z) : result str :=
  match bs with
  | [] => Ok []
  | b0 :: r0 =>
    if between 0 127 b0 then
      s <~ decode_utf8 r0 ;; Ok (b0 :: s)
    else if between 194 223 b0 then
      match r0 with
      | b1 :: r1 =>
        if cont b1 then
          s <~ decode_utf8 r1 ;; Ok (((b0 - 192) * 64 + (b1 - 128)) :: s)
        else Raise UnicodeDecodeError
      | _ => Raise UnicodeDecodeError
      end
    else if between 224 239 b0 then
      match r0 with
      | b1 :: b2 :: r2 =>
        if between (if b0 =? 224 then 160 else 128)
                   (if b0 =? 237 then 159 else 191) b1
           && cont b2
        then
          s <~ decode_utf8 r2 ;;
          Ok (((b0 - 224) * 4096 + (b1 - 128) * 64 + (b2 - 128)) :: s)
        else Raise UnicodeDecodeError
      | _ => Raise UnicodeDecodeError
      end
    else if between 240 244 b0 then
      match r0 with
      | b1 :: b2 :: b3 :: r3 =>
        if between (if b0 =? 240 then 144 else 128)
                   (if b0 =? 244 then 143 else 191) b1
           && cont b2 && cont b3
        then
          s <~ decode_utf8 r3 ;;
          Ok (((b0 - 240) * 262144 + (b1 - 128) * 4096
               + (b2 - 128) * 64 + (b3 - 128)) :: s)
        else Raise UnicodeDecodeError
      | _ => Raise UnicodeDecodeError
      end
    else Raise UnicodeDecodeError
  end.

Definition recode (s : str) : result str :=
  bs <~ encode_latin1 s ;; decode_utf8 bs.

End Codec.

(** ** Cells, rows and frames *)

(** [pd.Timestamp]: only the calendar fields are read by this program. *)
Record Timestamp : Type := mkTimestamp { year : Z; month : Z; day : Z }.

(** A scalar held in a frame.  [CNull] stands for every missing marker of
    pandas ([None], [NaN], [NaT]): [dropna], [notnull] and
    [drop_duplicates] do not tell them apart. *)
Inductive cell : Type :=
  | CNull
  | CStr (s : str)
  | CNum (n : Z)
  | CDate (t : Timestamp).

Inductive dtype : Type :=
  | DObject | DInt | DInt32 | DFloat | DBool | DDatetime.

Global Instance Timestamp_eq_dec : EqDecision Timestamp.
Proof. solve_decision. Defined.
Global Instance cell_eq_dec : EqDecision cell.
Proof. solve_decision. Defined.
Global Instance dtype_eq_dec : EqDecision dtype.
Proof. solve_decision. Defined.

(** A row: its index label and one cell per column. *)
Abbreviation fila := (nat * list cell)%type.

Record DataFrame : Type := mkDF {
  columns : list str;
  dtypes : list dtype;
  filas : list fila
}.

Definition index (df : DataFrame) : list nat := List.map fst (filas df).

(** [len(df)] *)
Definition len (df : DataFrame) : nat := length (filas df).

(** The cells of the column at position [j]. *)
Definition iloc_col (j : nat) (rows : list fila) : list cell :=
  List.map (fun r => nth j (snd r) CNull) rows.

(** Overwrite the column at position [j] with [vals], row by row. *)
Definition set_iloc_col (j : nat) (vals : list cell) (rows : list fila) : list fila :=
  zip_with (fun r v => (fst r, <[j := v]> (snd r))) rows vals.

(** Positions of the columns called [key]. *)
Fixpoint get_loc_from (i : nat) (key : str) (cols : list str) : list nat :=
  match cols with
  | [] => []
  | c :: r =>
    if decide (c = key) then i :: get_loc_from (S i) key r
    else get_loc_from (S i) key r
  end.

Definition get_loc (key : str) (cols : list str) : list nat :=
  get_loc_from 0 key cols.

(** [key in df.columns] *)
Definition in_columns (key : str) (df : DataFrame) : bool :=
  bool_decide (key ∈ columns df).

(** ** What is left to pandas *)

Fixpoint insertar {A} (antes : A -> A -> bool) (x : A) (l : list A) : list A :=
  match l with
  | [] => [x]
  | y :: r => if antes x y then x :: l else y :: insertar antes x r
  end.

(** Insertion sort. *)
Definition ordenar {A} (antes : A -> A -> bool) (l : list A) : list A :=
  fold_right (insertar antes) [] l.

(** A table of counts, as [value_counts] builds it: keys with the number
    of their occurrences. *)
Abbreviation conteos := (list (list cell * nat)).

(** The choices that pandas makes where the program does not: they
    depend on the version of the library, on NumPy's sort and on
    distinctions ([None] against [NaN], [int] against [float]) that the
    cells of this model do not keep.  The program is modelled for every
    library that meets the laws stated here. *)
Class Pandas : Type := {
  (** dtype of the [Series] that [serie.apply(f)] returns, from the
      dtype of [serie] and the values [f] returned *)
  apply_dtype : dtype -> list cell -> dtype;
  (** [counts.sort_values(ascending=False)], the last step of
      [value_counts]: the most frequent key first; the order among keys
      of equal count is the library's *)
  sort_values : conteos -> conteos;
  sort_values_perm : forall s, sort_values s ≡ₚ s;
  sort_values_sorted :
    forall s, StronglySorted (fun a b => (snd b <= snd a)%nat) (sort_values s);
  (** [pd.concat(frames, ignore_index=True)]: an empty list is refused
      with [ValueError]; the rows of the result are numbered from 0 and
      there are as many as in all the frames together; frames that carry
      one and the same header are stacked under that header, in order.
      The dtypes of the result, and what becomes of frames whose headers
      differ, are the library's. *)
  concat : list DataFrame -> result DataFrame;
  concat_nil : concat [] = Raise ValueError;
  concat_index :
    forall frames df,
      concat frames = Ok df ->
      index df = seq 0 (len df)
      /\ len df = list_sum (List.map len frames);
  concat_header :
    forall f rest,
      Forall (fun g => columns g = columns f) rest ->
      exists df,
        concat (f :: rest) = Ok df
        /\ columns df = columns f
        /\ List.map snd (filas df)
           = flat_map (fun g => List.map snd (filas g)) (f :: rest)
}.

(** ** Pass 1 of [limpiar_datos]: repair of mis-decoded text *)

(** The lambda applied to each value of a column. *)
Definition reparar_valor (x : cell) : result cell :=
  match x with
  | CStr s => s' <~ Codec.recode s ;; Ok (CStr s')
  | _ => Ok x
  end.

(** [df.select_dtypes(include='object').columns] *)
Fixpoint select_dtypes_object (cols : list str) (dts : list dtype) : list str :=
  match cols, dts with
  | c :: cr, d :: dr =>
    if decide (d = DObject) then c :: select_dtypes_object cr dr
    else select_dtypes_object cr dr
  | _, _ => []
  end.

(** One iteration of the loop: the [try] encloses the whole column
    assignment, so an exception raised for any value leaves [df[col]] as
    it was.  The column assigned is the [Series] that [apply] returned,
    with the dtype [apply] gave it.  When [col] names several columns,
    [df[col]] is a frame, the lambda receives whole columns (never a
    [str]) and hands them back. *)
Definition reparar_columna {P : Pandas} (col : str) (df : DataFrame) : DataFrame :=
  match get_loc col (columns df) with
  | [j] =>
    match apply_series reparar_valor (iloc_col j (filas df)) with
    | Ok vals =>
      mkDF (columns df)
           (<[j := apply_dtype (nth j (dtypes df) DObject) vals]> (dtypes df))
           (set_iloc_col j vals (filas df))
    | Raise _ => df
    end
  | _ => df
  end.

(** The names looped over are computed once, before the first
    assignment. *)
Definition reparar_texto {P : Pandas} (df : DataFrame) : DataFrame :=
  fold_left (fun d col => reparar_columna col d)
            (select_dtypes_object (columns df) (dtypes df)) df.

(** ** Pass 2: row pruning *)

(** [pd.notnull] *)
Definition notnull (c : cell) : bool :=
  match c with
  | CNull => false
  | _ => true
  end.

(** [df.dropna(how='all')]: a row stays when some field is present. *)
Definition dropna_all (df : DataFrame) : DataFrame :=
  mkDF (columns df) (dtypes df)
       (List.filter (fun r => existsb notnull (snd r)) (filas df)).

(** [df.drop_duplicates()]: all columns compared, [keep='first']; the
    index label takes no part in the comparison. *)
Fixpoint drop_dups (seen : list (list cell)) (rows : list fila) : list fila :=
  match rows with
  | [] => []
  | r :: rs =>
    if bool_decide (snd r ∈ seen) then drop_dups seen rs
    else r :: drop_dups (snd r :: seen) rs
  end.

Definition drop_duplicates (df : DataFrame) : DataFrame :=
  mkDF (columns df) (dtypes df) (drop_dups [] (filas df)).

(** ** Pass 3: sentinel normalisation *)

Definition centinelas : list str := [lit "N/A"; lit "n/a"; lit ""].

Definition reemplazar_valor (c : cell) : cell :=
  match c with
  | CStr s => if bool_decide (s ∈ centinelas) then CNull else c
  | _ => c
  end.

(** [df.replace({'N/A': None, 'n/a': None, '': None})] *)
Definition replace_centinelas (df : DataFrame) : DataFrame :=
  mkDF (columns df) (dtypes df)
       (List.map (fun r => (fst r, List.map reemplazar_valor (snd r))) (filas df)).

(** ** Pass 4: column names *)

(** What [normalizar_columna] reads from the Unicode character database
    and from [str]: the tables themselves belong to the Python runtime. *)
Class Unicode : Type := {
  (** [unicodedata.normalize('NFKD', s)] *)
  nfkd : str -> str;
  (** [unicodedata.combining(c)], the canonical combining class *)
  combining : Z -> Z;
  (** [s.lower()] *)
  lower : str -> str;
  (** [c.isspace()] *)
  isspace : Z -> bool
}.

Fixpoint lstrip (sp : Z -> bool) (s : str) : str :=
  match s with
  | [] => []
  | c :: r => if sp c then lstrip sp r else s
  end.

(** [s.strip()] *)
Definition strip (sp : Z -> bool) (s : str) : str :=
  rev (lstrip sp (rev (lstrip sp s))).

(** [s.replace(" ", "_")] *)
Definition replace_space (s : str) : str :=
  List.map (fun c => if c =? 32 then 95 else c) s.

Definition normalizar_columna {U : Unicode} (nombre : str) : str :=
  let nfkd_form := nfkd nombre in
  let solo_ascii := List.filter (fun c => combining c =? 0) nfkd_form in
  replace_space (strip isspace (lower solo_ascii)).

Definition renombrar {U : Unicode} (df : DataFrame) : DataFrame :=
  mkDF (List.map normalizar_columna (columns df)) (dtypes df) (filas df).

(** ** Column access by name *)

(** [df[key]] row by row: the fields of each row under the columns
    called [key].  One such column makes a [Series], several a sub-frame. *)
Definition getitem (key : str) (df : DataFrame) : list (list cell) :=
  List.map (fun r => List.map (fun j => nth j (snd r) CNull) (get_loc key (columns df)))
           (filas df).

(** [df[key]] handed to a function that wants a [Series]: with several
    columns called [key] it receives a frame and raises. *)
Definition serie (key : str) (df : DataFrame) : result (list cell) :=
  match get_loc key (columns df) with
  | [j] => Ok (iloc_col j (filas df))
  | _ => Raise ValueError
  end.

(** Overwrite each of the columns at positions [js] with [vals]. *)
Definition set_cols (js : list nat) (vals : list cell) (rows : list fila) : list fila :=
  fold_right (fun j rows => set_iloc_col j vals rows) rows js.

(** Add [vals] as a new last column. *)
Definition append_col (vals : list cell) (rows : list fila) : list fila :=
  zip_with (fun r v => (fst r, snd r ++ [v])) rows vals.

(** [df[key] = vals] for a column [vals] of dtype [dt]: every column
    called [key] is overwritten; when there is none, a new last column is
    added.  A column of the wrong length is refused. *)
Definition setitem (key : str) (dt : dtype) (vals : list cell) (df : DataFrame)
  : result DataFrame :=
  if bool_decide (length vals = length (filas df)) then
    match get_loc key (columns df) with
    | [] =>
      Ok (mkDF (columns df ++ [key]) (dtypes df ++ [dt])
               (append_col vals (filas df)))
    | js =>
      Ok (mkDF (columns df)
               (fold_right (fun j dts => <[j := dt]> dts) (dtypes df) js)
               (set_cols js vals (filas df)))
    end
  else Raise ValueError.

(** ** Pass 5: publication date and its text *)

Definition fecha_publicacion : str := lit "fecha_publicacion".
Definition fecha_texto : str := lit "fecha_texto".

Definition meses (m : Z) : option str :=
  match m with
  | 1 => Some (lit "enero") | 2 => Some (lit "febrero") | 3 => Some (lit "marzo")
  | 4 => Some (lit "abril") | 5 => Some (lit "mayo") | 6 => Some (lit "junio")
  | 7 => Some (lit "julio") | 8 => Some (lit "agosto")
  | 9 => Some (lit "septiembre") | 10 => Some (lit "octubre")
  | 11 => Some (lit "noviembre") | 12 => Some (lit "diciembre")
  | _ => None
  end.

(** The lambda of the second [apply]:
    [f"{x.day} de {meses[x.month]} de {x.year}" if pd.notnull(x) else None]. *)
Definition texto_de_fecha (x : cell) : result cell :=
  if notnull x then
    match x with
    | CDate t =>
      match meses (month t) with
      | Some nombre =>
        Ok (CStr (str_of_int (day t) ++ lit " de " ++ nombre
                  ++ lit " de " ++ str_of_int (year t)))
      | None => Raise KeyError
      end
    | _ => Raise AttributeError
    end
  else Ok CNull.

(** A parsed value as stored in the frame: a [Timestamp] or [NaT]. *)
Definition celda_fecha (o : option Timestamp) : cell :=
  match o with
  | Some t => CDate t
  | None => CNull
  end.

Section Limpieza.

Context {U : Unicode} {P : Pandas}.

(** [pd.to_datetime(serie, errors='coerce')], the date parser of pandas:
    one result per value, [None] for [NaT]. *)
Variable to_datetime : list cell -> list (option Timestamp).

Definition derivar_fechas (df : DataFrame) : result DataFrame :=
  if in_columns fecha_publicacion df then
    crudas <~ serie fecha_publicacion df ;;
    df1 <~ setitem fecha_publicacion DDatetime
             (List.map celda_fecha (to_datetime crudas)) df ;;
    fechas <~ serie fecha_publicacion df1 ;;
    textos <~ apply_series texto_de_fecha fechas ;;
    setitem fecha_texto (apply_dtype DDatetime textos) textos df1
  else Ok df.

(** Passes 1 and 2: repair, then empty rows out, then duplicates out. *)
Definition podar (df : DataFrame) : DataFrame :=
  drop_duplicates (dropna_all (reparar_texto df)).

(** The five passes, in the order of the source. *)
Definition limpiar_datos (df : DataFrame) : result DataFrame :=
  derivar_fechas (renombrar (replace_centinelas (podar df))).

End Limpieza.

(** ** A fragment of the runtime tables, to run the model *)

Module Es.

(** Canonical decomposition of the accented letters of Spanish
    (U+00C1 Á, U+00C9 É, U+00CD Í, U+00D1 Ñ, U+00D3 Ó, U+00DA Ú,
    U+00DC Ü and their lowercase forms); ASCII decomposes to itself.
    Code points outside this fragment are not covered by the table. *)
Definition descomponer (c : Z) : str :=
  match c with
  | 193 => [65; 769] | 201 => [69; 769] | 205 => [73; 769]
  | 209 => [78; 771] | 211 => [79; 769] | 218 => [85; 769]
  | 220 => [85; 776]
  | 225 => [97; 769] | 233 => [101; 769] | 237 => [105; 769]
  | 241 => [110; 771] | 243 => [111; 769] | 250 => [117; 769]
  | 252 => [117; 776]
  | _ => [c]
  end.

(** U+0301 acute, U+0303 tilde, U+0308 diaeresis: class 230. *)
Definition clase (c : Z) : Z :=
  if bool_decide (c ∈ [769; 771; 776]) then 230 else 0.

Definition minuscula (c : Z) : Z :=
  if (65 <=? c) && (c <=? 90) then c + 32
  else if (192 <=? c) && (c <=? 222) && negb (c =? 215) then c + 32
  else c.

Definition espacio (c : Z) : bool :=
  ((9 <=? c) && (c <=? 13)) || ((28 <=? c) && (c <=? 32))
  || (c =? 133) || (c =? 160).

#[export] Instance unicode : Unicode := {
  nfkd := flat_map descomponer;
  combining := clase;
  lower := List.map minuscula;
  isspace := espacio
}.

Definition digito (c : Z) : option Z :=
  if (48 <=? c) && (c <=? 57) then Some (c - 48) else None.

Definition bisiesto (y : Z) : bool :=
  ((y mod 4 =? 0) && negb (y mod 100 =? 0)) || (y mod 400 =? 0).

Definition dias_del_mes (y m : Z) : Z :=
  match m with
  | 2 => if bisiesto y then 29 else 28
  | 4 | 6 | 9 | 11 => 30
  | _ => 31
  end.

(** Calendar dates written [YYYY-MM-DD], within the years a
    nanosecond [Timestamp] can hold. *)
Definition parse_iso (s : str) : option Timestamp :=
  match s with
  | [y1; y2; y3; y4; 45; m1; m2; 45; d1; d2] =>
    a ← digito y1; b ← digito y2; c ← digito y3; d ← digito y4;
    e ← digito m1; f ← digito m2; g ← digito d1; h ← digito d2;
    let y := a * 1000 + b * 100 + c * 10 + d in
    let m := e * 10 + f in
    let dd := g * 10 + h in
    if (1678 <=? y) && (y <=? 2261) && (1 <=? m) && (m <=? 12)
       && (1 <=? dd) && (dd <=? dias_del_mes y m)
    then Some (mkTimestamp y m dd) else None
  | _ => None
  end.

(** The ISO fragment of the parser: ISO calendar dates and values that
    are already timestamps.  Missing values are [NaT]; for anything else
    the fragment has no answer and says [NaT] as well. *)
Definition to_datetime (valores : list cell) : list (option Timestamp) :=
  List.map (fun x =>
              match x with
              | CDate t => Some t
              | CStr s => parse_iso s
              | _ => None
              end) valores.

Definition es_texto (c : cell) : bool :=
  match c with CStr _ => true | _ => false end.

Definition es_numero (c : cell) : bool :=
  match c with CNum _ => true | _ => false end.

Definition es_fecha (c : cell) : bool :=
  match c with CDate _ => true | _ => false end.

(** The dtype inferred for the values returned to [Series.apply]: a
    [Series] without values keeps its dtype; text makes an object
    column; integers alone make [int64], integers and missing values
    [float64], timestamps with or without missing values
    [datetime64]; anything else is an object column. *)
Definition inferir (dt : dtype) (vals : list cell) : dtype :=
  if bool_decide (vals = []) then dt
  else if existsb es_texto vals then DObject
  else if forallb es_numero vals then DInt
  else if forallb (fun c => es_numero c || negb (notnull c)) vals
          && existsb es_numero vals then DFloat
  else if forallb (fun c => es_fecha c || negb (notnull c)) vals
          && existsb es_fecha vals then DDatetime
  else DObject.

(** Most frequent first, keys of equal count in the order in which they
    first appeared. *)
Definition por_frecuencia (s : conteos) : conteos :=
  ordenar (fun a b => (snd b <=? snd a)%nat) s.

Definition es_entero (d : dtype) : bool :=
  match d with DInt | DInt32 => true | _ => false end.

Definition es_real (d : dtype) : bool :=
  match d with DInt | DInt32 | DFloat => true | _ => false end.

(** The dtype two blocks of one column are promoted to. *)
Definition promover (a b : dtype) : dtype :=
  if decide (a = b) then a
  else if es_entero a && es_entero b then DInt
  else if es_real a && es_real b then DFloat
  else DObject.

Definition numerar (rows : list (list cell)) : list fila :=
  combine (seq 0 (length rows)) rows.

(** Frames under one header: stacked. *)
Definition apilar (f : DataFrame) (rest : list DataFrame) : DataFrame :=
  mkDF (columns f)
       (fold_left (fun dts g => zip_with promover dts (dtypes g)) rest (dtypes f))
       (numerar (flat_map (fun g => List.map snd (filas g)) (f :: rest))).

(** The position of the column called [c] in a frame whose names are
    all different. *)
Definition posicion (c : str) (g : DataFrame) : option nat :=
  head (get_loc c (columns g)).

Definition unir_columnas (frames : list DataFrame) : list str :=
  fold_left (fun acc g =>
               acc ++ List.filter (fun c => negb (bool_decide (c ∈ acc))) (columns g))
            frames [].

Definition tipo_unido (frames : list DataFrame) (c : str) : dtype :=
  let tipos :=
    omap (fun g => j ← posicion c g; Some (nth j (dtypes g) DObject)) frames in
  let comun :=
    match tipos with
    | d :: ds => fold_left promover ds d
    | [] => DObject
    end in
  if forallb (fun g => bool_decide (c ∈ columns g)) frames then comun
  else match comun with
       | DInt | DInt32 => DFloat
       | DBool => DObject
       | d => d
       end.

(** Frames under different headers, the names of each all different:
    the columns of the result are the names in the order in which they
    first appear, and a frame contributes a missing value where it has
    no such column. *)
Definition unir (frames : list DataFrame) : DataFrame :=
  let cols := unir_columnas frames in
  mkDF cols
       (List.map (tipo_unido frames) cols)
       (numerar
          (flat_map
             (fun g =>
                List.map
                  (fun r : fila =>
                     List.map (fun c => match posicion c g with
                                        | Some j => nth j (snd r) CNull
                                        | None => CNull
                                        end) cols)
                  (filas g))
             frames)).

Definition concatenar (frames : list DataFrame) : result DataFrame :=
  match frames with
  | [] => Raise ValueError
  | f :: rest =>
    if forallb (fun g => bool_decide (columns g = columns f)) rest then
      Ok (apilar f rest)
    else if forallb (fun g => bool_decide (NoDup (columns g))) frames then
      Ok (unir frames)
    else Raise InvalidIndexError
  end.

(** The choices of pandas 2 with a stable sort, on the kinds of value
    the examples hold. *)
#[export] Instance pandas : Pandas.
Proof.
  assert (forall rows, List.map fst (numerar rows) = seq 0 (length (numerar rows))
                       /\ length (numerar rows) = length rows
                       /\ List.map snd (numerar rows) = rows) as Hnum.
  { intros rows. unfold numerar.
    assert (forall (a : list nat) (b : list (list cell)),
               length a = length b ->
               List.map fst (combine a b) = a /\ List.map snd (combine a b) = b
               /\ length (combine a b) = length b) as Hcomb.
    { induction a as [|x a IH]; intros [|y b] Hl; try done.
      simpl in *. destruct (IH b) as (-> & -> & ->); [lia|done]. }
    destruct (Hcomb (seq 0 (length rows)) rows) as (H1 & H2 & H3);
      [apply length_seq|].
    by rewrite H1, H2, H3. }
  assert (forall (antes : list cell * nat -> list cell * nat -> bool) x l,
             insertar antes x l ≡ₚ x :: l) as Hins.
  { intros antes x l. induction l as [|y l IH]; simpl; [done|].
    destruct (antes x y); [done|]. rewrite IH. apply Permutation_swap. }
  refine {| apply_dtype := inferir;
            sort_values := por_frecuencia;
            concat := concatenar |}.
  - intros s. unfold por_frecuencia, ordenar.
    induction s as [|x s IH]; simpl; [done|]. by rewrite Hins, IH.
  - intros s. unfold por_frecuencia, ordenar.
    induction s as [|x s IH]; simpl; [constructor|].
    set (antes := fun a b : list cell * nat => (snd b <=? snd a)%nat) in *.
    set (l := fold_right (insertar antes) [] s) in *. clearbody l.
    induction IH as [|y l Hs IH Hy]; simpl.
    + constructor; constructor.
    + destruct (antes x y) eqn:Hxy; unfold antes in Hxy.
      * apply Nat.leb_le in Hxy. constructor; [by constructor|].
        constructor; [done|]. eapply Forall_impl; [exact Hy|].
        simpl. intros z Hz. lia.
      * apply Nat.leb_gt in Hxy. constructor; [done|].
        apply List.Forall_forall. intros z Hz.
        apply list_elem_of_In in Hz. rewrite Hins in Hz.
        apply elem_of_cons in Hz as [->|Hz]; [lia|].
        rewrite List.Forall_forall in Hy. by apply Hy, list_elem_of_In.
  - reflexivity.
  - intros frames df. unfold concatenar.
    destruct frames as [|f rest]; [done|].
    destruct (forallb _ rest);
      [|destruct (forallb _ (f :: rest)); [|done]];
      intros [= <-]; unfold index, len, apilar, unir; cbn [filas];
      destruct (Hnum (flat_map (fun g => List.map snd (filas g)) (f :: rest)))
        as (Hi1 & Hl1 & _);
      match goal with
      | |- context [numerar ?rows] =>
        destruct (Hnum rows) as (Hi & Hl & _); rewrite Hi, Hl
      end;
      (split; [done|]); rewrite length_flat_map;
      f_equal; apply List.map_ext; intros g; by rewrite length_map.
  - intros f rest Hrest. exists (apilar f rest). unfold concatenar.
    rewrite (proj2 (forallb_forall _ rest)).
    + split; [done|]. split; [done|]. unfold apilar. cbn [filas].
      by destruct (Hnum (flat_map (fun g => List.map snd (filas g)) (f :: rest)))
        as (_ & _ & ->).
    + intros g Hg. apply bool_decide_eq_true.
      rewrite List.Forall_forall in Hrest. by apply Hrest.
Defined.

End Es.

(** ** Extraction: the paged download *)

(** What [requests.get] hands back: the status, and the body as what
    [pd.read_csv(StringIO(response.text), encoding="latin1")] makes of
    it, a frame or the exception of the parser ([EmptyDataError] for a
    body without a header line). *)
Record Response : Type := mkResponse {
  status_code : Z;
  text : result DataFrame
}.

(** [df.empty] *)
Definition empty (df : DataFrame) : bool :=
  bool_decide (filas df = []) || bool_decide (columns df = []).

Section Descarga.

Context {P : Pandas}.

(** The endpoint, by [$offset]; [$limit] never changes.  A request that
    gets no answer raises. *)
Variable requests_get : Z -> result Response.

Definition limit : Z := 50000.

(** The [while True] loop: [None] when it is still running after
    [pasos] requests, otherwise the pages stored when it was left, or
    the exception that [requests.get] or [pd.read_csv] raised.  The body
    is parsed only when the status is 200. *)
Fixpoint bucle (pasos : nat) (offset : Z) (all_data : list DataFrame)
  : option (result (list DataFrame)) :=
  match pasos with
  | O => None
  | S n =>
    match requests_get offset with
    | Raise e => Some (Raise e)
    | Ok response =>
      if negb (status_code response =? 200) then Some (Ok all_data)
      else
        match text response with
        | Raise e => Some (Raise e)
        | Ok df_temp =>
          if empty df_temp then Some (Ok all_data)
          else bucle n (offset + limit) (all_data ++ [df_temp])
        end
    end
  end.

Definition descargar_datos_completos (pasos : nat) : option (result DataFrame) :=
  r ← bucle pasos 0 [];
  Some (all_data <~ r ;; concat all_data).

(** The request at [offset] is answered with the page [df_temp], which
    has rows. *)
Definition pagina_es (offset : Z) (df_temp : DataFrame) : Prop :=
  exists response,
    requests_get offset = Ok response
    /\ status_code response = 200
    /\ text response = Ok df_temp
    /\ empty df_temp = false.

(** A request is answered with a page that has rows. *)
Definition pagina_ok (offset : Z) : Prop :=
  exists df_temp, pagina_es offset df_temp.

(** A request that ends the loop: it is answered with a status other
    than 200, or with a page that has no rows. *)
Definition pagina_fin (offset : Z) : Prop :=
  exists response,
    requests_get offset = Ok response
    /\ (status_code response <> 200
        \/ exists df_temp, text response = Ok df_temp /\ empty df_temp = true).

(** A request that ends the download with the exception [e]: no answer
    arrives, or the answer has status 200 and a body that the parser
    refuses. *)
Definition pagina_error (offset : Z) (e : exn) : Prop :=
  requests_get offset = Raise e
  \/ exists response,
      requests_get offset = Ok response
      /\ status_code response = 200
      /\ text response = Raise e.

End Descarga.

(** ** Charts *)

(** *** Aggregates *)

Fixpoint contar (k : list cell) (acc : conteos) : conteos :=
  match acc with
  | [] => [(k, 1%nat)]
  | (k', n) :: r =>
    if decide (k = k') then (k', S n) :: r else (k', n) :: contar k r
  end.

(** [serie.value_counts()]: the values of the series are counted in the
    order in which they first appear, missing values left out, and the
    counts are sorted, the most frequent key first. *)
Definition value_counts {P : Pandas} (claves : list (list cell)) : conteos :=
  sort_values (fold_left (fun acc k => contar k acc)
                         (List.filter (forallb notnull) claves) []).

(** Key order used by [sort_index()]; the keys sorted here are years,
    each once. *)
Fixpoint clave_leb (a b : list cell) : bool :=
  match a, b with
  | CNum x :: a', CNum y :: b' =>
    if x <? y then true else if y <? x then false else clave_leb a' b'
  | _, _ => true
  end.

Definition sort_index (s : conteos) : conteos :=
  ordenar (fun a b => clave_leb (fst a) (fst b)) s.

(** [serie.dt.year] *)
Definition dt_year (c : cell) : cell :=
  match c with
  | CDate t => CNum (year t)
  | _ => CNull
  end.

(** *** What a call leaves behind *)

(** A figure saved to disk (with the series it plots) or a diagnostic
    printed to the console (its text kept in ASCII here). *)
Inductive salida : Type :=
  | Figura (archivo : str) (datos : list (list cell * nat))
  | Aviso (mensaje : str).

Definition pais : str := lit "pais".
Definition genero : str := lit "genero".
Definition anio : str := lit "anio".

(** Frames are objects: a variable holds the identity of a frame, the
    store holds its current contents. *)
Abbreviation store := (gmap nat DataFrame).

(** State of a call: the store, what has been produced so far, and the
    exception that ended the call, if any. *)
Record estado : Type := mkEstado {
  mem : store;
  salidas : list salida;
  error : option exn
}.

Definition vacio : DataFrame := mkDF [] [] [].

Section Graficos.

Context {P : Pandas}.

Variable to_datetime : list cell -> list (option Timestamp).

(** [df.sample(n, random_state=seed)]: the rows drawn. *)
Variable sample : Z -> Z -> list fila -> list fila.

(** [df[key].value_counts()]: with one column called [key] the counts
    of its values; with several, [df[key]] is a frame whose columns all
    carry the same name, and counting its rows raises [ValueError]. *)
Definition contar_columna (key : str) (df : DataFrame) : result conteos :=
  match get_loc key (columns df) with
  | [_] => Ok (value_counts (getitem key df))
  | _ => Raise ValueError
  end.

Definition grafico_paises (df : DataFrame) : result salida :=
  if in_columns pais df then
    counts <~ contar_columna pais df ;;
    let top_paises := take 10 counts in
    if negb (bool_decide (top_paises = [])) then
      Ok (Figura (lit "top_paises.png") top_paises)
    else Ok (Aviso (lit "No hay datos validos en 'pais'."))
  else Ok (Aviso (lit "No se encontro la columna 'pais'.")).

Definition grafico_genero (df : DataFrame) : result salida :=
  if in_columns genero df then
    genero_counts <~ contar_columna genero df ;;
    if negb (bool_decide (genero_counts = [])) then
      Ok (Figura (lit "distribucion_genero.png") genero_counts)
    else Ok (Aviso (lit "No hay datos validos en 'genero'."))
  else Ok (Aviso (lit "No se encontro la columna 'genero'.")).

(** dtype of [serie.dt.year]: [int32], or [float64] when a date is
    missing. *)
Definition dtype_year (fechas : list cell) : dtype :=
  if forallb notnull fechas then DInt32 else DFloat.

(** The third chart writes into the frame it is given: the frame
    returned is that frame after the chart. *)
Definition grafico_anual (df : DataFrame) : DataFrame * result salida :=
  if in_columns fecha_publicacion df then
    match
      crudas <~ serie fecha_publicacion df ;;
      setitem fecha_publicacion DDatetime
              (List.map celda_fecha (to_datetime crudas)) df
    with
    | Raise e => (df, Raise e)
    | Ok df1 =>
      match serie fecha_publicacion df1 with
      | Raise e => (df1, Raise e)
      | Ok fechas =>
        if existsb notnull fechas then
          match setitem anio (dtype_year fechas) (List.map dt_year fechas) df1 with
          | Raise e => (df1, Raise e)
          | Ok df2 =>
            (df2,
             casos_anuales <~ contar_columna anio df2 ;;
             Ok (Figura (lit "evolucion_anual.png") (sort_index casos_anuales)))
          end
        else (df1, Ok (Aviso (lit "No hay fechas validas en 'fecha_publicacion'.")))
      end
    end
  else (df, Ok (Aviso (lit "No se encontro la columna 'fecha_publicacion'."))).

(** The frame the charts work on: the caller's frame itself, or a
    fresh frame holding the sample, to which the local name [df] is
    rebound.  A name always refers to a frame of the store; [vacio] only
    fills the case that cannot arise. *)
Definition elegir (σ : store) (df : nat) (rapido : bool) : store * nat :=
  let actual := default vacio (σ !! df) in
  if rapido && (50000 <? Z.of_nat (len actual)) then
    let nuevo := fresh (dom σ) in
    (<[nuevo := mkDF (columns actual) (dtypes actual)
                     (sample 30000 42 (filas actual))]> σ, nuevo)
  else (σ, df).

(** The three charts in turn; an exception ends the call where it is
    raised, with the charts drawn before it. *)
Definition generar_visualizaciones (σ : store) (df : nat) (rapido : bool) : estado :=
  let '(σ1, df) := elegir σ df rapido in
  let trabajo := default vacio (σ1 !! df) in
  match grafico_paises trabajo with
  | Raise e => mkEstado σ1 [] (Some e)
  | Ok s1 =>
    match grafico_genero trabajo with
    | Raise e => mkEstado σ1 [s1] (Some e)
    | Ok s2 =>
      let '(trabajo', r3) := grafico_anual trabajo in
      let σ2 := <[df := trabajo']> σ1 in
      match r3 with
      | Ok s3 => mkEstado σ2 [s1; s2; s3] None
      | Raise e => mkEstado σ2 [s1; s2] (Some e)
      end
    end
  end.

(** The contents of the frame the charts work on, for a caller's
    frame that holds [tabla]. *)
Definition tabla_de_trabajo (tabla : DataFrame) (rapido : bool) : DataFrame :=
  if rapido && (50000 <? Z.of_nat (len tabla)) then
    mkDF (columns tabla) (dtypes tabla) (sample 30000 42 (filas tabla))
  else tabla.

End Graficos.

(** ** The whole run *)

Section Pipeline.

Context {U : Unicode} {P : Pandas}.
Variable requests_get : Z -> result Response.
Variable to_datetime : list cell -> list (option Timestamp).
Variable sample : Z -> Z -> list fila -> list fila.

(** What a run leaves behind: the table written to
    [colombianos_detenidos_limpio.csv] and the state in which the chart
    generator ends, the frame called [df_limpio] being object 0 of the
    store. *)
Definition ejecutar_pipeline (pasos : nat) (rapido : bool)
  : option (result (DataFrame * estado)) :=
  r ← descargar_datos_completos requests_get pasos;
  Some (df <~ r ;;
        df_limpio <~ limpiar_datos to_datetime df ;;
        let salida := df_limpio in
        Ok (salida,
            generar_visualizaciones to_datetime sample
              {[0%nat := df_limpio]} 0%nat rapido)).

End Pipeline.

(** ** Monthly prefetch and entry point *)

(** Naive local datetimes are counted in microseconds; [timedelta.days]
    of a difference of [d] microseconds is the number of whole days,
    rounded down. *)
Definition microsegundos_dia : Z := 86400000000.

Definition days (d : Z) : Z := d / microsegundos_dia.

(** One call of [ejecutar_pipeline]: its mode and what it left. *)
Record corrida : Type := mkCorrida {
  modo_rapido : bool;
  resultado : result (DataFrame * estado)
}.

(** The call ended with an exception, raised by the download, by the
    cleaning or by the charts. *)
Definition fallo (c : corrida) : bool :=
  match resultado c with
  | Raise _ => true
  | Ok (_, e) => bool_decide (is_Some (error e))
  end.

(** The table the call wrote to the output file, when it got that far. *)
Definition escrito (c : corrida) : option DataFrame :=
  match resultado c with
  | Ok (salida, _) => Some salida
  | Raise _ => None
  end.

Section Principal.

Context {U : Unicode} {P : Pandas}.
Variable requests_get : Z -> result Response.
Variable to_datetime : list cell -> list (option Timestamp).
Variable sample : Z -> Z -> list fila -> list fila.

(** Requests after which a download is given up as not ending. *)
Variable pasos : nat.

(** [prefetch_mensual], for the modification time of the output file
    ([None] when there is no file) and the time of the call: the calls
    of [ejecutar_pipeline] it made. *)
Definition prefetch_mensual (ultima_modificacion : option Z) (ahora : Z)
  : option (list corrida) :=
  match ultima_modificacion with
  | None =>
    r ← ejecutar_pipeline requests_get to_datetime sample pasos false;
    Some [mkCorrida false r]
  | Some ultima =>
    let dias_desde_actualizacion := days (ahora - ultima) in
    if 30 <=? dias_desde_actualizacion then
      r ← ejecutar_pipeline requests_get to_datetime sample pasos false;
      Some [mkCorrida false r]
    else Some []
  end.

(** The [__main__] block: the prefetch, then one more run in fast mode;
    an exception in the prefetch ends the program there. *)
Definition principal (ultima_modificacion : option Z) (ahora : Z)
  : option (list corrida) :=
  cs ← prefetch_mensual ultima_modificacion ahora;
  if existsb fallo cs then Some cs
  else
    r ← ejecutar_pipeline requests_get to_datetime sample pasos true;
    Some (cs ++ [mkCorrida true r]).


End Principal.

(** The output file is stale: missing, or thirty days old or older. *)
Definition vencido (ultima_modificacion : option Z) (ahora : Z) : bool :=
  match ultima_modificacion with
  | None => true
  | Some ultima => 30 * microsegundos_dia <=? ahora - ultima
  end.

(** ** Notions used to state the properties *)

(** Best effort on one value: the repaired value, or the value itself
    when re-decoding fails. *)
Definition reparado (x : cell) : cell :=
  match reparar_valor x with
  | Ok y => y
  | Raise _ => x
  end.

(** The pass as the specification words it: every value of the column
    on its own. *)
Definition spec_reparar_por_valor (col : list cell) : list cell :=
  List.map reparado col.

Definition reparable (x : cell) : Prop := exists y, reparar_valor x = Ok y.

(** Every row has one field per column. *)
Definition bien_formado (df : DataFrame) : Prop :=
  Forall (fun r : fila => length (snd r) = length (columns df)) (filas df).

Global Instance bien_formado_dec df : Decision (bien_formado df).
Proof. unfold bien_formado. apply _. Defined.


(** Row [p] of [rows] survives pruning: it has a present field and no
    earlier row carries the same fields. *)
Definition conservada (rows : list fila) (p : nat) : bool :=
  match rows !! p with
  | Some r =>
    existsb notnull (snd r)
    && negb (bool_decide (snd r ∈ List.map snd (take p rows)))
  | None => false
  end.

(** Lowercase ASCII letter, digit or underscore. *)
Definition permitido (c : Z) : bool :=
  ((97 <=? c) && (c <=? 122)) || ((48 <=? c) && (c <=? 57)) || (c =? 95).

(** ASCII letter of either case, digit, underscore or space. *)
Definition sencillo (c : Z) : bool :=
  ((65 <=? c) && (c <=? 90)) || permitido c || (c =? 32).

(** [str.lower] on ASCII. *)
Definition ascii_lower (c : Z) : Z :=
  if (65 <=? c) && (c <=? 90) then c + 32 else c.

(** Between [df] and [df'] no row was added, dropped or relabelled, no
    column was removed, and every column not called by one of [claves]
    holds what it held. *)
Definition solo_cambia (claves : list str) (df df' : DataFrame) : Prop :=
  index df' = index df
  /\ (forall j c, columns df !! j = Some c -> columns df' !! j = Some c)
  /\ (forall j c, columns df' !! j = Some c -> c ∉ claves ->
        columns df !! j = Some c
        /\ iloc_col j (filas df') = iloc_col j (filas df)).

(** *** How mis-decoded text arises *)

(** A Unicode scalar value: a code point that is not a surrogate. *)
Definition escalar (c : Z) : bool :=
  ((0 <=? c) && (c <=? 55295)) || ((57344 <=? c) && (c <=? 1114111)).

(** The UTF-8 bytes of one scalar value. *)
Definition utf8_de (c : Z) : list Z :=
  if c <? 128 then [c]
  else if c <? 2048 then [192 + c / 64; 128 + c mod 64]
  else if c <? 65536 then
    [224 + c / 4096; 128 + (c / 64) mod 64; 128 + c mod 64]
  else
    [240 + c / 262144; 128 + (c / 4096) mod 64; 128 + (c / 64) mod 64;
     128 + c mod 64].

(** [s.encode('utf-8')] *)
Definition encode_utf8 (s : str) : list Z := flat_map utf8_de s.

(** [bs.decode('latin1')]: byte [b] is code point [b]. *)
Definition decode_latin1 (bs : list Z) : str := bs.

(** Text whose UTF-8 bytes were read as latin-1. *)
Definition mal_decodificado (s : str) : str := decode_latin1 (encode_utf8 s).

Definition es_ascii (c : Z) : bool := (0 <=? c) && (c <? 128).

(** A value that is not one of the sentinel strings. *)
Definition no_centinela (c : cell) : bool :=
  match c with
  | CStr s => negb (bool_decide (s ∈ centinelas))
  | _ => true
  end.

(** No field of the table holds a sentinel string. *)
Definition sin_centinelas (df : DataFrame) : Prop :=
  Forall (fun r : fila => Forall (fun c => no_centinela c = true) (snd r)) (filas df).

(** *** Counting *)

(** How many times [k] occurs among [claves]. *)
Definition ocurrencias (k : list cell) (claves : list (list cell)) : nat :=
  length (List.filter (fun x => bool_decide (x = k)) claves).

(** The count recorded for [k] in a table of counts, 0 when it has none. *)
Fixpoint buscar (k : list cell) (acc : list (list cell * nat)) : nat :=
  match acc with
  | [] => 0%nat
  | (k', n) :: r => if decide (k = k') then n else buscar k r
  end.

(** The keys that [value_counts] counts: those without a missing field. *)
Definition presentes (claves : list (list cell)) : list (list cell) :=
  List.filter (forallb notnull) claves.

(** Most frequent first. *)
Definition mas_frecuente (a b : list cell * nat) : Prop := (snd b <= snd a)%nat.

(** Two points of the yearly line, the first for an earlier year. *)
Definition anio_anterior (a b : list cell * nat) : Prop :=
  exists x y, fst a = [CNum x] /\ fst b = [CNum y] /\ x < y.

(** ** Example data *)

(** A column with a repairable mojibake value ("é" read as "Ã©") and a
    value that is not valid UTF-8 once re-encoded ("é" itself). *)
Definition df_mixto : DataFrame :=
  mkDF [lit "nombre"] [DObject]
       [(0%nat, [CStr [195; 169]]); (1%nat, [CStr [233]])].

(** The scenario of the specification: one record published on
    2021-03-15. *)
Definition df_escenario : DataFrame :=
  mkDF [lit "Pais"; lit "Fecha Publicacion"] [DObject; DObject]
       [(0%nat, [CStr (lit "PERU"); CStr (lit "2021-03-15")]);
        (1%nat, [CStr (lit "CHILE"); CNull])].

(** A record that holds nothing but a sentinel. *)
Definition df_centinela : DataFrame :=
  mkDF [lit "Pais"] [DObject] [(0%nat, [CStr (lit "N/A")])].

(** Two records that differ only in which sentinel they use. *)
Definition df_casi_iguales : DataFrame :=
  mkDF [lit "Pais"; lit "Delito"] [DObject; DObject]
       [(0%nat, [CStr (lit "PERU"); CStr (lit "N/A")]);
        (1%nat, [CStr (lit "PERU"); CStr (lit "")])].

(** What [limpiar_datos] returns for [df_escenario]. *)
Definition df_escenario_limpio : DataFrame :=
  mkDF [lit "pais"; lit "fecha_publicacion"; lit "fecha_texto"]
       [DObject; DDatetime; DObject]
       [(0%nat, [CStr (lit "PERU"); CDate (mkTimestamp 2021 3 15);
                 CStr (lit "15 de marzo de 2021")]);
        (1%nat, [CStr (lit "CHILE"); CNull; CNull])].

(** A record repeated three times around an empty row. *)
Definition df_repetido : DataFrame :=
  mkDF [lit "Pais"; lit "Delito"] [DObject; DObject]
       [(0%nat, [CStr (lit "PERU"); CStr (lit "HURTO")]);
        (1%nat, [CNull; CNull]);
        (2%nat, [CStr (lit "PERU"); CStr (lit "HURTO")]);
        (3%nat, [CStr (lit "CHILE"); CNull]);
        (4%nat, [CStr (lit "PERU"); CStr (lit "HURTO")])].

Definition df_repetido_limpio : DataFrame :=
  mkDF [lit "pais"; lit "delito"] [DObject; DObject]
       [(0%nat, [CStr (lit "PERU"); CStr (lit "HURTO")]);
        (3%nat, [CStr (lit "CHILE"); CNull])].

(** " Fecha Publicación " *)
Definition nombre_acentuado : str :=
  [32] ++ lit "Fecha Publicaci" ++ [243] ++ lit "n" ++ [32].

(** An endpoint that is down: every request is answered with 500 and
    no body. *)
Definition servidor_caido (offset : Z) : result Response :=
  Ok (mkResponse 500 (Raise EmptyDataError)).

Definition pagina (desde : nat) (paises : list string) : DataFrame :=
  mkDF [lit "Pais"] [DObject]
       (imap (fun i p => ((desde + i)%nat, [CStr (lit p)])) paises).

(** Five pages of two records each, the third request fails. *)
Definition servidor_tercera_falla (offset : Z) : result Response :=
  match offset with
  | 0 => Ok (mkResponse 200 (Ok (pagina 0 ["PERU"; "CHILE"]%string)))
  | 50000 => Ok (mkResponse 200 (Ok (pagina 0 ["CUBA"; "PERU"]%string)))
  | 100000 => Ok (mkResponse 500 (Raise EmptyDataError))
  | 150000 => Ok (mkResponse 200 (Ok (pagina 0 ["CHINA"; "JAPON"]%string)))
  | 200000 => Ok (mkResponse 200 (Ok (pagina 0 ["ITALIA"; "PERU"]%string)))
  | _ => Ok (mkResponse 200 (Ok (pagina 0 [])))
  end.

(** One page of records, then a reply with status 200 and nothing in
    its body. *)
Definition servidor_cuerpo_vacio (offset : Z) : result Response :=
  match offset with
  | 0 => Ok (mkResponse 200 (Ok (pagina 0 ["PERU"; "CHILE"]%string)))
  | _ => Ok (mkResponse 200 (Raise EmptyDataError))
  end.

(** One page of records, then the connection is lost. *)
Definition servidor_sin_conexion (offset : Z) : result Response :=
  match offset with
  | 0 => Ok (mkResponse 200 (Ok (pagina 0 ["PERU"; "CHILE"]%string)))
  | _ => Raise RequestException
  end.

(** A stand-in for the random draw: the first [n] rows. *)
Definition primeras (n seed : Z) (rows : list fila) : list fila :=
  take (Z.to_nat n) rows.

(** A table of 50 001 records. *)
Definition df_grande : DataFrame :=
  mkDF [lit "pais"] [DObject]
       (imap (fun i r => (i, r)) (replicate (Z.to_nat 50001) [CStr (lit "PERU")])).

(** Two raw names for the publication date. *)
Definition df_dos_fechas : DataFrame :=
  mkDF [lit "Fecha Publicacion"; lit "fecha_publicacion"] [DObject; DObject]
       [(0%nat, [CStr (lit "2021-03-15"); CStr (lit "2021-03-16")])].

(** An endpoint that has rows at every offset. *)
Definition servidor_sin_fin (offset : Z) : result Response :=
  Ok (mkResponse 200 (Ok (pagina 0 ["PERU"]%string))).

(** A clean table in which two raw names were given the name [pais]. *)
Definition df_dos_paises : DataFrame :=
  mkDF [lit "pais"; lit "pais"] [DObject; DObject]
       [(0%nat, [CStr (lit "PERU"); CStr (lit "PERU")]);
        (1%nat, [CStr (lit "CHILE"); CNull])].

(** Two text columns under one name, both mis-decoded. *)
Definition df_mismo_nombre : DataFrame :=
  mkDF [lit "nombre"; lit "nombre"] [DObject; DObject]
       [(0%nat, [CStr [195; 169]; CStr [195; 173]])].

(** An endpoint whose table has the headers "Pais " and "PAÍS". *)
Definition servidor_dos_paises (offset : Z) : result Response :=
  match offset with
  | 0 =>
    Ok (mkResponse 200
          (Ok (mkDF [lit "Pais "; lit "PA" ++ [205] ++ lit "S"] [DObject; DObject]
                    [(0%nat, [CStr (lit "PERU"); CStr (lit "PERU")])])))
  | _ => Ok (mkResponse 500 (Raise EmptyDataError))
  end.

(** A clean table with a gender column. *)
Definition df_generos : DataFrame :=
  mkDF [lit "pais"; lit "genero"] [DObject; DObject]
       [(0%nat, [CStr (lit "PERU"); CStr (lit "MASCULINO")]);
        (1%nat, [CStr (lit "CHILE"); CStr (lit "FEMENINO")]);
        (2%nat, [CStr (lit "PERU"); CStr (lit "MASCULINO")]);
        (3%nat, [CStr (lit "CUBA"); CNull])].

(** A clean table with dates in two years. *)
Definition df_fechas : DataFrame :=
  mkDF [lit "fecha_publicacion"] [DDatetime]
       [(0%nat, [CDate (mkTimestamp 2021 3 15)]);
        (1%nat, [CDate (mkTimestamp 2019 1 1)]);
        (2%nat, [CDate (mkTimestamp 2021 7 1)]);
        (3%nat, [CNull])].

(** * Properties *)

(** ** The codec on small inputs *)

(** "PaÃ­s" is "País" read with the wrong decoder; the euro sign has no
    latin-1 byte; a lone 0xE9 is not UTF-8; overlong forms, surrogates
    and code points above U+10FFFF are refused. *)
Example recode_ejemplos :
  Codec.recode [80; 97; 195; 173; 115] = Ok [80; 97; 237; 115]
  /\ Codec.recode [8364] = Raise UnicodeEncodeError
  /\ Codec.recode [233] = Raise UnicodeDecodeError
  /\ Codec.decode_utf8 [226; 130; 172] = Ok [8364]
  /\ Codec.decode_utf8 [240; 159; 152; 128] = Ok [128512]
  /\ Codec.decode_utf8 [192; 128] = Raise UnicodeDecodeError
  /\ Codec.decode_utf8 [224; 128; 128] = Raise UnicodeDecodeError
  /\ Codec.decode_utf8 [237; 160; 128] = Raise UnicodeDecodeError
  /\ Codec.decode_utf8 [244; 144; 128; 128] = Raise UnicodeDecodeError.
Proof. repeat split; vm_compute; reflexivity. Qed.

(** ** Series and columns *)

Lemma apply_series_length {A B} (f : A -> result B) l vals :
  apply_series f l = Ok vals -> length vals = length l.
Proof.
  revert vals. induction l as [|x l IH]; intros vals Hv; simpl in Hv.
  - by inversion Hv.
  - destruct (f x); [|done]. simpl in Hv.
    destruct (apply_series f l) as [ys|]; [|done].
    inversion Hv; subst. simpl. f_equal. by apply IH.
Qed.

Lemma apply_series_Ok {A B} (f : A -> result B) (g : A -> B) l :
  Forall (fun x => f x = Ok (g x)) l -> apply_series f l = Ok (List.map g l).
Proof.
  induction 1 as [|x l Hx _ IH]; [done|].
  simpl. by rewrite Hx, IH.
Qed.

Lemma apply_series_Raise {A B} (f : A -> result B) l :
  Exists (fun x => exists e, f x = Raise e) l ->
  exists e, apply_series f l = Raise e.
Proof.
  induction l as [|x l IH]; intros Hex; [by inversion Hex|].
  simpl. destruct (f x) as [y|e] eqn:Hx; [|by exists e].
  inversion Hex as [? ? [e He]|? ? Hl]; subst; [congruence|].
  destruct (IH Hl) as [e He]. exists e. by rewrite He.
Qed.

Lemma iloc_set_same j vals rows :
  length vals = length rows ->
  Forall (fun r : fila => (j < length (snd r))%nat) rows ->
  iloc_col j (set_iloc_col j vals rows) = vals.
Proof.
  intros Hlen Hwf. revert vals Hlen.
  induction Hwf as [|r rows Hr _ IH]; intros [|v vals] Hlen; try done.
  simpl in *. f_equal.
  - rewrite nth_lookup, list_lookup_insert_eq; done.
  - apply IH. lia.
Qed.

Lemma iloc_set_other j j' vals rows :
  length vals = length rows -> j <> j' ->
  iloc_col j' (set_iloc_col j vals rows) = iloc_col j' rows.
Proof.
  intros Hlen Hne. revert vals Hlen.
  induction rows as [|r rows IH]; intros [|v vals] Hlen; try done.
  simpl in *. f_equal.
  - by rewrite !nth_lookup, list_lookup_insert_ne.
  - apply IH. lia.
Qed.

Lemma set_iloc_col_widths j vals rows :
  length vals = length rows ->
  List.map (fun r : fila => length (snd r)) (set_iloc_col j vals rows)
  = List.map (fun r : fila => length (snd r)) rows.
Proof.
  revert vals. induction rows as [|r rows IH]; intros [|v vals] Hlen; try done.
  simpl in *. rewrite length_insert. f_equal. apply IH. lia.
Qed.

Lemma set_iloc_col_index j vals rows :
  length vals = length rows ->
  List.map fst (set_iloc_col j vals rows) = List.map fst rows.
Proof.
  revert vals. induction rows as [|r rows IH]; intros [|v vals] Hlen; try done.
  simpl in *. f_equal. apply IH. lia.
Qed.

Lemma get_loc_from_ge key cols i j :
  j ∈ get_loc_from i key cols -> (i <= j)%nat.
Proof.
  revert i. induction cols as [|c cols IH]; intros i Hj; simpl in Hj.
  - by apply elem_of_nil in Hj.
  - destruct (decide (c = key)).
    + apply elem_of_cons in Hj as [->|Hj]; [lia|]. apply IH in Hj. lia.
    + apply IH in Hj. lia.
Qed.

Lemma get_loc_from_lookup key cols i j :
  j ∈ get_loc_from i key cols -> cols !! (j - i)%nat = Some key.
Proof.
  revert i. induction cols as [|c cols IH]; intros i Hj; simpl in Hj.
  - by apply elem_of_nil in Hj.
  - destruct (decide (c = key)) as [->|Hne].
    + apply elem_of_cons in Hj as [->|Hj].
      * by rewrite Nat.sub_diag.
      * pose proof (get_loc_from_ge _ _ _ _ Hj). specialize (IH _ Hj).
        replace (j - i)%nat with (S (j - S i)) by lia. done.
    + pose proof (get_loc_from_ge _ _ _ _ Hj). specialize (IH _ Hj).
      replace (j - i)%nat with (S (j - S i)) by lia. done.
Qed.

Lemma get_loc_from_nil key cols i :
  get_loc_from i key cols = [] <-> key ∉ cols.
Proof.
  revert i. induction cols as [|c cols IH]; intros i; simpl.
  - split; [intros _; apply not_elem_of_nil|done].
  - rewrite not_elem_of_cons. destruct (decide (c = key)) as [->|Hne].
    + split; [done|]. by intros [? _].
    + rewrite IH. split; [intros ?; split; [congruence|done] | by intros [_ ?]].
Qed.

Lemma get_loc_lookup key cols j :
  j ∈ get_loc key cols -> cols !! j = Some key.
Proof.
  intros Hj. apply get_loc_from_lookup in Hj. by rewrite Nat.sub_0_r in Hj.
Qed.

(** ** Pass 1: encoding repair *)

Lemma select_dtypes_object_sub cols dts x :
  x ∈ select_dtypes_object cols dts -> x ∈ cols.
Proof.
  revert dts. induction cols as [|c cols IH]; intros [|d dts] Hx; simpl in Hx;
    try by apply elem_of_nil in Hx.
  destruct (decide (d = DObject)).
  - apply elem_of_cons in Hx as [->|Hx]; [left|right; eauto].
  - right; eauto.
Qed.

(** A name carried by exactly one column of object dtype is visited
    exactly once by the loop. *)
Lemma select_dtypes_object_split cols dts i j c :
  get_loc_from i c cols = [j] ->
  dts !! (j - i)%nat = Some DObject ->
  exists n1 n2,
    select_dtypes_object cols dts = n1 ++ (c :: n2) /\ (c ∉ n1) /\ (c ∉ n2).
Proof.
  revert dts i. induction cols as [|x cols IH]; intros dts i Hloc Hdt; [done|].
  destruct dts as [|d dts]; [done|]. simpl in Hloc |- *.
  destruct (decide (x = c)) as [->|Hne].
  - inversion Hloc as [[Hj Hrest]]. subst j. rewrite Nat.sub_diag in Hdt.
    simpl in Hdt. inversion Hdt; subst d. rewrite decide_True by done.
    exists [], (select_dtypes_object cols dts). split; [done|].
    split; [apply not_elem_of_nil|].
    intros Hin. apply select_dtypes_object_sub in Hin.
    by apply get_loc_from_nil in Hrest.
  - assert (S i <= j)%nat as Hge.
    { apply (get_loc_from_ge c cols). rewrite Hloc. left. }
    replace (j - i)%nat with (S (j - S i)) in Hdt by lia. simpl in Hdt.
    destruct (IH dts (S i) Hloc Hdt) as (n1 & n2 & Heq & H1 & H2).
    destruct (decide (d = DObject)).
    + exists (x :: n1), n2. rewrite Heq. split; [done|].
      split; [|done]. rewrite not_elem_of_cons. split; [congruence|done].
    + by exists n1, n2.
Qed.

Section Reparacion.

Context {P : Pandas}.

Lemma reparar_columna_columns col df :
  columns (reparar_columna col df) = columns df
  /\ length (dtypes (reparar_columna col df)) = length (dtypes df)
  /\ index (reparar_columna col df) = index df
  /\ List.map (fun r : fila => length (snd r)) (filas (reparar_columna col df))
     = List.map (fun r : fila => length (snd r)) (filas df).
Proof.
  unfold reparar_columna, index.
  destruct (get_loc col (columns df)) as [|j [|? ?]]; try done.
  destruct (apply_series _ _) as [vals|] eqn:Hv; [|done].
  apply apply_series_length in Hv. unfold iloc_col in Hv.
  rewrite length_map in Hv. simpl.
  by rewrite length_insert, set_iloc_col_index, set_iloc_col_widths.
Qed.

Lemma reparar_columna_other col df j c :
  columns df !! j = Some c -> c <> col ->
  iloc_col j (filas (reparar_columna col df)) = iloc_col j (filas df).
Proof.
  intros Hj Hne. unfold reparar_columna.
  destruct (get_loc col (columns df)) as [|j' [|? ?]] eqn:Hloc; try done.
  destruct (apply_series _ _) as [vals|] eqn:Hv; [|done].
  apply apply_series_length in Hv. unfold iloc_col in Hv.
  rewrite length_map in Hv. simpl.
  apply iloc_set_other; [done|].
  intros ->. assert (columns df !! j = Some col) as Hc.
  { apply get_loc_lookup. rewrite Hloc. left. }
  congruence.
Qed.

Lemma fold_reparar_columns names df :
  let df' := fold_left (fun d col => reparar_columna col d) names df in
  columns df' = columns df
  /\ length (dtypes df') = length (dtypes df)
  /\ index df' = index df
  /\ List.map (fun r : fila => length (snd r)) (filas df')
     = List.map (fun r : fila => length (snd r)) (filas df).
Proof.
  revert df. induction names as [|n names IH]; intros df; simpl; [done|].
  destruct (IH (reparar_columna n df)) as (-> & -> & -> & ->).
  apply reparar_columna_columns.
Qed.

Lemma fold_reparar_other names df j c :
  columns df !! j = Some c -> c ∉ names ->
  iloc_col j (filas (fold_left (fun d col => reparar_columna col d) names df))
  = iloc_col j (filas df).
Proof.
  revert df. induction names as [|n names IH]; intros df Hj Hnot; simpl; [done|].
  apply not_elem_of_cons in Hnot as [Hne Hnot].
  rewrite (IH (reparar_columna n df)); [by apply (reparar_columna_other _ _ _ c)| |done].
  destruct (reparar_columna_columns n df) as (-> & _). done.
Qed.

Lemma bien_formado_widths df j :
  bien_formado df -> (j < length (columns df))%nat ->
  Forall (fun r : fila => (j < length (snd r))%nat) (filas df).
Proof.
  intros Hwf Hj. eapply Forall_impl; [exact Hwf|]. simpl. intros r ->. done.
Qed.

Lemma widths_bien_formado df df' :
  columns df' = columns df ->
  List.map (fun r : fila => length (snd r)) (filas df')
  = List.map (fun r : fila => length (snd r)) (filas df) ->
  bien_formado df -> bien_formado df'.
Proof.
  unfold bien_formado. intros -> Hw Hwf.
  apply (List.Forall_map (fun r : fila => length (snd r))
                         (fun n => n = length (columns df))).
  rewrite Hw. by apply List.Forall_map.
Qed.

Lemma apply_series_Ok_inv {A B} (f : A -> result B) l vals :
  apply_series f l = Ok vals -> Forall (fun x => exists y, f x = Ok y) l.
Proof.
  revert vals. induction l as [|x l IH]; intros vals Hv; [constructor|].
  simpl in Hv. destruct (f x) as [y|] eqn:Hx; [|done]. simpl in Hv.
  destruct (apply_series f l) as [ys|] eqn:Hl; [|done].
  constructor; eauto.
Qed.

Lemma reparar_columna_same col df j :
  bien_formado df ->
  get_loc col (columns df) = [j] ->
  iloc_col j (filas (reparar_columna col df))
  = match apply_series reparar_valor (iloc_col j (filas df)) with
    | Ok vals => vals
    | Raise _ => iloc_col j (filas df)
    end.
Proof.
  intros Hwf Hloc. unfold reparar_columna. rewrite Hloc.
  destruct (apply_series _ _) as [vals|] eqn:Hv; [|done].
  apply apply_series_length in Hv. unfold iloc_col in Hv.
  rewrite length_map in Hv. simpl.
  apply iloc_set_same; [done|].
  apply bien_formado_widths; [done|].
  apply lookup_lt_Some with col, get_loc_lookup. rewrite Hloc. left.
Qed.

Lemma reparar_columna_untouched col df j :
  get_loc col (columns df) <> [j] ->
  iloc_col j (filas (reparar_columna col df)) = iloc_col j (filas df)
  /\ dtypes (reparar_columna col df) !! j = dtypes df !! j.
Proof.
  intros Hne. unfold reparar_columna.
  destruct (get_loc col (columns df)) as [|j' [|? ?]] eqn:Hloc; try done.
  destruct (apply_series _ _) as [vals|] eqn:Hv; [|done].
  apply apply_series_length in Hv. unfold iloc_col in Hv.
  rewrite length_map in Hv. simpl. split.
  - apply iloc_set_other; [done|]. congruence.
  - apply list_lookup_insert_ne. congruence.
Qed.

Lemma fold_reparar_untouched names df j :
  (forall n, n ∈ names -> get_loc n (columns df) <> [j]) ->
  let df' := fold_left (fun d col => reparar_columna col d) names df in
  iloc_col j (filas df') = iloc_col j (filas df)
  /\ dtypes df' !! j = dtypes df !! j.
Proof.
  revert df. induction names as [|n names IH]; intros df Hno; simpl; [done|].
  destruct (IH (reparar_columna n df)) as [Hv Hd].
  { intros n' Hn'. destruct (reparar_columna_columns n df) as (-> & _).
    apply Hno. by right. }
  simpl in Hv, Hd. rewrite Hv, Hd. apply reparar_columna_untouched, Hno. left.
Qed.

(** C1 (as the code has it): the repair of a text column is all or
    nothing.  For a column of object dtype whose name no other column
    carries, the pass leaves every value repaired when every value can be
    re-decoded, and leaves the whole column as it was as soon as one value
    cannot; a column of object dtype that shares its name with another
    column is left as it was in any case.  A frame is always returned, no
    exception leaves the pass. *)
Theorem reparar_texto_todo_o_nada df j c :
  bien_formado df ->
  columns df !! j = Some c ->
  dtypes df !! j = Some DObject ->
  (get_loc c (columns df) = [j] ->
   (Forall reparable (iloc_col j (filas df)) ->
    iloc_col j (filas (reparar_texto df)) = List.map reparado (iloc_col j (filas df)))
   /\ (~ Forall reparable (iloc_col j (filas df)) ->
       iloc_col j (filas (reparar_texto df)) = iloc_col j (filas df)))
  /\ (get_loc c (columns df) <> [j] ->
      iloc_col j (filas (reparar_texto df)) = iloc_col j (filas df)).
Proof.
  intros Hwf Hc Hdt. split.
  2:{ intros Hdup. apply fold_reparar_untouched. intros n Hn Hloc.
      assert (columns df !! j = Some n) as Hcj.
      { apply get_loc_lookup. rewrite Hloc. left. }
      congruence. }
  intros Hloc.
  destruct (select_dtypes_object_split (columns df) (dtypes df) 0 j c)
    as (n1 & n2 & Hsel & Hn1 & Hn2); [done|by rewrite Nat.sub_0_r|].
  unfold reparar_texto. rewrite Hsel, fold_left_app. simpl.
  set (d1 := fold_left (fun d col => reparar_columna col d) n1 df).
  destruct (fold_reparar_columns n1 df) as (Hc1 & _ & _ & Hw1). fold d1 in Hc1, Hw1.
  assert (bien_formado d1) as Hwf1 by (by apply (widths_bien_formado df)).
  rewrite (fold_reparar_other n2 (reparar_columna c d1) j c); [| |done].
  2:{ destruct (reparar_columna_columns c d1) as (-> & _). by rewrite Hc1. }
  rewrite reparar_columna_same; [|done|by rewrite Hc1].
  unfold d1. rewrite (fold_reparar_other n1 df j c) by done.
  destruct (apply_series reparar_valor (iloc_col j (filas df))) as [vals|e] eqn:Hv.
  - split; [|intros Hno; destruct Hno; by apply apply_series_Ok_inv in Hv].
    intros Hall. rewrite (apply_series_Ok reparar_valor reparado) in Hv.
    + by inversion Hv.
    + eapply Forall_impl; [exact Hall|]. intros x [y Hy]. unfold reparado.
      by rewrite Hy.
  - split; [|done]. intros Hall.
    rewrite (apply_series_Ok reparar_valor reparado) in Hv; [done|].
    eapply Forall_impl; [exact Hall|]. intros x [y Hy]. unfold reparado.
    by rewrite Hy.
Qed.

End Reparacion.

Lemma reparar_texto_todo_o_nada_witness :
  iloc_col 0 (filas (reparar_texto (P := Es.pandas) df_mixto))
  = iloc_col 0 (filas df_mixto).
Proof.
  destruct (reparar_texto_todo_o_nada (P := Es.pandas) df_mixto 0%nat (lit "nombre"))
    as [Huno _].
  - repeat constructor.
  - reflexivity.
  - reflexivity.
  - apply Huno; [reflexivity|].
    intros Hall. inversion Hall as [|? ? _ Hrest]; subst.
    inversion Hrest as [|? ? [y Hy] _]; subst.
    vm_compute in Hy. discriminate Hy.
Defined.

(** C1 (as stated) fails: in ["Ã©"; "é"] the first value can be repaired
    on its own, yet the pass leaves it as it was, because the second one
    cannot. *)
Lemma reparar_texto_no_por_valor :
  iloc_col 0 (filas (reparar_texto (P := Es.pandas) df_mixto))
  <> spec_reparar_por_valor (iloc_col 0 (filas df_mixto)).
Proof. vm_compute. discriminate. Qed.

(** Two text columns under one name are both left as they were, though
    each value could be repaired. *)
Example reparar_texto_mismo_nombre :
  reparar_texto (P := Es.pandas) df_mismo_nombre = df_mismo_nombre
  /\ Forall reparable (iloc_col 0 (filas df_mismo_nombre))
  /\ Forall reparable (iloc_col 1 (filas df_mismo_nombre)).
Proof.
  split; [vm_compute; reflexivity|].
  split; repeat constructor; eexists; vm_compute; reflexivity.
Qed.

(** ** Pass 3: sentinel normalisation *)

Lemma reemplazar_valor_idem c :
  reemplazar_valor (reemplazar_valor c) = reemplazar_valor c.
Proof.
  destruct c as [|s| |]; try done. simpl.
  destruct (bool_decide (s ∈ centinelas)) eqn:Hs; [done|].
  simpl. by rewrite Hs.
Qed.

(** C9: sentinel normalisation is idempotent: replacing "N/A", "n/a" and
    the empty string by the missing value a second time changes nothing. *)
Theorem replace_centinelas_idempotente df :
  replace_centinelas (replace_centinelas df) = replace_centinelas df.
Proof.
  unfold replace_centinelas. simpl. f_equal.
  rewrite List.map_map. apply List.map_ext. intros [i r]. simpl. f_equal.
  rewrite List.map_map. apply List.map_ext. intros c.
  apply reemplazar_valor_idem.
Qed.

(** ** Pass 2: row pruning *)

Lemma drop_dups_Forall (P : fila -> Prop) seen rows :
  Forall P rows -> Forall P (drop_dups seen rows).
Proof.
  intros HP. revert seen. induction HP as [|r rows Hr _ IH]; intros seen; simpl.
  - constructor.
  - destruct (bool_decide (snd r ∈ seen)); [apply IH|].
    constructor; [done|apply IH].
Qed.

Lemma drop_dups_not_seen seen rows r :
  r ∈ drop_dups seen rows -> snd r ∉ seen.
Proof.
  revert seen. induction rows as [|x rows IH]; intros seen Hr; simpl in Hr.
  - by apply elem_of_nil in Hr.
  - destruct (bool_decide (snd x ∈ seen)) eqn:Hx; [by apply IH|].
    apply bool_decide_eq_false in Hx.
    apply elem_of_cons in Hr as [->|Hr]; [done|].
    apply IH in Hr. rewrite not_elem_of_cons in Hr. tauto.
Qed.

Lemma drop_dups_NoDup seen rows :
  NoDup (List.map snd (drop_dups seen rows)).
Proof.
  revert seen. induction rows as [|x rows IH]; intros seen; simpl.
  - constructor.
  - destruct (bool_decide (snd x ∈ seen)); [apply IH|].
    simpl. constructor; [|apply IH].
    intros Hin. apply list_elem_of_In, in_map_iff in Hin as (r & Heq & Hr).
    apply list_elem_of_In, drop_dups_not_seen in Hr.
    apply Hr. rewrite Heq. left.
Qed.

Lemma existsb_notnull_present (r : list cell) :
  existsb notnull r = true <-> exists c, c ∈ r /\ c <> CNull.
Proof.
  rewrite existsb_exists. split.
  - intros (c & Hin & Hc). exists c. split; [by apply list_elem_of_In|].
    by intros ->.
  - intros (c & Hin & Hc). exists c. split; [by apply list_elem_of_In|].
    by destruct c.
Qed.

(** After pruning every row has a present field. *)
Lemma podar_presentes {P : Pandas} df :
  Forall (fun r : fila => exists c, c ∈ snd r /\ c <> CNull) (filas (podar df)).
Proof.
  unfold podar, drop_duplicates, dropna_all. simpl.
  apply drop_dups_Forall, List.Forall_forall. intros r Hr.
  apply filter_In in Hr as [_ Hr]. by apply existsb_notnull_present.
Qed.

(** After pruning no two rows agree on every field. *)
Lemma podar_sin_duplicados {P : Pandas} df :
  NoDup (List.map snd (filas (podar df))).
Proof. apply drop_dups_NoDup. Qed.

(** ** Assignment to a column *)

Lemma get_loc_from_elem key cols i k :
  cols !! k = Some key -> (i + k)%nat ∈ get_loc_from i key cols.
Proof.
  revert i k. induction cols as [|c cols IH]; intros i k Hk; [done|].
  simpl. destruct k as [|k]; simpl in Hk.
  - inversion Hk; subst. rewrite decide_True by done. rewrite Nat.add_0_r. left.
  - replace (i + S k)%nat with (S i + k)%nat by lia.
    destruct (decide (c = key)); [right|]; by apply IH.
Qed.

Lemma get_loc_elem key cols j :
  j ∈ get_loc key cols <-> cols !! j = Some key.
Proof.
  split; [apply get_loc_lookup|]. intros Hj.
  by apply (get_loc_from_elem key cols 0%nat j).
Qed.

Lemma set_iloc_col_length j vals rows :
  length vals = length rows -> length (set_iloc_col j vals rows) = length rows.
Proof. intros Hlen. unfold set_iloc_col. rewrite length_zip_with. lia. Qed.

Lemma set_cols_length js vals rows :
  length vals = length rows -> length (set_cols js vals rows) = length rows.
Proof.
  intros Hlen. induction js as [|j js IH]; [done|]. simpl.
  rewrite set_iloc_col_length; [done|]. by rewrite IH.
Qed.

Lemma set_cols_index js vals rows :
  length vals = length rows ->
  List.map fst (set_cols js vals rows) = List.map fst rows.
Proof.
  intros Hlen. induction js as [|j js IH]; [done|]. simpl.
  rewrite set_iloc_col_index; [done|]. by rewrite set_cols_length.
Qed.

Lemma set_cols_widths js vals rows :
  length vals = length rows ->
  List.map (fun r : fila => length (snd r)) (set_cols js vals rows)
  = List.map (fun r : fila => length (snd r)) rows.
Proof.
  intros Hlen. induction js as [|j js IH]; [done|]. simpl.
  rewrite set_iloc_col_widths; [done|]. by rewrite set_cols_length.
Qed.

Lemma set_cols_other js vals rows j' :
  length vals = length rows -> j' ∉ js ->
  iloc_col j' (set_cols js vals rows) = iloc_col j' rows.
Proof.
  intros Hlen. induction js as [|j js IH]; intros Hnot; [done|]. simpl.
  apply not_elem_of_cons in Hnot as [Hne Hnot].
  rewrite iloc_set_other; [by apply IH|by rewrite set_cols_length|done].
Qed.

Lemma widths_Forall (P : nat -> Prop) (rows rows' : list fila) :
  List.map (fun r : fila => length (snd r)) rows'
  = List.map (fun r : fila => length (snd r)) rows ->
  Forall (fun r : fila => P (length (snd r))) rows ->
  Forall (fun r : fila => P (length (snd r))) rows'.
Proof.
  intros Hw Hall.
  apply (List.Forall_map (fun r : fila => length (snd r)) P).
  rewrite Hw. by apply List.Forall_map.
Qed.

Lemma set_cols_same js vals rows j' :
  length vals = length rows -> j' ∈ js ->
  Forall (fun r : fila => (j' < length (snd r))%nat) rows ->
  iloc_col j' (set_cols js vals rows) = vals.
Proof.
  intros Hlen. induction js as [|j js IH]; intros Hin Hw.
  - by apply elem_of_nil in Hin.
  - simpl. destruct (decide (j = j')) as [->|Hne].
    + apply iloc_set_same; [by rewrite set_cols_length|].
      apply (widths_Forall (fun n => (j' < n)%nat) rows); [|done].
      by apply set_cols_widths.
    + apply elem_of_cons in Hin as [->|Hin]; [done|].
      rewrite iloc_set_other; [by apply IH|by rewrite set_cols_length|done].
Qed.

Lemma append_col_index vals rows :
  length vals = length rows ->
  List.map fst (append_col vals rows) = List.map fst rows.
Proof.
  revert vals. induction rows as [|r rows IH]; intros [|v vals] Hlen; try done.
  simpl in *. f_equal. apply IH. lia.
Qed.

Lemma append_col_old vals rows j :
  length vals = length rows ->
  Forall (fun r : fila => (j < length (snd r))%nat) rows ->
  iloc_col j (append_col vals rows) = iloc_col j rows.
Proof.
  intros Hlen Hw. revert vals Hlen.
  induction Hw as [|r rows Hr _ IH]; intros [|v vals] Hlen; try done.
  simpl in *. f_equal; [|apply IH; lia].
  by rewrite app_nth1.
Qed.

Lemma append_col_new vals rows n :
  length vals = length rows ->
  Forall (fun r : fila => length (snd r) = n) rows ->
  iloc_col n (append_col vals rows) = vals
  /\ Forall (fun r : fila => length (snd r) = S n) (append_col vals rows).
Proof.
  intros Hlen Hw. revert vals Hlen.
  induction Hw as [|r rows Hr _ IH]; intros [|v vals] Hlen; try done.
  simpl in *. destruct (IH vals) as [IH1 IH2]; [lia|]. split.
  - f_equal; [|done]. rewrite app_nth2 by lia. by rewrite Hr, Nat.sub_diag.
  - constructor; [|done]. simpl. rewrite length_app. simpl. lia.
Qed.

Lemma setitem_index key dt vals df df' :
  setitem key dt vals df = Ok df' -> index df' = index df.
Proof.
  unfold setitem, index. case_bool_decide as Hlen; [|done].
  destruct (get_loc key (columns df)) as [|j js]; intros [= <-]; simpl.
  - by apply append_col_index.
  - by apply (set_cols_index (j :: js)).
Qed.

Lemma setitem_facts key dt vals df df' :
  bien_formado df ->
  setitem key dt vals df = Ok df' ->
  bien_formado df'
  /\ (forall j, columns df' !! j = Some key -> iloc_col j (filas df') = vals)
  /\ (forall j c, columns df' !! j = Some c -> c <> key ->
        columns df !! j = Some c
        /\ iloc_col j (filas df') = iloc_col j (filas df))
  /\ (forall j c, columns df !! j = Some c -> columns df' !! j = Some c)
  /\ key ∈ columns df'.
Proof.
  intros Hwf. unfold setitem. case_bool_decide as Hlen; [|done].
  destruct (get_loc key (columns df)) as [|j0 js] eqn:Hloc; intros [= <-]; simpl.
  - apply get_loc_from_nil in Hloc.
    destruct (append_col_new vals (filas df) (length (columns df)) Hlen Hwf)
      as [Hnew Hwf'].
    assert (forall j c, (columns df ++ [key]) !! j = Some c -> c <> key ->
                        columns df !! j = Some c) as Hold.
    { intros j c Hj Hne. apply lookup_app_Some in Hj as [Hj|[_ Hj]]; [done|].
      apply list_lookup_singleton_Some in Hj as [_ ->]. done. }
    split; [|split; [|split; [|split]]].
    + unfold bien_formado. simpl. rewrite length_app. simpl.
      by rewrite Nat.add_1_r.
    + intros j Hj. apply lookup_app_Some in Hj as [Hj|[Hge Hj]].
      * destruct Hloc. by apply list_elem_of_lookup_2 in Hj.
      * apply list_lookup_singleton_Some in Hj as [Hj _].
        replace j with (length (columns df)) by lia. done.
    + intros j c Hj Hne. specialize (Hold j c Hj Hne). split; [done|].
      apply append_col_old; [done|].
      apply bien_formado_widths; [done|]. by apply lookup_lt_Some in Hold.
    + intros j c Hj. by apply lookup_app_l_Some.
    + apply elem_of_app. right. left.
  - split; [|split; [|split; [|split]]].
    + unfold bien_formado in *. simpl.
      apply (widths_Forall (fun n => n = length (columns df)) (filas df)); [|done].
      by apply (set_cols_widths (j0 :: js)).
    + intros j Hj. apply (set_cols_same (j0 :: js)); [done| |].
      * rewrite <- Hloc. by apply get_loc_elem.
      * apply bien_formado_widths; [done|]. by apply lookup_lt_Some in Hj.
    + intros j c Hj Hne. split; [done|].
      apply (set_cols_other (j0 :: js)); [done|].
      rewrite <- Hloc. intros Hin. apply get_loc_elem in Hin. congruence.
    + done.
    + assert (j0 ∈ get_loc key (columns df)) as Hin by (rewrite Hloc; left).
      apply get_loc_elem in Hin. by apply list_elem_of_lookup_2 in Hin.
Qed.

(** ** Well-formedness along the passes *)

Lemma reparar_texto_frame {P : Pandas} df :
  columns (reparar_texto df) = columns df
  /\ length (dtypes (reparar_texto df)) = length (dtypes df)
  /\ index (reparar_texto df) = index df
  /\ (bien_formado df -> bien_formado (reparar_texto df)).
Proof.
  destruct (fold_reparar_columns (select_dtypes_object (columns df) (dtypes df)) df)
    as (Hc & Hd & Hi & Hw).
  repeat split; try done.
  by apply widths_bien_formado.
Qed.

Lemma drop_dups_incl seen rows r :
  r ∈ drop_dups seen rows -> r ∈ rows.
Proof.
  revert seen. induction rows as [|x rows IH]; intros seen Hr; simpl in Hr; [done|].
  destruct (bool_decide (snd x ∈ seen)).
  - right. by apply (IH seen).
  - apply elem_of_cons in Hr as [->|Hr]; [left|right; by apply (IH _ Hr)].
Qed.

Lemma podar_bien_formado {P : Pandas} df :
  bien_formado df -> bien_formado (podar df).
Proof.
  intros Hwf. apply reparar_texto_frame in Hwf.
  unfold bien_formado, podar, drop_duplicates, dropna_all in *. simpl.
  apply drop_dups_Forall, List.Forall_forall. intros r Hr.
  apply filter_In in Hr as [Hr _].
  rewrite List.Forall_forall in Hwf. by apply Hwf.
Qed.

Lemma replace_centinelas_bien_formado df :
  bien_formado df -> bien_formado (replace_centinelas df).
Proof.
  unfold bien_formado, replace_centinelas. simpl. intros Hwf.
  apply List.Forall_map. eapply Forall_impl; [exact Hwf|].
  intros r Hr. simpl. by rewrite length_map.
Qed.

Lemma renombrar_bien_formado {U : Unicode} df :
  bien_formado df -> bien_formado (renombrar df).
Proof.
  unfold bien_formado, renombrar. simpl. by rewrite length_map.
Qed.

(** ** Pass 5: dates *)

Lemma lookup_map {A B} (f : A -> B) (l : list A) (k : nat) :
  List.map f l !! k = f <$> (l !! k).
Proof.
  revert k. induction l as [|x l IH]; intros [|k]; simpl; auto.
Qed.

Lemma iloc_col_lookup j rows k :
  iloc_col j rows !! k = (fun r : fila => nth j (snd r) CNull) <$> (rows !! k).
Proof. apply lookup_map. Qed.


Section Fechas.

Context {P : Pandas}.
Variable to_datetime : list cell -> list (option Timestamp).





End Fechas.



(** The scenario end to end, with the ISO fragment of the parser. *)
Example limpiar_datos_escenario :
  limpiar_datos (U := Es.unicode) (P := Es.pandas) Es.to_datetime df_escenario
  = Ok df_escenario_limpio.
Proof. vm_compute. reflexivity. Qed.

(** ** The pipeline as a whole *)

Section Tuberia.

Context {U : Unicode} {P : Pandas}.
Variable to_datetime : list cell -> list (option Timestamp).

Lemma derivar_fechas_index df out :
  derivar_fechas to_datetime df = Ok out -> index out = index df.
Proof.
  unfold derivar_fechas. destruct (in_columns _ _); [|by intros [= <-]].
  destruct (serie _ df) as [crudas|]; [|done]. simpl.
  destruct (setitem _ _ _ df) as [df1|] eqn:Hs1; [|done]. simpl.
  destruct (serie _ df1) as [fechas|]; [|done]. simpl.
  destruct (apply_series _ _) as [textos|]; [|done]. simpl.
  intros Hs2. apply setitem_index in Hs1, Hs2. congruence.
Qed.

Lemma derivar_fechas_frame df out :
  bien_formado df ->
  derivar_fechas to_datetime df = Ok out ->
  forall j nombre,
    columns out !! j = Some nombre ->
    nombre <> fecha_publicacion -> nombre <> fecha_texto ->
    iloc_col j (filas out) = iloc_col j (filas df).
Proof.
  intros Hwf. unfold derivar_fechas.
  destruct (in_columns _ _); [|by intros [= <-]].
  destruct (serie _ df) as [crudas|]; [|done]. simpl.
  destruct (setitem _ _ _ df) as [df1|] eqn:Hs1; [|done]. simpl.
  destruct (serie _ df1) as [fechas|]; [|done]. simpl.
  destruct (apply_series _ _) as [textos|]; [|done]. simpl.
  intros Hs2 j nombre Hj Hfp Hft.
  destruct (setitem_facts _ _ _ _ _ Hwf Hs1) as (Hwf1 & _ & Hother1 & _).
  destruct (setitem_facts _ _ _ _ _ Hwf1 Hs2) as (_ & _ & Hother2 & _).
  destruct (Hother2 j nombre Hj Hft) as [Hj1 ->].
  by destruct (Hother1 j nombre Hj1 Hfp) as [_ ->].
Qed.

Lemma limpiar_datos_index df out :
  limpiar_datos to_datetime df = Ok out -> index out = index (podar df).
Proof. unfold limpiar_datos. intros Hd. apply derivar_fechas_index in Hd.
  rewrite Hd. unfold index, renombrar, replace_centinelas. simpl.
  rewrite List.map_map. done.
Qed.

(** Outside the two date columns the returned table holds the pruned
    rows with sentinels blanked, and nothing else has changed. *)
Lemma limpiar_datos_frame df out :
  bien_formado df ->
  limpiar_datos to_datetime df = Ok out ->
  forall j nombre,
    columns out !! j = Some nombre ->
    nombre <> fecha_publicacion -> nombre <> fecha_texto ->
    iloc_col j (filas out)
    = List.map reemplazar_valor (iloc_col j (filas (podar df))).
Proof.
  intros Hwf Hd j nombre Hj Hfp Hft. unfold limpiar_datos in Hd.
  rewrite (derivar_fechas_frame _ _
             (renombrar_bien_formado _
                (replace_centinelas_bien_formado _ (podar_bien_formado _ Hwf)))
             Hd j nombre Hj Hfp Hft).
  unfold iloc_col, renombrar, replace_centinelas. simpl.
  rewrite !List.map_map. apply List.map_ext. intros r. simpl.
  change CNull with (reemplazar_valor CNull) at 1. apply List.map_nth.
Qed.

Lemma index_lookup (df1 df2 : DataFrame) k r' :
  index df1 = index df2 -> filas df1 !! k = Some r' ->
  exists r, filas df2 !! k = Some r /\ fst r = fst r'.
Proof.
  unfold index. intros Hi Hk.
  pose proof (lookup_map fst (filas df1) k) as H1.
  pose proof (lookup_map fst (filas df2) k) as H2.
  rewrite Hi, H2, Hk in H1. simpl in H1.
  destruct (filas df2 !! k) as [r|]; [|done]. exists r. split; [done|].
  by inversion H1.
Qed.

Lemma limpiar_datos_celda df out k r r' j c nombre :
  bien_formado df ->
  limpiar_datos to_datetime df = Ok out ->
  filas (podar df) !! k = Some r -> filas out !! k = Some r' ->
  snd r !! j = Some c ->
  columns out !! j = Some nombre ->
  nombre <> fecha_publicacion -> nombre <> fecha_texto ->
  nth j (snd r') CNull = reemplazar_valor c.
Proof.
  intros Hwf Hd Hr Hr' Hc Hj Hfp Hft.
  pose proof (limpiar_datos_frame df out Hwf Hd j nombre Hj Hfp Hft) as Hcol.
  apply (f_equal (fun l => l !! k)) in Hcol.
  rewrite lookup_map, !iloc_col_lookup, Hr, Hr' in Hcol. simpl in Hcol.
  rewrite (nth_lookup_Some _ _ CNull c Hc) in Hcol. by inversion Hcol.
Qed.

(** C2 (as the code has it): every returned row comes from a row that
    had a present field before sentinel normalisation (same position,
    same label), and it still has a present field whenever some field
    outside the two date columns held something other than a sentinel. *)
Theorem limpiar_datos_filas_con_valor df out :
  bien_formado df ->
  limpiar_datos to_datetime df = Ok out ->
  forall k r',
    filas out !! k = Some r' ->
    exists r,
      filas (podar df) !! k = Some r
      /\ fst r = fst r'
      /\ (exists c, c ∈ snd r /\ c <> CNull)
      /\ (forall j c nombre,
            snd r !! j = Some c ->
            reemplazar_valor c <> CNull ->
            columns out !! j = Some nombre ->
            nombre <> fecha_publicacion -> nombre <> fecha_texto ->
            exists c', c' ∈ snd r' /\ c' <> CNull).
Proof.
  intros Hwf Hd k r' Hr'.
  destruct (index_lookup out (podar df) k r' (limpiar_datos_index _ _ Hd) Hr')
    as (r & Hr & Hfst).
  exists r. split; [done|]. split; [done|]. split.
  { pose proof (podar_presentes df) as Hall.
    rewrite Forall_lookup in Hall. by apply (Hall k). }
  intros j c nombre Hc Hval Hj Hfp Hft.
  pose proof (limpiar_datos_celda df out k r r' j c nombre
                Hwf Hd Hr Hr' Hc Hj Hfp Hft) as Hn.
  exists (nth j (snd r') CNull). split; [|by rewrite Hn].
  destruct (nth_lookup_or_length (snd r') j CNull) as [Hl|Hl].
  - by apply list_elem_of_lookup_2 in Hl.
  - rewrite nth_overflow in Hn by done. congruence.
Qed.

(** C3 (as the code has it): two different rows of the returned table
    come from rows that were not field-wise identical before sentinel
    normalisation, and they are still different whenever they differ,
    after blanking sentinels, in some field outside the two date
    columns. *)
Theorem limpiar_datos_filas_distintas df out :
  bien_formado df ->
  limpiar_datos to_datetime df = Ok out ->
  forall k1 k2 r1' r2',
    k1 <> k2 ->
    filas out !! k1 = Some r1' -> filas out !! k2 = Some r2' ->
    exists r1 r2,
      filas (podar df) !! k1 = Some r1
      /\ filas (podar df) !! k2 = Some r2
      /\ fst r1 = fst r1' /\ fst r2 = fst r2'
      /\ snd r1 <> snd r2
      /\ (forall j c1 c2 nombre,
            snd r1 !! j = Some c1 -> snd r2 !! j = Some c2 ->
            reemplazar_valor c1 <> reemplazar_valor c2 ->
            columns out !! j = Some nombre ->
            nombre <> fecha_publicacion -> nombre <> fecha_texto ->
            snd r1' <> snd r2').
Proof.
  intros Hwf Hd k1 k2 r1' r2' Hne H1' H2'.
  destruct (index_lookup out (podar df) k1 r1' (limpiar_datos_index _ _ Hd) H1')
    as (r1 & H1 & Hf1).
  destruct (index_lookup out (podar df) k2 r2' (limpiar_datos_index _ _ Hd) H2')
    as (r2 & H2 & Hf2).
  exists r1, r2. repeat (split; [done|]). split.
  - intros Heq. apply Hne.
    apply (NoDup_lookup _ k1 k2 (snd r1) (podar_sin_duplicados df)).
    + by rewrite lookup_map, H1.
    + by rewrite lookup_map, H2, Heq.
  - intros j c1 c2 nombre Hc1 Hc2 Hdif Hj Hfp Hft Heq. apply Hdif.
    rewrite <- (limpiar_datos_celda df out k1 r1 r1' j c1 nombre) by done.
    rewrite <- (limpiar_datos_celda df out k2 r2 r2' j c2 nombre) by done.
    by rewrite Heq.
Qed.

End Tuberia.

(** ** Order of the rows that survive *)

Lemma conservada_middle (pre : list fila) r l :
  conservada (pre ++ r :: l) (length pre)
  = existsb notnull (snd r) && negb (bool_decide (snd r ∈ List.map snd pre)).
Proof.
  unfold conservada. rewrite list_lookup_middle by done.
  by rewrite take_app_length.
Qed.

Lemma nth_index_middle (pre : list fila) r l :
  nth (length pre) (List.map fst (pre ++ r :: l)) 0%nat = fst r.
Proof.
  rewrite List.map_app. simpl.
  rewrite app_nth2; rewrite length_map; [|lia]. by rewrite Nat.sub_diag.
Qed.

(** Pruning keeps, in their order, exactly the positions that
    [conservada] picks. *)
Lemma drop_dups_posiciones l pre seen :
  (forall x, x ∈ seen <-> x ∈ List.map snd pre /\ existsb notnull x = true) ->
  List.map fst
    (drop_dups seen (List.filter (fun r : fila => existsb notnull (snd r)) l))
  = List.map (fun p => nth p (List.map fst (pre ++ l)) 0%nat)
      (List.filter (conservada (pre ++ l)) (seq (length pre) (length l))).
Proof.
  revert pre seen. induction l as [|r l IH]; intros pre seen Hseen; [done|].
  cbn [length seq List.filter].
  rewrite conservada_middle.
  assert (pre ++ r :: l = (pre ++ [r]) ++ l) as Hassoc by by rewrite <- app_assoc.
  assert (S (length pre) = length (pre ++ [r])) as Hlen
      by (rewrite length_app; simpl; lia).
  destruct (existsb notnull (snd r)) eqn:Hne; cbn [andb].
  - cbn [drop_dups].
    destruct (bool_decide (snd r ∈ seen)) eqn:Hin.
    + apply bool_decide_eq_true in Hin.
      rewrite bool_decide_eq_true_2 by (by apply Hseen). cbn [negb].
      rewrite Hassoc, Hlen. apply IH. intros x. rewrite Hseen.
      rewrite List.map_app, elem_of_app. simpl. rewrite list_elem_of_singleton.
      split; [tauto|]. intros [[Hx| ->] Hx']; [done|]. by apply Hseen.
    + apply bool_decide_eq_false in Hin.
      rewrite bool_decide_eq_false_2.
      2:{ intros Hx. apply Hin, Hseen. done. }
      cbn [negb List.map]. rewrite nth_index_middle. f_equal.
      rewrite Hassoc, Hlen. apply IH. intros x.
      rewrite elem_of_cons, Hseen.
      rewrite List.map_app, elem_of_app. simpl. rewrite list_elem_of_singleton.
      split; [intros [->|[? ?]]; tauto|]. intros [[Hx| ->] Hx']; tauto.
  - rewrite Hassoc, Hlen. apply IH. intros x. rewrite Hseen.
    rewrite List.map_app, elem_of_app. simpl. rewrite list_elem_of_singleton.
    split; [tauto|]. intros [[Hx| ->] Hx']; [done|congruence].
Qed.

Lemma filter_seq_sorted (f : nat -> bool) a n :
  StronglySorted lt (List.filter f (seq a n)).
Proof.
  revert a. induction n as [|n IH]; intros a; simpl; [constructor|].
  destruct (f a); [|apply IH].
  constructor; [apply IH|].
  apply List.Forall_forall. intros p Hp.
  apply filter_In in Hp as [Hp _]. apply in_seq in Hp. lia.
Qed.

Section Orden.

Context {U : Unicode} {P : Pandas}.
Variable to_datetime : list cell -> list (option Timestamp).

(** C10: the labels of the returned rows are the labels of the input
    rows at the positions, taken in increasing order, that hold a row
    with a present field (after encoding repair) which no earlier row
    repeats: relative order is kept, and of several identical rows the
    first one stays. *)
Theorem limpiar_datos_conserva_orden df out :
  limpiar_datos to_datetime df = Ok out ->
  let posiciones :=
    List.filter (conservada (filas (reparar_texto df))) (seq 0 (len df)) in
  index out = List.map (fun p => nth p (index df) 0%nat) posiciones
  /\ StronglySorted lt posiciones.
Proof.
  intros Hd posiciones. split; [|apply filter_seq_sorted].
  unfold posiciones. rewrite (limpiar_datos_index _ _ _ Hd).
  destruct (reparar_texto_frame df) as (_ & _ & Hi & _).
  unfold len. rewrite <- Hi.
  replace (length (filas df)) with (length (filas (reparar_texto df))).
  2:{ apply (f_equal (@length nat)) in Hi. unfold index in Hi.
      by rewrite !length_map in Hi. }
  unfold index, podar, drop_duplicates, dropna_all. simpl.
  apply (drop_dups_posiciones (filas (reparar_texto df)) [] []).
  intros x. simpl. split; [by intros ?%elem_of_nil|by intros [?%elem_of_nil _]].
Qed.

End Orden.

Lemma limpiar_datos_conserva_orden_witness :
  index df_repetido_limpio
  = List.map (fun p => nth p (index df_repetido) 0%nat)
      (List.filter (conservada (filas (reparar_texto (P := Es.pandas) df_repetido)))
                   (seq 0 (len df_repetido)))
  /\ StronglySorted lt
       (List.filter (conservada (filas (reparar_texto (P := Es.pandas) df_repetido)))
                    (seq 0 (len df_repetido))).
Proof.
  apply (limpiar_datos_conserva_orden (U := Es.unicode) (P := Es.pandas) Es.to_datetime
           df_repetido df_repetido_limpio).
  vm_compute. reflexivity.
Defined.

(** Rows 0 and 3 stay: row 1 is empty, rows 2 and 4 repeat row 0. *)
Example limpiar_datos_repetido :
  limpiar_datos (U := Es.unicode) (P := Es.pandas) Es.to_datetime df_repetido = Ok df_repetido_limpio
  /\ List.filter (conservada (filas (reparar_texto (P := Es.pandas) df_repetido)))
                 (seq 0 (len df_repetido)) = [0; 3]%nat.
Proof. split; vm_compute; reflexivity. Qed.

Lemma limpiar_datos_filas_con_valor_witness :
  exists r,
    filas (podar (P := Es.pandas) df_escenario) !! 0%nat = Some r
    /\ fst r = 0%nat
    /\ (exists c, c ∈ snd r /\ c <> CNull)
    /\ (exists c', c' ∈ [CStr (lit "PERU"); CDate (mkTimestamp 2021 3 15);
                         CStr (lit "15 de marzo de 2021")] /\ c' <> CNull).
Proof.
  destruct (limpiar_datos_filas_con_valor (U := Es.unicode) (P := Es.pandas) Es.to_datetime
              df_escenario df_escenario_limpio) with
      (k := 0%nat)
      (r' := (0%nat, [CStr (lit "PERU"); CDate (mkTimestamp 2021 3 15);
                      CStr (lit "15 de marzo de 2021")]))
    as (r & Hr & Hfst & Hpres & Hcell).
  - repeat constructor.
  - vm_compute. reflexivity.
  - reflexivity.
  - exists r. repeat (split; [done|]).
    apply (Hcell 0%nat (CStr (lit "PERU")) (lit "pais")).
    + vm_compute in Hr. by inversion Hr.
    + vm_compute. discriminate.
    + reflexivity.
    + vm_compute. discriminate.
    + vm_compute. discriminate.
Defined.

(** C2 (as stated) fails: a record that holds only "N/A" is not empty
    when rows are pruned, and is returned with every field missing. *)
Lemma limpiar_datos_fila_vacia :
  exists out,
    limpiar_datos (U := Es.unicode) (P := Es.pandas) Es.to_datetime df_centinela = Ok out
    /\ ~ Forall (fun r : fila => exists c, c ∈ snd r /\ c <> CNull) (filas out).
Proof.
  eexists. split; [vm_compute; reflexivity|].
  intros Hall. inversion Hall as [|? ? (c & Hc & Hn) _]; subst.
  apply list_elem_of_singleton in Hc. done.
Qed.

Lemma limpiar_datos_filas_distintas_witness :
  exists r1 r2,
    filas (podar (P := Es.pandas) df_escenario) !! 0%nat = Some r1
    /\ filas (podar (P := Es.pandas) df_escenario) !! 1%nat = Some r2
    /\ fst r1 = 0%nat /\ fst r2 = 1%nat
    /\ snd r1 <> snd r2
    /\ [CStr (lit "PERU"); CDate (mkTimestamp 2021 3 15);
        CStr (lit "15 de marzo de 2021")]
       <> [CStr (lit "CHILE"); CNull; CNull].
Proof.
  destruct (limpiar_datos_filas_distintas (U := Es.unicode) (P := Es.pandas) Es.to_datetime
              df_escenario df_escenario_limpio) with
      (k1 := 0%nat) (k2 := 1%nat)
      (r1' := (0%nat, [CStr (lit "PERU"); CDate (mkTimestamp 2021 3 15);
                       CStr (lit "15 de marzo de 2021")]))
      (r2' := (1%nat, [CStr (lit "CHILE"); CNull; CNull]))
    as (r1 & r2 & H1 & H2 & Hf1 & Hf2 & Hne & Hcell).
  - repeat constructor.
  - vm_compute. reflexivity.
  - done.
  - reflexivity.
  - reflexivity.
  - exists r1, r2. repeat (split; [done|]).
    apply (Hcell 0%nat (CStr (lit "PERU")) (CStr (lit "CHILE")) (lit "pais")).
    + vm_compute in H1. by inversion H1.
    + vm_compute in H2. by inversion H2.
    + vm_compute. discriminate.
    + reflexivity.
    + vm_compute. discriminate.
    + vm_compute. discriminate.
Defined.

(** C3 (as stated) fails: two records that differ only in the sentinel
    they use ("N/A" against the empty string) both survive the removal
    of duplicates and are returned field-wise identical. *)
Lemma limpiar_datos_filas_identicas :
  exists out r1 r2,
    limpiar_datos (U := Es.unicode) (P := Es.pandas) Es.to_datetime df_casi_iguales = Ok out
    /\ filas out !! 0%nat = Some r1 /\ filas out !! 1%nat = Some r2
    /\ fst r1 <> fst r2 /\ snd r1 = snd r2.
Proof.
  do 3 eexists. split; [vm_compute; reflexivity|].
  split; [reflexivity|]. split; [reflexivity|]. split; [by vm_compute|].
  vm_compute. reflexivity.
Qed.

(** ** Pass 4: column names *)

Lemma lstrip_Forall (P : Z -> Prop) sp s :
  Forall P s -> Forall P (lstrip sp s).
Proof.
  induction 1 as [|c s Hc Hs IH]; simpl; [constructor|].
  destruct (sp c); [done|by constructor].
Qed.

Lemma strip_Forall (P : Z -> Prop) sp s :
  Forall P s -> Forall P (strip sp s).
Proof.
  intros Hs. unfold strip.
  by apply List.Forall_rev, lstrip_Forall, List.Forall_rev, lstrip_Forall.
Qed.

Lemma replace_space_sin_espacio s : 32 ∉ replace_space s.
Proof.
  intros Hin. apply list_elem_of_In, in_map_iff in Hin as (c & Hc & _).
  destruct (c =? 32) eqn:Heq; [done|]. apply Z.eqb_neq in Heq. done.
Qed.

Lemma permitido_minuscula c :
  sencillo c = true ->
  permitido (if ascii_lower c =? 32 then 95 else ascii_lower c) = true.
Proof.
  unfold sencillo, permitido, ascii_lower. intros Hc.
  destruct (65 <=? c) eqn:H1, (c <=? 90) eqn:H2; simpl in *;
    destruct (_ =? 32) eqn:H3; try done;
    repeat match goal with
           | H : (_ <=? _) = _ |- _ => first [apply Z.leb_le in H | apply Z.leb_gt in H]
           | H : (_ =? _) = _ |- _ => first [apply Z.eqb_eq in H | apply Z.eqb_neq in H]
           end;
    try lia.
  all: apply orb_true_iff in Hc as [Hc|Hc];
    [done|apply Z.eqb_eq in Hc; lia].
Qed.

Section Nombres.

Context {U : Unicode}.

(** On ASCII text [str.lower] works character by character. *)
Hypothesis lower_ascii :
  forall s, forallb (fun c => (0 <=? c) && (c <? 128)) s = true ->
            lower s = List.map ascii_lower s.

(** C5 (as the code has it): a normalised name never contains a space,
    and it is made of lowercase ASCII letters, digits and underscores
    whenever the NFKD form of the raw name holds nothing but ASCII
    letters, digits, underscores, spaces and characters whose canonical
    combining class is not 0, the ones the list comprehension drops. *)
Theorem normalizar_columna_ascii nombre :
  (32 ∉ normalizar_columna nombre)
  /\ (forallb (fun c => negb (combining c =? 0) || sencillo c) (nfkd nombre) = true ->
      forallb permitido (normalizar_columna nombre) = true).
Proof.
  split; [apply replace_space_sin_espacio|].
  intros Hnf. unfold normalizar_columna. cbv zeta.
  set (solo_ascii := List.filter (fun c => combining c =? 0) (nfkd nombre)).
  assert (Forall (fun c => sencillo c = true) solo_ascii) as Hs.
  { apply List.Forall_forall. intros c Hc. apply filter_In in Hc as [Hc Hz].
    rewrite forallb_forall in Hnf. specialize (Hnf c Hc).
    rewrite Hz in Hnf. done. }
  rewrite lower_ascii.
  2:{ apply forallb_forall. intros c Hc.
      rewrite List.Forall_forall in Hs. specialize (Hs c Hc).
      unfold sencillo, permitido in Hs.
      destruct (0 <=? c) eqn:H0, (c <? 128) eqn:H1; try done; exfalso;
        first [apply Z.leb_gt in H0 | apply Z.ltb_ge in H1];
        repeat (apply orb_true_iff in Hs as [Hs|Hs]);
        try (apply andb_true_iff in Hs as [Ha Hb];
             apply Z.leb_le in Ha, Hb; lia);
        apply Z.eqb_eq in Hs; lia. }
  apply forallb_forall. intros c Hc.
  apply in_map_iff in Hc as (c0 & <- & Hc0).
  assert (Forall (fun c => exists c1, c = ascii_lower c1 /\ sencillo c1 = true)
                 (strip isspace (List.map ascii_lower solo_ascii))) as Hst.
  { apply strip_Forall, List.Forall_map.
    eapply Forall_impl; [exact Hs|]. intros c1 Hc1. by exists c1. }
  rewrite List.Forall_forall in Hst.
  destruct (Hst c0 Hc0) as (c1 & -> & Hc1).
  by apply permitido_minuscula.
Qed.

End Nombres.

Lemma Es_lower_ascii s :
  forallb (fun c => (0 <=? c) && (c <? 128)) s = true ->
  lower (Unicode := Es.unicode) s = List.map ascii_lower s.
Proof.
  intros Hs. simpl. apply List.map_ext_in. intros c Hc.
  rewrite forallb_forall in Hs. specialize (Hs c Hc).
  apply andb_true_iff in Hs as [H0 H1]. apply Z.leb_le in H0. apply Z.ltb_lt in H1.
  unfold Es.minuscula, ascii_lower.
  destruct ((65 <=? c) && (c <=? 90)); [done|].
  destruct (192 <=? c) eqn:H2; [apply Z.leb_le in H2; lia|done].
Qed.

Lemma normalizar_columna_ascii_witness :
  (32 ∉ normalizar_columna (U := Es.unicode) nombre_acentuado)
  /\ forallb permitido (normalizar_columna (U := Es.unicode) nombre_acentuado) = true.
Proof.
  destruct (normalizar_columna_ascii (U := Es.unicode) Es_lower_ascii nombre_acentuado)
    as [Hsp Hperm].
  split; [exact Hsp|]. apply Hperm. vm_compute. reflexivity.
Defined.

(** " Fecha Publicación " becomes "fecha_publicacion". *)
Example normalizar_columna_acentuado :
  normalizar_columna (U := Es.unicode) nombre_acentuado = lit "fecha_publicacion"
  /\ forallb (fun c => negb (combining (Unicode := Es.unicode) c =? 0) || sencillo c)
             (nfkd (Unicode := Es.unicode) nombre_acentuado) = true.
Proof. split; vm_compute; reflexivity. Qed.

(** C5 (as stated) fails: nothing in the normalisation removes
    punctuation, "Fecha-Publicacion" keeps its hyphen. *)
Lemma normalizar_columna_guion :
  normalizar_columna (U := Es.unicode) (lit "Fecha-Publicacion")
  = lit "fecha-publicacion"
  /\ forallb permitido
       (normalizar_columna (U := Es.unicode) (lit "Fecha-Publicacion")) = false.
Proof. split; vm_compute; reflexivity. Qed.

(** A combining mark of class 0 is not dropped: "A" followed by
    U+20DD, the enclosing circle, keeps the circle. *)
Example normalizar_columna_marca_clase_0 :
  combining (Unicode := Es.unicode) 8413 = 0
  /\ normalizar_columna (U := Es.unicode) [65; 8413] = [97; 8413]
  /\ forallb permitido (normalizar_columna (U := Es.unicode) [65; 8413]) = false.
Proof. repeat split; vm_compute; reflexivity. Qed.

(** ** The paged download *)

Section DescargaProps.

Context {P : Pandas}.
Variable requests_get : Z -> result Response.

Lemma bucle_fin pasos offset all_data :
  pagina_fin requests_get offset ->
  bucle requests_get (S pasos) offset all_data = Some (Ok all_data).
Proof.
  intros (r & Hr & [Hst|(df & Hdf & Hem)]); cbn [bucle]; rewrite Hr.
  - apply Z.eqb_neq in Hst. by rewrite Hst.
  - destruct (negb _); [done|]. by rewrite Hdf, Hem.
Qed.

Lemma bucle_error pasos offset all_data e :
  pagina_error requests_get offset e ->
  bucle requests_get (S pasos) offset all_data = Some (Raise e).
Proof.
  intros [Hr|(r & Hr & Hst & Ht)]; cbn [bucle]; rewrite Hr; [done|].
  rewrite Hst. cbn [negb Z.eqb Pos.eqb]. by rewrite Ht.
Qed.

Lemma bucle_ok pasos offset all_data df_temp :
  pagina_es requests_get offset df_temp ->
  bucle requests_get (S pasos) offset all_data
  = bucle requests_get pasos (offset + limit) (all_data ++ [df_temp]).
Proof.
  intros (r & Hr & Hst & Ht & Hem). cbn [bucle]. rewrite Hr, Hst.
  cbn [negb Z.eqb Pos.eqb]. by rewrite Ht, Hem.
Qed.

(** A request brings a page with rows, ends the loop, or raises. *)
Lemma pagina_casos offset :
  pagina_ok requests_get offset
  \/ pagina_fin requests_get offset
  \/ exists e, pagina_error requests_get offset e.
Proof.
  unfold pagina_ok, pagina_es, pagina_fin, pagina_error.
  destruct (requests_get offset) as [r|e] eqn:Hr; [|right; right; eauto].
  destruct (decide (status_code r = 200)) as [Hst|Hst].
  - destruct (text r) as [df|e] eqn:Ht.
    + destruct (empty df) eqn:Hem.
      * right; left. exists r. split; [done|]. right. eauto.
      * left. exists df, r. done.
    + right; right. exists e. right. exists r. done.
  - right; left. exists r. split; [done|]. by left.
Qed.

(** After [k] pages with rows the loop goes on from the next offset
    with those pages stored, in the order of arrival. *)
Lemma bucle_paginas k pasos offset all_data (p : nat -> DataFrame) :
  (forall i, (i < k)%nat ->
             pagina_es requests_get (offset + Z.of_nat i * limit) (p i)) ->
  bucle requests_get (k + pasos) offset all_data
  = bucle requests_get pasos (offset + Z.of_nat k * limit)
          (all_data ++ List.map p (seq 0 k)).
Proof.
  revert offset all_data p.
  induction k as [|k IH]; intros offset all_data p Hok.
  - simpl. by rewrite Z.add_0_r, app_nil_r.
  - cbn [Nat.add]. rewrite (bucle_ok _ _ _ (p 0%nat)).
    2:{ specialize (Hok 0%nat ltac:(lia)). by rewrite Z.add_0_r in Hok. }
    rewrite (IH (offset + limit) _ (p ∘ S)).
    + cbn [seq List.map]. rewrite <- app_assoc. cbn [app].
      rewrite <- seq_shift, List.map_map. f_equal. lia.
    + intros i Hi. simpl.
      replace (offset + limit + Z.of_nat i * limit)
        with (offset + Z.of_nat (S i) * limit) by lia.
      apply Hok. lia.
Qed.

(** What holds of the early stop: once at least one page has arrived,
    a request that fails ends the download without an error, and when
    the pages received carry one header the table returned holds their
    rows under that header, in the order of arrival. *)
Lemma descargar_parcial k pasos (p : nat -> DataFrame) :
  (forall i, (i < S k)%nat -> pagina_es requests_get (Z.of_nat i * limit) (p i)) ->
  (forall i, (i < S k)%nat -> columns (p i) = columns (p 0%nat)) ->
  pagina_fin requests_get (Z.of_nat (S k) * limit) ->
  (S k < pasos)%nat ->
  exists df,
    descargar_datos_completos requests_get pasos = Some (Ok df)
    /\ columns df = columns (p 0%nat)
    /\ index df = seq 0 (len df)
    /\ List.map snd (filas df)
       = flat_map (fun i => List.map snd (filas (p i))) (seq 0 (S k)).
Proof.
  intros Hok Hcols Hfin Hlt. unfold descargar_datos_completos.
  replace pasos with (S k + S (pasos - S k - 1))%nat by lia.
  rewrite (bucle_paginas (S k) _ 0 [] p).
  2:{ intros i Hi. rewrite Z.add_0_l. by apply Hok. }
  rewrite Z.add_0_l, bucle_fin by done.
  cbn [app seq List.map mbind option_bind rbind].
  destruct (concat_header (p 0%nat) (List.map p (seq 1 k))) as (df & Hdf & Hc & Hrows).
  { apply List.Forall_map, List.Forall_forall. intros i Hi.
    apply in_seq in Hi. apply Hcols. lia. }
  exists df. split; [by rewrite Hdf|]. split; [done|].
  split; [by apply (concat_index _ _ Hdf)|].
  rewrite Hrows. cbn [flat_map]. f_equal.
  generalize (seq 1 k). intros l. induction l as [|i l IH]; [done|].
  cbn [List.map flat_map]. by rewrite IH.
Qed.

(** C6, where the code departs from it: when the very first request
    fails, no page has been stored and [pd.concat] refuses the empty
    list: the download ends with [ValueError] instead of returning an
    empty table. *)
Theorem descargar_falla_en_primera pasos :
  pagina_fin requests_get 0 ->
  descargar_datos_completos requests_get (S pasos) = Some (Raise ValueError).
Proof.
  intros Hfin. unfold descargar_datos_completos.
  rewrite bucle_fin by done. simpl. by rewrite concat_nil.
Qed.

End DescargaProps.

Lemma descargar_falla_en_primera_witness :
  descargar_datos_completos (P := Es.pandas) servidor_caido 1
  = Some (Raise ValueError).
Proof.
  apply (descargar_falla_en_primera (P := Es.pandas) servidor_caido 0).
  eexists. split; [reflexivity|]. left. simpl. discriminate.
Defined.

(** The scenario of the specification: the third of five pages answers
    500, the table returned holds the rows of pages 1 and 2. *)
Example descargar_tercera_falla :
  descargar_datos_completos (P := Es.pandas) servidor_tercera_falla 5
  = Some (Ok (pagina 0 ["PERU"; "CHILE"; "CUBA"; "PERU"]%string)).
Proof. vm_compute. reflexivity. Qed.

(** A reply with status 200 and an empty body, and a request without
    an answer, end the download with the exception they raise, whatever
    has been stored. *)
Example descargar_cuerpo_vacio :
  descargar_datos_completos (P := Es.pandas) servidor_cuerpo_vacio 5
  = Some (Raise EmptyDataError)
  /\ descargar_datos_completos (P := Es.pandas) servidor_sin_conexion 5
     = Some (Raise RequestException).
Proof. split; vm_compute; reflexivity. Qed.

(** ** Charts *)

Lemma solo_cambia_refl claves df : solo_cambia claves df df.
Proof. by repeat split. Qed.

Lemma solo_cambia_trans claves df1 df2 df3 :
  solo_cambia claves df1 df2 -> solo_cambia claves df2 df3 ->
  solo_cambia claves df1 df3.
Proof.
  intros (Hi1 & Hc1 & Ho1) (Hi2 & Hc2 & Ho2). split; [congruence|].
  split; [by intros j c ?; apply Hc2, Hc1|].
  intros j c Hj Hno. destruct (Ho2 j c Hj Hno) as [Hj2 ->].
  by apply Ho1.
Qed.

Lemma setitem_solo_cambia claves key dt vals df df' :
  bien_formado df -> key ∈ claves ->
  setitem key dt vals df = Ok df' ->
  solo_cambia claves df df' /\ bien_formado df'.
Proof.
  intros Hwf Hkey Hs.
  destruct (setitem_facts _ _ _ _ _ Hwf Hs) as (Hwf' & _ & Hother & Hold & _).
  split; [|done]. split; [by apply setitem_index in Hs|]. split; [done|].
  intros j c Hj Hno. apply Hother; [done|]. by intros ->.
Qed.

Lemma getitem_length key df : length (getitem key df) = len df.
Proof. unfold getitem, len. by rewrite length_map. Qed.

Lemma serie_length key df s : serie key df = Ok s -> length s = len df.
Proof.
  unfold serie, len. destruct (get_loc key (columns df)) as [|j [|? ?]]; try done.
  intros [= <-]. unfold iloc_col. by rewrite length_map.
Qed.

Section GraficosProps.

Context {P : Pandas}.
Variable to_datetime : list cell -> list (option Timestamp).
Variable sample : Z -> Z -> list fila -> list fila.

Lemma grafico_anual_frame df :
  bien_formado df ->
  solo_cambia [fecha_publicacion; anio] df (fst (grafico_anual to_datetime df))
  /\ (in_columns fecha_publicacion df = false ->
      fst (grafico_anual to_datetime df) = df).
Proof.
  intros Hwf. unfold grafico_anual.
  destruct (in_columns fecha_publicacion df); [|split; [apply solo_cambia_refl|done]].
  split; [|done].
  destruct (serie fecha_publicacion df) as [crudas|]; simpl;
    [|apply solo_cambia_refl].
  destruct (setitem fecha_publicacion _ _ df) as [df1|] eqn:Hs1;
    [|apply solo_cambia_refl].
  destruct (setitem_solo_cambia [fecha_publicacion; anio] _ _ _ _ _ Hwf
              ltac:(left) Hs1) as [H1 Hwf1].
  destruct (serie fecha_publicacion df1) as [fechas|]; [|done].
  destruct (existsb notnull fechas); [|done].
  destruct (setitem anio _ _ df1) as [df2|] eqn:Hs2; [|done]. simpl.
  destruct (setitem_solo_cambia [fecha_publicacion; anio] _ _ _ _ _ Hwf1
              ltac:(right; left) Hs2) as [H2 _].
  by apply (solo_cambia_trans _ df df1 df2).
Qed.

Lemma elegir_trabajo (σ : store) df tabla rapido :
  σ !! df = Some tabla ->
  let '(σ1, df1) := elegir sample σ df rapido in
  σ1 !! df1 = Some (tabla_de_trabajo sample tabla rapido)
  /\ (df1 <> df -> σ1 !! df = Some tabla)
  /\ (df1 = df <-> rapido && (50000 <? Z.of_nat (len tabla)) = false).
Proof.
  intros Hdf. unfold elegir, tabla_de_trabajo. rewrite Hdf. simpl.
  destruct (rapido && (50000 <? Z.of_nat (len tabla))).
  - assert (fresh (dom σ) <> df) as Hfresh.
    { intros Heq. apply (is_fresh (dom σ)). rewrite Heq.
      apply elem_of_dom. by eexists. }
    split; [by rewrite lookup_insert_eq|].
    split; [by intros _; rewrite lookup_insert_ne|]. by split.
  - by repeat split.
Qed.

(** Before the third chart nothing is written: the caller's table is
    in the store as it was handed over. *)
Lemma elegir_tabla (σ : store) df tabla rapido :
  σ !! df = Some tabla ->
  fst (elegir sample σ df rapido) !! df = Some tabla.
Proof.
  intros Hdf. pose proof (elegir_trabajo σ df tabla rapido Hdf) as Hel.
  destruct (elegir sample σ df rapido) as [σ1 df1].
  destruct Hel as (Htr & Hotro & Hmismo). simpl.
  destruct (decide (df1 = df)) as [->|Hne]; [|by apply Hotro].
  rewrite Htr. f_equal. unfold tabla_de_trabajo.
  by rewrite (proj1 Hmismo eq_refl).
Qed.

(** C7: with fast mode on and more than 50 000 rows, the three charts
    are the charts of one and the same frame, the sample of 30 000 rows
    drawn once with seed 42, and each of them reads a column of 30 000
    values; otherwise they are the charts of the caller's table.  What
    the call leaves is what the three chart routines give for that
    frame, one after the other, up to the first that raises. *)
Theorem generar_visualizaciones_muestra (σ : store) df tabla rapido :
  σ !! df = Some tabla ->
  (30000 <= Z.of_nat (len tabla) ->
   Z.of_nat (length (sample 30000 42 (filas tabla))) = 30000) ->
  let trabajo := tabla_de_trabajo sample tabla rapido in
  let e := generar_visualizaciones to_datetime sample σ df rapido in
  (rapido = true -> 50000 < Z.of_nat (len tabla) ->
   filas trabajo = sample 30000 42 (filas tabla)
   /\ Z.of_nat (len trabajo) = 30000
   /\ Z.of_nat (length (getitem pais trabajo)) = 30000
   /\ Z.of_nat (length (getitem genero trabajo)) = 30000
   /\ forall s, serie fecha_publicacion trabajo = Ok s ->
                Z.of_nat (length s) = 30000)
  /\ (rapido = false \/ Z.of_nat (len tabla) <= 50000 -> trabajo = tabla)
  /\ match grafico_paises trabajo, grafico_genero trabajo,
           snd (grafico_anual to_datetime trabajo) with
     | Ok s1, Ok s2, Ok s3 => salidas e = [s1; s2; s3] /\ error e = None
     | Ok s1, Ok s2, Raise x => salidas e = [s1; s2] /\ error e = Some x
     | Ok s1, Raise x, _ => salidas e = [s1] /\ error e = Some x
     | Raise x, _, _ => salidas e = [] /\ error e = Some x
     end.
Proof.
  intros Hdf Hsample trabajo e.
  split; [|split].
  - intros -> Hmas.
    assert (filas trabajo = sample 30000 42 (filas tabla)) as Hfilas.
    { unfold trabajo, tabla_de_trabajo.
      apply Z.ltb_lt in Hmas. by rewrite Hmas. }
    assert (Z.of_nat (len trabajo) = 30000) as Hlen.
    { unfold len. rewrite Hfilas. apply Hsample. lia. }
    split; [done|]. split; [done|].
    rewrite !getitem_length. do 2 (split; [done|]).
    intros s Hs. by rewrite (serie_length _ _ _ Hs).
  - intros Hno. unfold trabajo, tabla_de_trabajo.
    destruct Hno as [->|Hle]; [done|].
    apply Z.ltb_ge in Hle. rewrite Hle. by rewrite andb_false_r.
  - unfold e, generar_visualizaciones.
    pose proof (elegir_trabajo σ df tabla rapido Hdf) as Hel.
    destruct (elegir sample σ df rapido) as [σ1 df1].
    destruct Hel as (-> & _). simpl. fold trabajo.
    destruct (grafico_paises trabajo) as [s1|x1]; [|done].
    destruct (grafico_genero trabajo) as [s2|x2]; [|done].
    destruct (grafico_anual to_datetime trabajo) as [trabajo' [s3|x]]; done.
Qed.

(** C8 (as the code has it): the caller's table keeps its rows, its
    labels and all its columns, and every column other than
    [fecha_publicacion] and [anio] keeps its values; the table is
    left exactly as it was when the charts work on a sample, and when
    it has no [fecha_publicacion] column. *)
Theorem generar_visualizaciones_tabla (σ : store) df tabla rapido :
  σ !! df = Some tabla ->
  bien_formado tabla ->
  exists tabla',
    mem (generar_visualizaciones to_datetime sample σ df rapido) !! df = Some tabla'
    /\ solo_cambia [fecha_publicacion; anio] tabla tabla'
    /\ (rapido && (50000 <? Z.of_nat (len tabla)) = true -> tabla' = tabla)
    /\ (in_columns fecha_publicacion tabla = false -> tabla' = tabla).
Proof.
  intros Hdf Hwf. unfold generar_visualizaciones.
  pose proof (elegir_trabajo σ df tabla rapido Hdf) as Hel.
  pose proof (elegir_tabla σ df tabla rapido Hdf) as Hantes.
  destruct (elegir sample σ df rapido) as [σ1 df1].
  destruct Hel as (Htr & Hotro & Hmismo). rewrite Htr. simpl in Hantes |- *.
  assert (exists tabla',
             σ1 !! df = Some tabla'
             /\ solo_cambia [fecha_publicacion; anio] tabla tabla'
             /\ (rapido && (50000 <? Z.of_nat (len tabla)) = true -> tabla' = tabla)
             /\ (in_columns fecha_publicacion tabla = false -> tabla' = tabla))
    as Hsin.
  { exists tabla. split; [done|]. split; [apply solo_cambia_refl|done]. }
  destruct (grafico_paises _) as [s1|x1]; [|done].
  destruct (grafico_genero _) as [s2|x2]; [|done].
  destruct (grafico_anual to_datetime (tabla_de_trabajo sample tabla rapido))
    as [trabajo' r3] eqn:Hg.
  assert (exists tabla',
             (<[df1 := trabajo']> σ1 : store) !! df = Some tabla'
             /\ solo_cambia [fecha_publicacion; anio] tabla tabla'
             /\ (rapido && (50000 <? Z.of_nat (len tabla)) = true -> tabla' = tabla)
             /\ (in_columns fecha_publicacion tabla = false -> tabla' = tabla))
    as Hmem.
  { destruct (decide (df1 = df)) as [->|Hne].
    - exists trabajo'. rewrite lookup_insert_eq. split; [done|].
      assert (rapido && (50000 <? Z.of_nat (len tabla)) = false) as Hno
          by by apply Hmismo.
      unfold tabla_de_trabajo in Hg. rewrite Hno in Hg.
      destruct (grafico_anual_frame tabla Hwf) as [Hsolo Hsin'].
      rewrite Hg in Hsolo, Hsin'. simpl in Hsolo, Hsin'.
      split; [done|]. split; [by rewrite Hno|done].
    - exists tabla. rewrite lookup_insert_ne by done.
      split; [by apply Hotro|]. split; [apply solo_cambia_refl|done]. }
  by destruct r3.
Qed.

End GraficosProps.

Lemma primeras_length n seed rows :
  0 <= n <= Z.of_nat (length rows) ->
  Z.of_nat (length (primeras n seed rows)) = n.
Proof. intros Hn. unfold primeras. rewrite length_take. lia. Qed.

Lemma len_df_grande : Z.of_nat (len df_grande) = 50001.
Proof.
  unfold len, df_grande. cbn [filas].
  rewrite length_imap, length_replicate. lia.
Qed.

Lemma generar_visualizaciones_muestra_witness :
  filas (tabla_de_trabajo primeras df_grande true)
  = primeras 30000 42 (filas df_grande)
  /\ Z.of_nat (len (tabla_de_trabajo primeras df_grande true)) = 30000.
Proof.
  destruct (generar_visualizaciones_muestra (P := Es.pandas) Es.to_datetime primeras
              {[0%nat := df_grande]} 0%nat df_grande true) as [Hmuestra _].
  - apply lookup_singleton_eq.
  - intros _. apply primeras_length.
    change (length (filas df_grande)) with (len df_grande).
    rewrite len_df_grande. lia.
  - destruct Hmuestra as (Hfilas & Hlen & _).
    + reflexivity.
    + rewrite len_df_grande. lia.
    + by split.
Defined.

(** With two columns called [pais] the first chart raises and the call
    ends there, nothing drawn. *)
Example generar_visualizaciones_dos_paises :
  let e := generar_visualizaciones (P := Es.pandas) Es.to_datetime primeras
             {[0%nat := df_dos_paises]} 0%nat true in
  salidas e = [] /\ error e = Some ValueError
  /\ mem e !! 0%nat = Some df_dos_paises.
Proof. repeat split; vm_compute; reflexivity. Qed.

Lemma generar_visualizaciones_tabla_witness :
  exists tabla',
    mem (generar_visualizaciones (P := Es.pandas) Es.to_datetime primeras
           {[0%nat := df_escenario_limpio]} 0%nat false) !! 0%nat = Some tabla'
    /\ solo_cambia [fecha_publicacion; anio] df_escenario_limpio tabla'
    /\ (false && (50000 <? Z.of_nat (len df_escenario_limpio)) = true ->
        tabla' = df_escenario_limpio)
    /\ (in_columns fecha_publicacion df_escenario_limpio = false ->
        tabla' = df_escenario_limpio).
Proof.
  apply (generar_visualizaciones_tabla (P := Es.pandas) Es.to_datetime primeras
           {[0%nat := df_escenario_limpio]} 0%nat df_escenario_limpio false).
  - apply lookup_singleton_eq.
  - repeat constructor.
Defined.

(** C8 (as stated) fails: handed the clean table of the scenario, the
    third chart writes the column [anio] into that very table. *)
Lemma generar_visualizaciones_escribe :
  exists tabla',
    mem (generar_visualizaciones (P := Es.pandas) Es.to_datetime primeras
           {[0%nat := df_escenario_limpio]} 0%nat true) !! 0%nat = Some tabla'
    /\ columns tabla' = columns df_escenario_limpio ++ [anio]
    /\ iloc_col 3 (filas tabla') = [CNum 2021; CNull]
    /\ tabla' <> df_escenario_limpio.
Proof.
  eexists. split; [vm_compute; reflexivity|].
  split; [reflexivity|]. split; [reflexivity|]. discriminate.
Qed.

(** ** The whole run *)

(** With the third page failing, the run cleans the four records of the
    first two pages (one of them a duplicate) and draws the country
    chart from the three that remain. *)
Example ejecutar_pipeline_tercera_falla :
  exists e datos,
    ejecutar_pipeline (U := Es.unicode) (P := Es.pandas) servidor_tercera_falla
                      Es.to_datetime primeras 5 true
    = Some (Ok (mkDF [lit "pais"] [DObject]
                     [(0%nat, [CStr (lit "PERU")]);
                      (1%nat, [CStr (lit "CHILE")]);
                      (2%nat, [CStr (lit "CUBA")])], e))
    /\ error e = None
    /\ head (salidas e) = Some (Figura (lit "top_paises.png") datos)
    /\ datos ≡ₚ [([CStr (lit "PERU")], 1%nat);
                 ([CStr (lit "CHILE")], 1%nat);
                 ([CStr (lit "CUBA")], 1%nat)].
Proof.
  do 2 eexists. split; [vm_compute; reflexivity|].
  split; [reflexivity|]. split; reflexivity.
Qed.

(** With the endpoint down, the run ends in the [ValueError] of the
    download. *)
Example ejecutar_pipeline_caido :
  ejecutar_pipeline (U := Es.unicode) (P := Es.pandas) servidor_caido
                    Es.to_datetime primeras 1 true
  = Some (Raise ValueError).
Proof. vm_compute. reflexivity. Qed.

(** An endpoint whose headers "Pais " and "PAÍS" are both given the
    name [pais]: the table is cleaned and written, and the country chart
    raises. *)
Example ejecutar_pipeline_dos_paises :
  exists salida e,
    ejecutar_pipeline (U := Es.unicode) (P := Es.pandas) servidor_dos_paises
                      Es.to_datetime primeras 5 true
    = Some (Ok (salida, e))
    /\ columns salida = [pais; pais]
    /\ salidas e = [] /\ error e = Some ValueError.
Proof. do 2 eexists. split; [vm_compute; reflexivity|]. by repeat split. Qed.

(** * Further properties *)

(** ** The codec *)

Ltac zbool :=
  repeat match goal with
         | H : (_ && _) = true |- _ => apply andb_true_iff in H as [? ?]
         | H : (_ || _) = true |- _ => apply orb_true_iff in H as [?|?]
         | H : (_ <=? _) = true |- _ => apply Z.leb_le in H
         | H : (_ <=? _) = false |- _ => apply Z.leb_gt in H
         | H : (_ <? _) = true |- _ => apply Z.ltb_lt in H
         | H : (_ <? _) = false |- _ => apply Z.ltb_ge in H
         | H : (_ =? _) = true |- _ => apply Z.eqb_eq in H
         | H : (_ =? _) = false |- _ => apply Z.eqb_neq in H
         end.

Lemma between_true lo hi b : lo <= b <= hi -> Codec.between lo hi b = true.
Proof.
  intros [? ?]. unfold Codec.between.
  apply andb_true_iff. split; by apply Z.leb_le.
Qed.

Lemma between_false lo hi b : b < lo \/ hi < b -> Codec.between lo hi b = false.
Proof.
  intros Hb. unfold Codec.between. apply andb_false_iff.
  destruct Hb; [left; by apply Z.leb_gt|right; by apply Z.leb_gt].
Qed.

Lemma cont_true b : 128 <= b <= 191 -> Codec.cont b = true.
Proof. apply (between_true 128 191). Qed.

Lemma decode_utf8_1 b r :
  0 <= b <= 127 ->
  Codec.decode_utf8 (b :: r) = (s <~ Codec.decode_utf8 r ;; Ok (b :: s)).
Proof. intros Hb. cbn [Codec.decode_utf8]. by rewrite between_true. Qed.

Lemma decode_utf8_2 b0 b1 r :
  194 <= b0 <= 223 -> 128 <= b1 <= 191 ->
  Codec.decode_utf8 (b0 :: b1 :: r)
  = (s <~ Codec.decode_utf8 r ;; Ok (((b0 - 192) * 64 + (b1 - 128)) :: s)).
Proof.
  intros H0 H1. cbn [Codec.decode_utf8].
  rewrite between_false by lia. rewrite between_true by lia.
  by rewrite cont_true.
Qed.

Lemma decode_utf8_3 b0 b1 b2 r :
  224 <= b0 <= 239 ->
  (if b0 =? 224 then 160 else 128) <= b1 <= (if b0 =? 237 then 159 else 191) ->
  128 <= b2 <= 191 ->
  Codec.decode_utf8 (b0 :: b1 :: b2 :: r)
  = (s <~ Codec.decode_utf8 r ;;
     Ok (((b0 - 224) * 4096 + (b1 - 128) * 64 + (b2 - 128)) :: s)).
Proof.
  intros H0 H1 H2. cbn [Codec.decode_utf8].
  rewrite between_false by lia. rewrite between_false by lia.
  rewrite (between_true 224 239) by lia.
  rewrite between_true by done. by rewrite cont_true.
Qed.

Lemma decode_utf8_4 b0 b1 b2 b3 r :
  240 <= b0 <= 244 ->
  (if b0 =? 240 then 144 else 128) <= b1 <= (if b0 =? 244 then 143 else 191) ->
  128 <= b2 <= 191 -> 128 <= b3 <= 191 ->
  Codec.decode_utf8 (b0 :: b1 :: b2 :: b3 :: r)
  = (s <~ Codec.decode_utf8 r ;;
     Ok (((b0 - 240) * 262144 + (b1 - 128) * 4096
          + (b2 - 128) * 64 + (b3 - 128)) :: s)).
Proof.
  intros H0 H1 H2 H3. cbn [Codec.decode_utf8].
  do 3 (rewrite between_false by lia).
  rewrite (between_true 240 244) by lia.
  rewrite between_true by done. by rewrite !cont_true.
Qed.

Lemma decode_utf8_de c r :
  escalar c = true ->
  Codec.decode_utf8 (utf8_de c ++ r)
  = (s <~ Codec.decode_utf8 r ;; Ok (c :: s)).
Proof.
  intros Hc. unfold escalar in Hc. unfold utf8_de.
  destruct (c <? 128) eqn:H1; [|destruct (c <? 2048) eqn:H2;
    [|destruct (c <? 65536) eqn:H3]]; zbool; cbn [app].
  all: try (rewrite decode_utf8_1 by lia; reflexivity).
  all: try lia.
  - rewrite decode_utf8_2 by (Z.div_mod_to_equations; lia).
    replace ((192 + c / 64 - 192) * 64 + (128 + c mod 64 - 128)) with c
      by (Z.div_mod_to_equations; lia).
    done.
  - rewrite decode_utf8_3.
    + replace ((224 + c / 4096 - 224) * 4096 + (128 + (c / 64) mod 64 - 128) * 64
               + (128 + c mod 64 - 128)) with c
        by (Z.div_mod_to_equations; lia).
      done.
    + Z.div_mod_to_equations; lia.
    + destruct (_ =? 224) eqn:Ha, (_ =? 237) eqn:Hb; zbool;
        Z.div_mod_to_equations; lia.
    + Z.div_mod_to_equations; lia.
  - rewrite decode_utf8_3.
    + replace ((224 + c / 4096 - 224) * 4096 + (128 + (c / 64) mod 64 - 128) * 64
               + (128 + c mod 64 - 128)) with c
        by (Z.div_mod_to_equations; lia).
      done.
    + Z.div_mod_to_equations; lia.
    + destruct (_ =? 224) eqn:Ha, (_ =? 237) eqn:Hb; zbool;
        Z.div_mod_to_equations; lia.
    + Z.div_mod_to_equations; lia.
  - rewrite decode_utf8_4.
    + replace ((240 + c / 262144 - 240) * 262144
               + (128 + (c / 4096) mod 64 - 128) * 4096
               + (128 + (c / 64) mod 64 - 128) * 64 + (128 + c mod 64 - 128))
        with c by (Z.div_mod_to_equations; lia).
      done.
    + Z.div_mod_to_equations; lia.
    + destruct (_ =? 240) eqn:Ha, (_ =? 244) eqn:Hb; zbool;
        Z.div_mod_to_equations; lia.
    + Z.div_mod_to_equations; lia.
    + Z.div_mod_to_equations; lia.
Qed.

Lemma utf8_de_bytes c :
  escalar c = true -> Forall (fun b => 0 <= b <= 255) (utf8_de c).
Proof.
  intros Hc. unfold escalar in Hc. unfold utf8_de.
  destruct (c <? 128) eqn:H1; [|destruct (c <? 2048) eqn:H2;
    [|destruct (c <? 65536) eqn:H3]]; zbool;
    repeat constructor; Z.div_mod_to_equations; lia.
Qed.

Lemma encode_latin1_Ok bs :
  Forall (fun b => 0 <= b <= 255) bs -> Codec.encode_latin1 bs = Ok bs.
Proof.
  intros Hbs. unfold Codec.encode_latin1.
  rewrite <- (List.map_id bs) at 2. apply apply_series_Ok.
  eapply Forall_impl; [exact Hbs|]. intros b [H0 H1]. simpl.
  apply Z.leb_le in H0, H1. by rewrite H0, H1.
Qed.

Lemma encode_latin1_inv s bs :
  Codec.encode_latin1 s = Ok bs -> bs = s /\ Forall (fun b => 0 <= b <= 255) s.
Proof.
  unfold Codec.encode_latin1. revert bs.
  induction s as [|c s IH]; intros bs Hs; simpl in Hs.
  - inversion Hs. by split.
  - destruct ((0 <=? c) && (c <=? 255)) eqn:Hc; [|done]. simpl in Hs.
    destruct (apply_series _ s) as [bs'|] eqn:Hs'; [|done].
    inversion Hs; subst. destruct (IH bs' eq_refl) as [-> Hall].
    split; [done|]. constructor; [|done]. zbool. lia.
Qed.

Lemma encode_utf8_bytes s :
  forallb escalar s = true -> Forall (fun b => 0 <= b <= 255) (encode_utf8 s).
Proof.
  induction s as [|c s IH]; intros Hs; simpl; [constructor|].
  simpl in Hs. apply andb_true_iff in Hs as [Hc Hs].
  apply Forall_app. split; [by apply utf8_de_bytes|by apply IH].
Qed.

Lemma decode_encode_utf8 s :
  forallb escalar s = true -> Codec.decode_utf8 (encode_utf8 s) = Ok s.
Proof.
  induction s as [|c s IH]; intros Hs; [done|].
  simpl in Hs. apply andb_true_iff in Hs as [Hc Hs].
  cbn [encode_utf8 flat_map]. rewrite decode_utf8_de by done.
  fold (encode_utf8 s). by rewrite IH.
Qed.

(** X1: the repair undoes the mis-decoding it is written for: text whose
    UTF-8 bytes were read as latin-1 is given back as it was meant. *)
Theorem reparar_valor_mal_decodificado s :
  forallb escalar s = true ->
  reparar_valor (CStr (mal_decodificado s)) = Ok (CStr s).
Proof.
  intros Hs. unfold reparar_valor, Codec.recode, mal_decodificado, decode_latin1.
  rewrite encode_latin1_Ok by by apply encode_utf8_bytes.
  simpl. by rewrite decode_encode_utf8.
Qed.

(** "País" read as "PaÃ­s" comes back as "País". *)
Lemma reparar_valor_mal_decodificado_witness :
  reparar_valor (CStr (mal_decodificado [80; 97; 237; 115]))
  = Ok (CStr [80; 97; 237; 115]).
Proof.
  apply (reparar_valor_mal_decodificado [80; 97; 237; 115]). reflexivity.
Defined.

Lemma decode_utf8_inv bs s :
  Codec.decode_utf8 bs = Ok s ->
  (bs = [] /\ s = [])
  \/ exists c r s',
      s = c :: s' /\ bs = utf8_de c ++ r /\ escalar c = true
      /\ Codec.decode_utf8 r = Ok s'.
Proof.
  destruct bs as [|b0 r0]; intros Hd; [left; by inversion Hd|right].
  cbn [Codec.decode_utf8] in Hd. unfold Codec.between, Codec.cont in Hd.
  destruct ((0 <=? b0) && (b0 <=? 127)) eqn:H1.
  { destruct (Codec.decode_utf8 r0) as [s'|] eqn:Hr; [|done].
    inversion Hd; subst. exists b0, r0, s'. zbool.
    unfold utf8_de, escalar.
    rewrite (proj2 (Z.ltb_lt b0 128)) by lia.
    repeat split; try done.
    apply orb_true_iff. left. apply andb_true_iff.
    split; [apply Z.leb_le|apply Z.leb_le]; lia. }
  destruct ((194 <=? b0) && (b0 <=? 223)) eqn:H2.
  { destruct r0 as [|b1 r1]; [done|].
    destruct ((128 <=? b1) && (b1 <=? 191)) eqn:Hb1; [|done].
    destruct (Codec.decode_utf8 r1) as [s'|] eqn:Hr; [|done].
    inversion Hd; subst. zbool.
    exists ((b0 - 192) * 64 + (b1 - 128)), r1, s'.
    unfold utf8_de, escalar.
    rewrite (proj2 (Z.ltb_ge _ 128)) by lia.
    rewrite (proj2 (Z.ltb_lt _ 2048)) by lia.
    repeat split; try done.
    - cbn [app]. f_equal; [|f_equal]; Z.div_mod_to_equations; lia.
    - apply orb_true_iff. left. apply andb_true_iff.
      split; apply Z.leb_le; lia. }
  destruct ((224 <=? b0) && (b0 <=? 239)) eqn:H3.
  { destruct r0 as [|b1 [|b2 r2]]; try done.
    destruct (_ && _) eqn:Hb in Hd; [|done].
    destruct (Codec.decode_utf8 r2) as [s'|] eqn:Hr; [|done].
    inversion Hd; subst. clear Hd.
    apply andb_true_iff in Hb as [Hb1 Hb2].
    apply andb_true_iff in Hb1 as [Hlo Hhi].
    apply Z.leb_le in Hlo, Hhi. zbool.
    exists ((b0 - 224) * 4096 + (b1 - 128) * 64 + (b2 - 128)), r2, s'.
    assert (2048 <= (b0 - 224) * 4096 + (b1 - 128) * 64 + (b2 - 128) < 65536
            /\ ((b0 - 224) * 4096 + (b1 - 128) * 64 + (b2 - 128) <= 55295
                \/ 57344 <= (b0 - 224) * 4096 + (b1 - 128) * 64 + (b2 - 128)))
      as [Hrange Hsur].
    { destruct (b0 =? 224) eqn:Ha, (b0 =? 237) eqn:Hc; zbool; lia. }
    assert (128 <= b1 <= 191) as Hb1
        by (destruct (b0 =? 224), (b0 =? 237); lia).
    unfold utf8_de, escalar.
    rewrite (proj2 (Z.ltb_ge _ 128)) by lia.
    rewrite (proj2 (Z.ltb_ge _ 2048)) by lia.
    rewrite (proj2 (Z.ltb_lt _ 65536)) by lia.
    repeat split; try done.
    - cbn [app]. f_equal; [|f_equal; [|f_equal]]; Z.div_mod_to_equations; lia.
    - apply orb_true_iff. destruct Hsur; [left|right]; apply andb_true_iff;
        split; apply Z.leb_le; lia. }
  destruct ((240 <=? b0) && (b0 <=? 244)) eqn:H4; [|done].
  destruct r0 as [|b1 [|b2 [|b3 r3]]]; try done.
  destruct (_ && _) eqn:Hb in Hd; [|done].
  destruct (Codec.decode_utf8 r3) as [s'|] eqn:Hr; [|done].
  inversion Hd; subst. clear Hd.
  apply andb_true_iff in Hb as [Hb12 Hb3].
  apply andb_true_iff in Hb12 as [Hb1 Hb2].
  apply andb_true_iff in Hb1 as [Hlo Hhi].
  apply Z.leb_le in Hlo, Hhi. zbool.
  exists ((b0 - 240) * 262144 + (b1 - 128) * 4096 + (b2 - 128) * 64 + (b3 - 128)),
    r3, s'.
  assert (65536 <= (b0 - 240) * 262144 + (b1 - 128) * 4096 + (b2 - 128) * 64
                   + (b3 - 128) <= 1114111) as Hrange.
  { destruct (b0 =? 240) eqn:Ha, (b0 =? 244) eqn:Hc; zbool; lia. }
  assert (128 <= b1 <= 191) as Hb1'
      by (destruct (b0 =? 240), (b0 =? 244); lia).
  unfold utf8_de, escalar.
  rewrite (proj2 (Z.ltb_ge _ 128)) by lia.
  rewrite (proj2 (Z.ltb_ge _ 2048)) by lia.
  rewrite (proj2 (Z.ltb_ge _ 65536)) by lia.
  repeat split; try done.
  - cbn [app]. f_equal; [|f_equal; [|f_equal; [|f_equal]]];
      Z.div_mod_to_equations; lia.
  - apply orb_true_iff. right. apply andb_true_iff.
    split; apply Z.leb_le; lia.
Qed.

Lemma encode_decode_utf8 s bs :
  Codec.decode_utf8 bs = Ok s ->
  encode_utf8 s = bs /\ forallb escalar s = true.
Proof.
  revert bs. induction s as [|c s IH]; intros bs Hd;
    destruct (decode_utf8_inv bs _ Hd) as [[-> _]|(c' & r & s' & Hs & -> & Hc & Hr)];
    try done.
  inversion Hs; subst c' s'. destruct (IH r Hr) as [Henc Hall].
  split; [cbn [encode_utf8 flat_map]; fold (encode_utf8 s); by rewrite Henc|].
  simpl. by rewrite Hc, Hall.
Qed.

Lemma recode_inv s t :
  Codec.recode s = Ok t ->
  encode_utf8 t = s /\ forallb escalar t = true
  /\ Forall (fun b => 0 <= b <= 255) s.
Proof.
  unfold Codec.recode. intros Hr.
  destruct (Codec.encode_latin1 s) as [bs|] eqn:He; [|done]. simpl in Hr.
  destruct (encode_latin1_inv _ _ He) as [-> Hbytes].
  destruct (encode_decode_utf8 _ _ Hr) as [Henc Hesc]. done.
Qed.

(** X2: the repair only ever succeeds on text that is what some string
    of Unicode scalar values looks like after its UTF-8 bytes were read
    as latin-1, and it returns that string: mis-decoding the repaired
    value again gives back the value the cell held, so a repair loses
    nothing and never produces a surrogate or a code point beyond
    U+10FFFF. *)
Theorem reparar_valor_sin_perdida s y :
  reparar_valor (CStr s) = Ok y ->
  exists t, y = CStr t /\ mal_decodificado t = s /\ forallb escalar t = true.
Proof.
  unfold reparar_valor. intros Hr.
  destruct (Codec.recode s) as [t|] eqn:Ht; [|done]. simpl in Hr.
  inversion Hr; subst y. exists t.
  destruct (recode_inv _ _ Ht) as (Henc & Hesc & _). done.
Qed.

Lemma reparar_valor_sin_perdida_witness :
  exists t, CStr [233] = CStr t /\ mal_decodificado t = [195; 169]
            /\ forallb escalar t = true.
Proof.
  apply (reparar_valor_sin_perdida [195; 169] (CStr [233])). reflexivity.
Defined.

Lemma utf8_de_length c : (1 <= length (utf8_de c))%nat.
Proof.
  unfold utf8_de.
  destruct (c <? 128), (c <? 2048), (c <? 65536); simpl; lia.
Qed.

Lemma encode_utf8_length s : (length s <= length (encode_utf8 s))%nat.
Proof.
  induction s as [|c s IH]; [done|].
  cbn [encode_utf8 flat_map]. fold (encode_utf8 s).
  rewrite length_app. pose proof (utf8_de_length c). simpl. lia.
Qed.

Lemma encode_utf8_same_length s :
  length (encode_utf8 s) = length s -> Forall (fun c => c < 128) s.
Proof.
  induction s as [|c s IH]; intros Hl; [constructor|].
  cbn [encode_utf8 flat_map] in Hl. fold (encode_utf8 s) in Hl.
  rewrite length_app in Hl. simpl in Hl.
  pose proof (utf8_de_length c). pose proof (encode_utf8_length s).
  constructor; [|apply IH; lia].
  assert (length (utf8_de c) = 1%nat) as H1 by lia.
  unfold utf8_de in H1.
  destruct (c <? 128) eqn:Hc; [by apply Z.ltb_lt|].
  destruct (c <? 2048), (c <? 65536); simpl in H1; lia.
Qed.

Lemma encode_utf8_ascii s :
  forallb es_ascii s = true -> encode_utf8 s = s /\ forallb escalar s = true.
Proof.
  induction s as [|c s IH]; intros Hs; [done|].
  simpl in Hs. apply andb_true_iff in Hs as [Hc Hs].
  destruct (IH Hs) as [Henc Hesc].
  cbn [encode_utf8 flat_map]. fold (encode_utf8 s). rewrite Henc.
  unfold es_ascii in Hc. zbool. split.
  - unfold utf8_de. by rewrite (proj2 (Z.ltb_lt c 128)).
  - simpl. rewrite Hesc, andb_true_r. unfold escalar.
    apply orb_true_iff. left. apply andb_true_iff.
    split; apply Z.leb_le; lia.
Qed.

(** X3: the repair returns a string exactly as it was when, and only
    when, the string is pure ASCII: ASCII text (the sentinels "N/A" and
    "n/a" among it) always passes unchanged, and any other string is
    either changed or refused. *)
Theorem reparar_valor_ascii s :
  reparar_valor (CStr s) = Ok (CStr s) <-> forallb es_ascii s = true.
Proof.
  split.
  - unfold reparar_valor. intros Hr.
    destruct (Codec.recode s) as [t|] eqn:Ht; [|done]. simpl in Hr.
    inversion Hr; subst t.
    destruct (recode_inv _ _ Ht) as (Henc & _ & Hbytes).
    apply (f_equal (@length Z)) in Henc.
    apply encode_utf8_same_length in Henc.
    apply forallb_forall. intros c Hc. unfold es_ascii.
    rewrite List.Forall_forall in Henc, Hbytes.
    specialize (Henc c Hc). specialize (Hbytes c Hc).
    apply andb_true_iff. split; [apply Z.leb_le|apply Z.ltb_lt]; lia.
  - intros Hs. destruct (encode_utf8_ascii s Hs) as [Henc Hesc].
    unfold reparar_valor, Codec.recode.
    rewrite encode_latin1_Ok.
    + simpl. rewrite <- Henc at 1. by rewrite decode_encode_utf8.
    + rewrite <- Henc. by apply encode_utf8_bytes.
Qed.

(** ** What the repair pass leaves alone *)

Lemma select_dtypes_object_elem cols dts n :
  n ∈ select_dtypes_object cols dts ->
  exists k, cols !! k = Some n /\ dts !! k = Some DObject.
Proof.
  revert dts. induction cols as [|c cols IH]; intros [|d dts] Hn; simpl in Hn;
    try by apply elem_of_nil in Hn.
  destruct (decide (d = DObject)) as [->|Hd].
  - apply elem_of_cons in Hn as [->|Hn]; [by exists 0%nat|].
    destruct (IH dts Hn) as (k & Hk1 & Hk2). by exists (S k).
  - destruct (IH dts Hn) as (k & Hk1 & Hk2). by exists (S k).
Qed.

(** X4: the repair pass changes nothing but text columns: column names,
    the index and the number of rows stay as they were; a column whose
    name no column of object dtype carries keeps its dtype and its
    values, and a column whose name another column carries too keeps its
    values. *)
Theorem reparar_texto_solo_texto {P : Pandas} df :
  columns (reparar_texto df) = columns df
  /\ index (reparar_texto df) = index df
  /\ len (reparar_texto df) = len df
  /\ (forall j c,
        columns df !! j = Some c ->
        (forall k, columns df !! k = Some c -> dtypes df !! k <> Some DObject) ->
        dtypes (reparar_texto df) !! j = dtypes df !! j
        /\ iloc_col j (filas (reparar_texto df)) = iloc_col j (filas df))
  /\ (forall j c, columns df !! j = Some c -> get_loc c (columns df) <> [j] ->
        iloc_col j (filas (reparar_texto df)) = iloc_col j (filas df)).
Proof.
  destruct (fold_reparar_columns (select_dtypes_object (columns df) (dtypes df)) df)
    as (Hc & _ & Hi & _).
  repeat (split; [done|]). split.
  { unfold len. apply (f_equal (@length nat)) in Hi. unfold index in Hi.
    by rewrite !length_map in Hi. }
  split.
  - intros j c Hcj Hno.
    destruct (fold_reparar_untouched
                (select_dtypes_object (columns df) (dtypes df)) df j) as [Hv Hd];
      [|by split].
    intros n Hn Hloc.
    assert (columns df !! j = Some n) as Hcj'.
    { apply get_loc_elem. rewrite Hloc. left. }
    assert (n = c) as -> by congruence.
    destruct (select_dtypes_object_elem _ _ _ Hn) as (k & Hk1 & Hk2).
    by apply (Hno k).
  - intros j c Hcj Hdup. apply fold_reparar_untouched. intros n Hn Hloc.
    assert (columns df !! j = Some n) as Hcj'.
    { apply get_loc_elem. rewrite Hloc. left. }
    congruence.
Qed.

(** ** Row pruning *)

Lemma filter_drop_dups seen1 seen2 rows :
  (forall x, existsb notnull x = true -> x ∈ seen1 <-> x ∈ seen2) ->
  List.filter (fun r : fila => existsb notnull (snd r)) (drop_dups seen1 rows)
  = drop_dups seen2 (List.filter (fun r : fila => existsb notnull (snd r)) rows).
Proof.
  revert seen1 seen2. induction rows as [|r rows IH]; intros seen1 seen2 Hs; [done|].
  cbn [drop_dups List.filter].
  destruct (existsb notnull (snd r)) eqn:Hne.
  - cbn [drop_dups]. pose proof (Hs (snd r) Hne) as Hr.
    destruct (bool_decide (snd r ∈ seen1)) eqn:H1.
    + apply bool_decide_eq_true in H1.
      rewrite bool_decide_eq_true_2 by by apply Hr. by apply IH.
    + apply bool_decide_eq_false in H1.
      rewrite bool_decide_eq_false_2 by (by rewrite <- Hr).
      cbn [List.filter]. rewrite Hne. f_equal. apply IH.
      intros x Hx. rewrite !elem_of_cons, (Hs x Hx). done.
  - destruct (bool_decide (snd r ∈ seen1)); [by apply IH|].
    cbn [List.filter]. rewrite Hne. apply IH.
    intros x Hx. rewrite elem_of_cons. rewrite <- (Hs x Hx).
    split; [|by right]. intros [->|Hin]; [congruence|done].
Qed.

(** X5: the two pruning steps commute: removing the empty rows and then
    the duplicates gives the same table as removing the duplicates and
    then the empty rows. *)
Theorem dropna_drop_duplicates_conmutan df :
  dropna_all (drop_duplicates df) = drop_duplicates (dropna_all df).
Proof.
  unfold dropna_all, drop_duplicates. simpl. f_equal.
  by apply filter_drop_dups.
Qed.

Lemma drop_dups_fixed seen rows :
  NoDup (List.map snd rows) ->
  (forall r, r ∈ rows -> snd r ∉ seen) ->
  drop_dups seen rows = rows.
Proof.
  revert seen. induction rows as [|r rows IH]; intros seen Hnd Hseen; [done|].
  simpl in *. apply NoDup_cons in Hnd as [Hr Hnd].
  rewrite bool_decide_eq_false_2 by (apply Hseen; left).
  f_equal. apply IH; [done|]. intros r' Hr'.
  rewrite not_elem_of_cons. split; [|apply Hseen; by right].
  intros Heq. apply Hr. rewrite <- Heq.
  apply list_elem_of_In, in_map, list_elem_of_In, Hr'.
Qed.

Lemma filter_fixed {A} (f : A -> bool) l :
  Forall (fun x => f x = true) l -> List.filter f l = l.
Proof.
  induction 1 as [|x l Hx _ IH]; [done|]. simpl. by rewrite Hx, IH.
Qed.

(** X6: pruning is idempotent: a table from which the empty rows and the
    duplicates have been removed is left as it is by a second removal. *)
Theorem podar_idempotente df :
  let una_vez := drop_duplicates (dropna_all df) in
  drop_duplicates (dropna_all una_vez) = una_vez.
Proof.
  cbv zeta. unfold drop_duplicates, dropna_all. simpl. f_equal.
  rewrite filter_fixed.
  - apply drop_dups_fixed; [apply drop_dups_NoDup|].
    intros r _. apply not_elem_of_nil.
  - apply drop_dups_Forall, List.Forall_forall. intros r Hr.
    by apply filter_In in Hr as [_ Hr].
Qed.

(** ** Sentinels in the returned table *)

Lemma reemplazar_valor_no_centinela c : no_centinela (reemplazar_valor c) = true.
Proof.
  destruct c as [|s| |]; try done. simpl.
  destruct (bool_decide (s ∈ centinelas)) eqn:Hs; [done|]. simpl. by rewrite Hs.
Qed.

Lemma set_iloc_col_celdas (P : cell -> Prop) j vals rows :
  Forall (fun r : fila => Forall P (snd r)) rows -> Forall P vals ->
  Forall (fun r : fila => Forall P (snd r)) (set_iloc_col j vals rows).
Proof.
  intros Hrows. revert vals.
  induction Hrows as [|r rows Hr _ IH]; intros vals Hvals; [constructor|].
  destruct Hvals as [|v vals Hv Hvals]; [constructor|].
  simpl. constructor; [|by apply IH]. simpl. by apply Forall_insert.
Qed.

Lemma set_cols_celdas (P : cell -> Prop) js vals rows :
  Forall (fun r : fila => Forall P (snd r)) rows -> Forall P vals ->
  Forall (fun r : fila => Forall P (snd r)) (set_cols js vals rows).
Proof.
  intros Hrows Hvals. induction js as [|j js IH]; [done|].
  simpl. by apply set_iloc_col_celdas.
Qed.

Lemma append_col_celdas (P : cell -> Prop) vals rows :
  Forall (fun r : fila => Forall P (snd r)) rows -> Forall P vals ->
  Forall (fun r : fila => Forall P (snd r)) (append_col vals rows).
Proof.
  intros Hrows. revert vals.
  induction Hrows as [|r rows Hr _ IH]; intros vals Hvals; [constructor|].
  destruct Hvals as [|v vals Hv Hvals]; [constructor|].
  simpl. constructor; [|by apply IH]. simpl.
  apply Forall_app. split; [done|by constructor].
Qed.

Lemma setitem_celdas (P : cell -> Prop) key dt vals df df' :
  setitem key dt vals df = Ok df' ->
  Forall (fun r : fila => Forall P (snd r)) (filas df) -> Forall P vals ->
  Forall (fun r : fila => Forall P (snd r)) (filas df').
Proof.
  unfold setitem. case_bool_decide; [|done].
  destruct (get_loc key (columns df)) as [|j js]; intros [= <-] Hrows Hvals; simpl.
  - by apply append_col_celdas.
  - by apply (set_cols_celdas P (j :: js)).
Qed.

Lemma apply_series_Forall {A B} (f : A -> result B) (P : B -> Prop) l vals :
  apply_series f l = Ok vals ->
  (forall x y, f x = Ok y -> P y) ->
  Forall P vals.
Proof.
  revert vals. induction l as [|x l IH]; intros vals Hv Hf; simpl in Hv.
  - inversion Hv. constructor.
  - destruct (f x) as [y|] eqn:Hx; [|done]. simpl in Hv.
    destruct (apply_series f l) as [ys|] eqn:Hl; [|done].
    inversion Hv; subst. constructor; eauto.
Qed.

Lemma con_espacio_no_centinela (s : str) : 32 ∈ s -> s ∉ centinelas.
Proof.
  intros Hsp Hs. unfold centinelas in Hs. rewrite !elem_of_cons in Hs.
  destruct Hs as [->|[->|[->|Hs]]]; [| | |by apply elem_of_nil in Hs];
    apply list_elem_of_In in Hsp; cbv in Hsp; intuition discriminate.
Qed.

Lemma texto_de_fecha_no_centinela x t :
  texto_de_fecha x = Ok t -> no_centinela t = true.
Proof.
  unfold texto_de_fecha. destruct x as [|s0|n|ts]; cbn [notnull]; try done.
  - intros Ht. by replace t with CNull by congruence.
  - destruct (meses (month ts)) as [nombre|]; [|done]. intros Ht.
    replace t with (CStr (str_of_int (day ts) ++ lit " de " ++ nombre
                          ++ lit " de " ++ str_of_int (year ts)))
      by congruence.
    cbn [no_centinela].
    apply negb_true_iff, bool_decide_eq_false, con_espacio_no_centinela.
    apply elem_of_app. right. apply elem_of_app. left.
    apply (list_elem_of_here 32 [100; 101; 32]).
Qed.

Section Centinelas.

Context {U : Unicode} {P : Pandas}.
Variable to_datetime : list cell -> list (option Timestamp).

Lemma derivar_fechas_celdas (Q : cell -> Prop) df out :
  derivar_fechas to_datetime df = Ok out ->
  Q CNull -> (forall t, Q (CDate t)) ->
  (forall x t, texto_de_fecha x = Ok t -> Q t) ->
  Forall (fun r : fila => Forall Q (snd r)) (filas df) ->
  Forall (fun r : fila => Forall Q (snd r)) (filas out).
Proof.
  unfold derivar_fechas. destruct (in_columns _ _); [|by intros [= <-]].
  destruct (serie _ df) as [crudas|]; [|done]. simpl.
  destruct (setitem _ _ _ df) as [df1|] eqn:Hs1; [|done]. simpl.
  destruct (serie _ df1) as [fechas|]; [|done]. simpl.
  destruct (apply_series _ _) as [textos|] eqn:Hap; [|done]. simpl.
  intros Hs2 Hnull Hdate Htxt Hdf.
  apply (setitem_celdas Q _ _ _ _ _ Hs2).
  - apply (setitem_celdas Q _ _ _ _ _ Hs1); [done|].
    apply List.Forall_map, List.Forall_forall. intros [t|] _; simpl; auto.
  - by apply (apply_series_Forall texto_de_fecha Q _ _ Hap).
Qed.

(** X7: no sentinel survives: in the table [limpiar_datos] returns, no
    field of any column (the date and date-text columns included) holds
    "N/A", "n/a" or the empty string. *)
Theorem limpiar_datos_sin_centinelas df out :
  limpiar_datos to_datetime df = Ok out -> sin_centinelas out.
Proof.
  unfold limpiar_datos, sin_centinelas. intros Hd.
  apply (derivar_fechas_celdas (fun c => no_centinela c = true) _ _ Hd);
    try done.
  - apply texto_de_fecha_no_centinela.
  - unfold renombrar, replace_centinelas. simpl.
    apply List.Forall_map, List.Forall_forall. intros r _. simpl.
    apply List.Forall_map, List.Forall_forall. intros c _.
    apply reemplazar_valor_no_centinela.
Qed.

End Centinelas.

Lemma limpiar_datos_sin_centinelas_witness :
  sin_centinelas df_escenario_limpio.
Proof.
  apply (limpiar_datos_sin_centinelas (U := Es.unicode) (P := Es.pandas) Es.to_datetime df_escenario).
  vm_compute. reflexivity.
Defined.

(** ** Shape of the returned table *)

Lemma setitem_columns key dt vals df df' :
  setitem key dt vals df = Ok df' ->
  columns df' = if bool_decide (key ∈ columns df) then columns df
                else columns df ++ [key].
Proof.
  unfold setitem. case_bool_decide; [|done].
  destruct (get_loc key (columns df)) as [|j js] eqn:Hloc; intros [= <-]; simpl.
  - apply get_loc_from_nil in Hloc. by rewrite bool_decide_eq_false_2.
  - rewrite bool_decide_eq_true_2; [done|].
    apply (list_elem_of_lookup_2 _ j), get_loc_elem. rewrite Hloc. left.
Qed.

Lemma drop_dups_length seen rows :
  (length (drop_dups seen rows) <= length rows)%nat.
Proof.
  revert seen. induction rows as [|r rows IH]; intros seen; simpl; [done|].
  destruct (bool_decide _); simpl; [specialize (IH seen)|specialize (IH (snd r :: seen))];
    lia.
Qed.

Lemma podar_len {P : Pandas} df : (len (podar df) <= len df)%nat.
Proof.
  unfold len, podar, drop_duplicates, dropna_all. simpl.
  etransitivity; [apply drop_dups_length|].
  etransitivity; [apply List.filter_length_le|].
  destruct (reparar_texto_frame df) as (_ & _ & Hi & _).
  apply (f_equal (@length nat)) in Hi. unfold index in Hi.
  rewrite !length_map in Hi. lia.
Qed.

Section Forma.

Context {U : Unicode} {P : Pandas}.
Variable to_datetime : list cell -> list (option Timestamp).

Lemma derivar_fechas_columns df out :
  derivar_fechas to_datetime df = Ok out ->
  columns out
  = if bool_decide (fecha_publicacion ∈ columns df)
       && negb (bool_decide (fecha_texto ∈ columns df))
    then columns df ++ [fecha_texto] else columns df.
Proof.
  unfold derivar_fechas, in_columns.
  destruct (bool_decide (fecha_publicacion ∈ columns df)) eqn:Hfp;
    [|by intros [= <-]].
  destruct (serie _ df) as [crudas|]; [|done]. simpl.
  destruct (setitem _ _ _ df) as [df1|] eqn:Hs1; [|done]. simpl.
  destruct (serie _ df1) as [fechas|]; [|done]. simpl.
  destruct (apply_series _ _) as [textos|]; [|done]. simpl.
  intros Hs2. apply setitem_columns in Hs1, Hs2.
  rewrite Hfp in Hs1. rewrite Hs1 in Hs2. rewrite Hs2.
  by destruct (bool_decide (fecha_texto ∈ columns df)).
Qed.

Lemma derivar_fechas_bien_formado df out :
  bien_formado df ->
  derivar_fechas to_datetime df = Ok out -> bien_formado out.
Proof.
  intros Hwf. unfold derivar_fechas.
  destruct (in_columns _ _); [|by intros [= <-]].
  destruct (serie _ df) as [crudas|]; [|done]. simpl.
  destruct (setitem _ _ _ df) as [df1|] eqn:Hs1; [|done]. simpl.
  destruct (serie _ df1) as [fechas|]; [|done]. simpl.
  destruct (apply_series _ _) as [textos|]; [|done]. simpl.
  intros Hs2.
  destruct (setitem_facts _ _ _ _ _ Hwf Hs1) as (Hwf1 & _).
  by destruct (setitem_facts _ _ _ _ _ Hwf1 Hs2) as (Hwf2 & _).
Qed.

Lemma pre_fechas_columns df :
  columns (renombrar (replace_centinelas (podar df)))
  = List.map normalizar_columna (columns df).
Proof.
  unfold renombrar, replace_centinelas, podar, drop_duplicates, dropna_all.
  simpl. by destruct (reparar_texto_frame df) as (-> & _).
Qed.

(** X8: the returned table has one column per input column, under its
    normalised name and in the same order (names that collide are both
    kept), followed by a new last column [fecha_texto] exactly when a
    column is called [fecha_publicacion] and none is called
    [fecha_texto]; it has no more rows than the input, and it is
    rectangular whenever the input is. *)
Theorem limpiar_datos_forma df out :
  limpiar_datos to_datetime df = Ok out ->
  let nombres := List.map normalizar_columna (columns df) in
  columns out
  = (if bool_decide (fecha_publicacion ∈ nombres)
        && negb (bool_decide (fecha_texto ∈ nombres))
     then nombres ++ [fecha_texto] else nombres)
  /\ (len out <= len df)%nat
  /\ (bien_formado df -> bien_formado out).
Proof.
  intros Hd nombres. split; [|split].
  - unfold limpiar_datos in Hd. apply derivar_fechas_columns in Hd.
    by rewrite pre_fechas_columns in Hd.
  - pose proof (limpiar_datos_index _ _ _ Hd) as Hi.
    apply (f_equal (@length nat)) in Hi. unfold index in Hi.
    rewrite !length_map in Hi. pose proof (podar_len df). unfold len in *. lia.
  - intros Hwf. unfold limpiar_datos in Hd.
    apply (derivar_fechas_bien_formado _ _ ltac:(
      apply renombrar_bien_formado, replace_centinelas_bien_formado,
        podar_bien_formado, Hwf) Hd).
Qed.

(** X9: when two columns of the input are given the name
    [fecha_publicacion] by the normalisation, [limpiar_datos] does not
    return: [pd.to_datetime] is handed a frame instead of a column and
    the call ends with [ValueError]. *)
Theorem limpiar_datos_dos_fechas df j1 j2 c1 c2 :
  j1 <> j2 ->
  columns df !! j1 = Some c1 -> columns df !! j2 = Some c2 ->
  normalizar_columna c1 = fecha_publicacion ->
  normalizar_columna c2 = fecha_publicacion ->
  limpiar_datos to_datetime df = Raise ValueError.
Proof.
  intros Hne H1 H2 Hn1 Hn2. unfold limpiar_datos, derivar_fechas.
  set (pre := renombrar (replace_centinelas (podar df))).
  assert (columns pre = List.map normalizar_columna (columns df)) as Hcols
      by apply pre_fechas_columns.
  assert (columns pre !! j1 = Some fecha_publicacion) as Hp1.
  { by rewrite Hcols, lookup_map, H1; simpl; rewrite Hn1. }
  assert (columns pre !! j2 = Some fecha_publicacion) as Hp2.
  { by rewrite Hcols, lookup_map, H2; simpl; rewrite Hn2. }
  unfold in_columns. rewrite bool_decide_eq_true_2
    by by apply list_elem_of_lookup_2 in Hp1.
  unfold serie. apply get_loc_elem in Hp1, Hp2.
  destruct (get_loc fecha_publicacion (columns pre)) as [|j [|j' js]]; try done.
  apply list_elem_of_singleton in Hp1, Hp2. congruence.
Qed.

End Forma.

Lemma limpiar_datos_forma_witness :
  columns df_escenario_limpio
  = (if bool_decide (fecha_publicacion
                     ∈ List.map (normalizar_columna (U := Es.unicode))
                         (columns df_escenario))
        && negb (bool_decide (fecha_texto
                              ∈ List.map (normalizar_columna (U := Es.unicode))
                                  (columns df_escenario)))
     then List.map (normalizar_columna (U := Es.unicode)) (columns df_escenario)
          ++ [fecha_texto]
     else List.map (normalizar_columna (U := Es.unicode)) (columns df_escenario))
  /\ (len df_escenario_limpio <= len df_escenario)%nat
  /\ (bien_formado df_escenario -> bien_formado df_escenario_limpio).
Proof.
  apply (limpiar_datos_forma (U := Es.unicode) (P := Es.pandas) Es.to_datetime
           df_escenario df_escenario_limpio).
  vm_compute. reflexivity.
Defined.

Lemma limpiar_datos_dos_fechas_witness :
  limpiar_datos (U := Es.unicode) (P := Es.pandas) Es.to_datetime df_dos_fechas = Raise ValueError.
Proof.
  apply (limpiar_datos_dos_fechas (U := Es.unicode) (P := Es.pandas) Es.to_datetime df_dos_fechas
           0%nat 1%nat (lit "Fecha Publicacion") (lit "fecha_publicacion"));
    [done|reflexivity|reflexivity|vm_compute; reflexivity|vm_compute; reflexivity].
Defined.

(** ** More on the paged download *)

Section DescargaMas.

Context {P : Pandas}.
Variable requests_get : Z -> result Response.

Lemma bucle_sin_fin pasos offset all_data :
  (forall i, (i < pasos)%nat -> pagina_ok requests_get (offset + Z.of_nat i * limit)) ->
  bucle requests_get pasos offset all_data = None.
Proof.
  revert offset all_data. induction pasos as [|n IH]; intros offset all_data Hok; [done|].
  destruct (Hok 0%nat) as [df_temp Hes]; [lia|].
  rewrite Z.add_0_r in Hes. rewrite (bucle_ok _ _ _ _ _ Hes).
  apply IH. intros i Hi.
  replace (offset + limit + Z.of_nat i * limit)
    with (offset + Z.of_nat (S i) * limit) by lia.
  apply Hok. lia.
Qed.

(** X10: the download has no cap on the number of pages: as long as
    every request is answered with status 200 and at least one row, the
    loop asks for the next page, so against an endpoint that has rows at
    every one of the first [pasos] offsets it is still running after
    [pasos] requests. *)
Theorem descargar_sin_fin pasos :
  (forall i, (i < pasos)%nat -> pagina_ok requests_get (Z.of_nat i * limit)) ->
  descargar_datos_completos requests_get pasos = None.
Proof.
  intros Hok. unfold descargar_datos_completos.
  by rewrite bucle_sin_fin.
Qed.

(** The pages stored when the loop is left without an exception: those
    it started with, then pages with rows, the first of them the answer
    to the first request. *)
Lemma bucle_guardadas pasos offset all_data frames :
  bucle requests_get pasos offset all_data = Some (Ok frames) ->
  exists rest,
    frames = all_data ++ rest
    /\ Forall (fun f => filas f <> []) rest
    /\ match rest with
       | [] => pagina_fin requests_get offset
       | primera :: _ => pagina_es requests_get offset primera
       end.
Proof.
  revert offset all_data.
  induction pasos as [|n IH]; intros offset all_data Hb; [done|].
  destruct (pagina_casos requests_get offset) as [[df_temp Hes]|[Hfin|[e He]]].
  - rewrite (bucle_ok _ _ _ _ _ Hes) in Hb.
    destruct (IH _ _ Hb) as (rest & -> & Hne & _).
    exists (df_temp :: rest). rewrite <- app_assoc. split; [done|].
    split; [|done]. constructor; [|done].
    destruct Hes as (_ & _ & _ & _ & Hem). unfold empty in Hem.
    apply orb_false_iff in Hem as [Hem _]. by apply bool_decide_eq_false in Hem.
  - rewrite (bucle_fin _ _ _ _ Hfin) in Hb. inversion Hb; subst frames.
    exists []. by rewrite app_nil_r.
  - rewrite (bucle_error _ _ _ _ _ He) in Hb. done.
Qed.

(** X11: a table returned by the download is never empty, has at least
    the rows of the first page, and is indexed 0, 1, 2, ... whatever the
    labels of the pages were. *)
Theorem descargar_indice pasos df :
  descargar_datos_completos requests_get pasos = Some (Ok df) ->
  index df = seq 0 (len df)
  /\ filas df <> []
  /\ exists primera,
      pagina_es requests_get 0 primera /\ (len primera <= len df)%nat.
Proof.
  unfold descargar_datos_completos. intros Hd.
  destruct (bucle requests_get pasos 0 []) as [[frames|e]|] eqn:Hb; [|done|done].
  simpl in Hd. inversion Hd as [Hc]. clear Hd.
  destruct (bucle_guardadas _ _ _ _ Hb) as (rest & -> & Hne & Hpri).
  simpl in Hc. destruct rest as [|primera rest]; [by rewrite concat_nil in Hc|].
  destruct (concat_index _ _ Hc) as [Hi Hl].
  apply Forall_cons in Hne as [Hne _].
  assert (0 < len primera <= len df)%nat as Hlen.
  { rewrite Hl. cbn [List.map list_sum fold_right]. unfold len at 1 2 3.
    destruct (filas primera); [done|]. simpl. lia. }
  split; [done|]. split.
  - unfold len in Hlen. destruct (filas df); [simpl in Hlen; lia|done].
  - exists primera. split; [done|lia].
Qed.

End DescargaMas.

Lemma descargar_sin_fin_witness :
  descargar_datos_completos (P := Es.pandas) servidor_sin_fin 4 = None.
Proof.
  apply (descargar_sin_fin (P := Es.pandas) servidor_sin_fin 4).
  intros i _. eexists. eexists. repeat split; reflexivity.
Defined.

Lemma descargar_indice_witness :
  index (pagina 0 ["PERU"; "CHILE"; "CUBA"; "PERU"]%string)
  = seq 0 (len (pagina 0 ["PERU"; "CHILE"; "CUBA"; "PERU"]%string))
  /\ filas (pagina 0 ["PERU"; "CHILE"; "CUBA"; "PERU"]%string) <> []
  /\ exists primera,
      pagina_es servidor_tercera_falla 0 primera
      /\ (len primera
          <= len (pagina 0 ["PERU"; "CHILE"; "CUBA"; "PERU"]%string))%nat.
Proof.
  apply (descargar_indice (P := Es.pandas) servidor_tercera_falla 5).
  vm_compute. reflexivity.
Defined.

(** ** Counting values *)

Lemma ocurrencias_snoc k k' l :
  ocurrencias k' (l ++ [k])
  = (ocurrencias k' l + if decide (k = k') then 1 else 0)%nat.
Proof.
  unfold ocurrencias. rewrite List.filter_app, length_app. simpl.
  destruct (decide (k = k')) as [->|Hne].
  - by rewrite bool_decide_eq_true_2.
  - by rewrite bool_decide_eq_false_2.
Qed.

Lemma ocurrencias_pos k l : (0 < ocurrencias k l)%nat <-> k ∈ l.
Proof.
  unfold ocurrencias. induction l as [|x l IH]; simpl.
  - split; [lia|by intros ?%elem_of_nil].
  - rewrite elem_of_cons. case_bool_decide as Hx; simpl.
    + split; [intros _; by left|lia].
    + rewrite IH. split; [by right|]. intros [->|?]; done.
Qed.

Lemma buscar_contar k k' acc :
  buscar k' (contar k acc)
  = (buscar k' acc + if decide (k = k') then 1 else 0)%nat.
Proof.
  induction acc as [|[k0 n] acc IH]; simpl.
  - destruct (decide (k' = k)) as [->|Hne].
    + by rewrite decide_True.
    + rewrite decide_False by congruence. done.
  - destruct (decide (k = k0)) as [->|Hne]; simpl.
    + destruct (decide (k' = k0)) as [->|Hne'].
      * rewrite decide_True by done. lia.
      * rewrite decide_False by congruence. lia.
    + destruct (decide (k' = k0)) as [->|Hne'].
      * rewrite decide_False by done. lia.
      * apply IH.
Qed.

Lemma contar_claves k acc :
  List.map fst (contar k acc)
  = if bool_decide (k ∈ List.map fst acc) then List.map fst acc
    else List.map fst acc ++ [k].
Proof.
  induction acc as [|[k0 n] acc IH]; simpl; [done|].
  destruct (decide (k = k0)) as [->|Hne]; simpl.
  - rewrite bool_decide_eq_true_2 by left. done.
  - rewrite IH. case_bool_decide as Hin.
    + rewrite bool_decide_eq_true_2 by by right. done.
    + rewrite bool_decide_eq_false_2; [done|].
      rewrite not_elem_of_cons. done.
Qed.

Lemma contar_suma k acc :
  list_sum (List.map snd (contar k acc)) = S (list_sum (List.map snd acc)).
Proof.
  induction acc as [|[k0 n] acc IH]; simpl; [done|].
  destruct (decide (k = k0)); simpl; [done|]. rewrite IH. lia.
Qed.

(** The table of counts built from the keys [l]. *)
Lemma conteo_spec ks acc l :
  NoDup (List.map fst acc) ->
  (forall k, buscar k acc = ocurrencias k l) ->
  (forall k, k ∈ List.map fst acc <-> k ∈ l) ->
  list_sum (List.map snd acc) = length l ->
  let final := fold_left (fun acc k => contar k acc) ks acc in
  NoDup (List.map fst final)
  /\ (forall k, buscar k final = ocurrencias k (l ++ ks))
  /\ (forall k, k ∈ List.map fst final <-> k ∈ l ++ ks)
  /\ list_sum (List.map snd final) = length (l ++ ks).
Proof.
  revert acc l. induction ks as [|k ks IH]; intros acc l Hnd Hb Hk Hs.
  - simpl. by rewrite app_nil_r.
  - cbn [fold_left]. replace (l ++ k :: ks) with ((l ++ [k]) ++ ks)
      by by rewrite <- app_assoc.
    apply IH.
    + rewrite contar_claves. case_bool_decide as Hin; [done|].
      apply NoDup_app. split; [done|]. split; [|apply NoDup_singleton].
      intros x Hx Hx'. apply list_elem_of_singleton in Hx'. by subst.
    + intros k'. by rewrite buscar_contar, ocurrencias_snoc, Hb.
    + intros k'. rewrite contar_claves, elem_of_app, list_elem_of_singleton.
      case_bool_decide as Hin.
      * rewrite Hk. split; [by left|]. intros [?| ->]; [done|]. by apply Hk.
      * by rewrite elem_of_app, list_elem_of_singleton, Hk.
    + rewrite contar_suma, length_app, Hs. simpl. lia.
Qed.

Lemma buscar_elem k n acc :
  NoDup (List.map fst acc) -> (k, n) ∈ acc -> buscar k acc = n.
Proof.
  induction acc as [|[k0 n0] acc IH]; intros Hnd Hin; [by apply elem_of_nil in Hin|].
  simpl in *. apply NoDup_cons in Hnd as [Hk0 Hnd].
  apply elem_of_cons in Hin as [[= -> ->]|Hin].
  - by rewrite decide_True.
  - rewrite decide_False; [by apply IH|]. intros ->. apply Hk0.
    apply list_elem_of_In, in_map_iff. exists (k0, n). split; [done|].
    by apply list_elem_of_In.
Qed.

Lemma insertar_perm {A} (antes : A -> A -> bool) x l :
  insertar antes x l ≡ₚ x :: l.
Proof.
  induction l as [|y l IH]; simpl; [done|].
  destruct (antes x y); [done|]. rewrite IH. apply Permutation_swap.
Qed.

Lemma ordenar_perm {A} (antes : A -> A -> bool) l : ordenar antes l ≡ₚ l.
Proof.
  induction l as [|x l IH]; simpl; [done|].
  unfold ordenar in *. simpl. by rewrite insertar_perm, IH.
Qed.

Lemma list_sum_perm (l l' : list nat) : l ≡ₚ l' -> list_sum l = list_sum l'.
Proof. induction 1; simpl; lia. Qed.

Lemma StronglySorted_mono {A} (R R' : A -> A -> Prop) l :
  (forall a b, R a b -> R' a b) -> StronglySorted R l -> StronglySorted R' l.
Proof.
  intros HR. induction 1 as [|x l Hs IH Hx]; constructor; [done|].
  eapply Forall_impl; [exact Hx|]. auto.
Qed.

Lemma StronglySorted_take_drop {A} (R : A -> A -> Prop) l n a b :
  StronglySorted R l -> a ∈ take n l -> b ∈ drop n l -> R a b.
Proof.
  intros Hs. revert n. induction Hs as [|x l Hs IH Hx]; intros n Ha Hb.
  - rewrite take_nil in Ha. by apply elem_of_nil in Ha.
  - destruct n as [|n]; [by apply elem_of_nil in Ha|]. simpl in Ha, Hb.
    apply elem_of_cons in Ha as [->|Ha]; [|by apply (IH n)].
    rewrite List.Forall_forall in Hx. apply Hx, list_elem_of_In.
    by apply (subseteq_drop n l).
Qed.

Lemma StronglySorted_take {A} (R : A -> A -> Prop) l n :
  StronglySorted R l -> StronglySorted R (take n l).
Proof.
  intros Hs. revert n. induction Hs as [|x l Hs IH Hx]; intros [|n]; simpl;
    try constructor; [apply IH|].
  apply List.Forall_forall. intros y Hy. rewrite List.Forall_forall in Hx.
  apply Hx, list_elem_of_In. apply list_elem_of_In in Hy. by apply (subseteq_take n l).
Qed.

(** What [value_counts] returns: one entry per distinct key without a
    missing field, with the number of its occurrences, the most frequent
    first. *)
Lemma value_counts_spec {P : Pandas} claves :
  NoDup (List.map fst (value_counts claves))
  /\ (forall k n, (k, n) ∈ value_counts claves ->
                  n = ocurrencias k (presentes claves) /\ (0 < n)%nat)
  /\ (forall k, k ∈ List.map fst (value_counts claves) <-> k ∈ presentes claves)
  /\ list_sum (List.map snd (value_counts claves)) = length (presentes claves)
  /\ StronglySorted mas_frecuente (value_counts claves).
Proof.
  unfold value_counts. fold (presentes claves).
  set (conteo := fold_left (fun acc k => contar k acc) (presentes claves) []).
  destruct (conteo_spec (presentes claves) [] [])
    as (Hnd & Hb & Hk & Hs); try done; [constructor|].
  fold conteo in Hnd, Hb, Hk, Hs. simpl in Hb, Hk, Hs.
  pose proof (sort_values_perm conteo) as Hperm.
  assert (List.map fst (sort_values conteo) ≡ₚ List.map fst conteo) as Hpk
      by by apply Permutation_map.
  assert (NoDup (List.map fst (sort_values conteo))) as Hnd' by by rewrite Hpk.
  split; [done|]. split; [|split; [|split]].
  - intros k n Hin. rewrite Hperm in Hin.
    rewrite <- Hb, (buscar_elem k n conteo Hnd Hin). split; [done|].
    rewrite <- (buscar_elem k n conteo Hnd Hin), Hb. apply ocurrencias_pos, Hk.
    apply list_elem_of_In, in_map_iff. exists (k, n).
    split; [done|by apply list_elem_of_In].
  - intros k. by rewrite Hpk.
  - rewrite <- Hs. apply list_sum_perm. by apply Permutation_map.
  - apply sort_values_sorted.
Qed.

(** Counting a column raises when, and only when, several columns carry
    its name, and then with [ValueError]. *)
Lemma contar_columna_casos {P : Pandas} key df :
  match contar_columna key df with
  | Ok counts =>
    (exists j, get_loc key (columns df) = [j])
    /\ counts = value_counts (getitem key df)
  | Raise e =>
    e = ValueError
    /\ (in_columns key df = true -> (2 <= length (get_loc key (columns df)))%nat)
  end.
Proof.
  unfold contar_columna, in_columns.
  destruct (get_loc key (columns df)) as [|j [|j' js]] eqn:Hloc.
  - split; [done|]. intros Hin. apply bool_decide_eq_true in Hin.
    by apply get_loc_from_nil in Hloc.
  - split; [by exists j|done].
  - split; [done|]. simpl. lia.
Qed.

(** ** What the first two charts show *)

(** X12: when the country chart is drawn, one column is called [pais]
    and the chart shows at most ten countries, each once, with the
    number of rows that name it, the most frequent first; and a country
    that is left out is left out because ten countries are shown and
    none of them occurs less often. *)
Theorem grafico_paises_top {P : Pandas} df archivo datos :
  grafico_paises df = Ok (Figura archivo datos) ->
  let claves := presentes (getitem pais df) in
  in_columns pais df = true
  /\ (exists j, get_loc pais (columns df) = [j])
  /\ (0 < length datos <= 10)%nat
  /\ NoDup (List.map fst datos)
  /\ StronglySorted mas_frecuente datos
  /\ (forall k n, (k, n) ∈ datos -> n = ocurrencias k claves /\ (0 < n)%nat)
  /\ (forall k, k ∈ claves -> k ∉ List.map fst datos ->
        length datos = 10%nat
        /\ forall k' n', (k', n') ∈ datos -> (ocurrencias k claves <= n')%nat).
Proof.
  unfold grafico_paises. destruct (in_columns pais df); [|done].
  pose proof (contar_columna_casos pais df) as Hcasos.
  destruct (contar_columna pais df) as [counts|e]; [|done].
  destruct Hcasos as [Huna ->]. cbn [rbind].
  case_bool_decide as Hvacio; [done|]. simpl. intros [= _ <-].
  set (claves := presentes (getitem pais df)).
  destruct (value_counts_spec (getitem pais df)) as (Hnd & Hn & Hk & _ & Hs).
  fold claves in Hn, Hk.
  set (vc := value_counts (getitem pais df)) in *.
  split; [done|]. split; [done|]. split; [|split; [|split; [|split]]].
  - assert (length (take 10 vc) <> 0%nat) as Hlen
        by (destruct (take 10 vc); done).
    rewrite length_take in *. lia.
  - rewrite <- firstn_map. apply (sublist_NoDup _ (List.map fst vc)); [done|apply sublist_take].
  - by apply StronglySorted_take.
  - intros k n Hin. apply Hn. by apply (subseteq_take 10 vc).
  - intros k Hk1 Hk2. apply Hk in Hk1.
    apply list_elem_of_In, in_map_iff in Hk1 as ([k0 n] & Hk0 & Hin).
    simpl in Hk0. subst k0. apply list_elem_of_In in Hin.
    destruct (Hn _ _ Hin) as [Hnk _].
    assert ((k, n) ∈ drop 10 vc) as Hdrop.
    { rewrite <- (take_drop 10 vc) in Hin.
      apply elem_of_app in Hin as [Hin|Hin]; [|done].
      destruct Hk2. apply list_elem_of_In, in_map_iff. exists (k, n).
      split; [done|by apply list_elem_of_In]. }
    split.
    + rewrite length_take. apply list_elem_of_lookup in Hdrop as [i Hi].
      apply lookup_lt_Some in Hi. rewrite length_drop in Hi. lia.
    + intros k' n' Hin'.
      pose proof (StronglySorted_take_drop _ vc 10 _ _ Hs Hin' Hdrop) as Hle.
      unfold mas_frecuente in Hle. simpl in Hle. lia.
Qed.

Lemma grafico_paises_top_witness :
  let datos := [([CStr (lit "PERU")], 2%nat); ([CStr (lit "CHILE")], 1%nat);
                ([CStr (lit "CUBA")], 1%nat)] in
  let claves := presentes (getitem pais df_generos) in
  in_columns pais df_generos = true
  /\ (exists j, get_loc pais (columns df_generos) = [j])
  /\ (0 < length datos <= 10)%nat
  /\ NoDup (List.map fst datos)
  /\ StronglySorted mas_frecuente datos
  /\ (forall k n, (k, n) ∈ datos -> n = ocurrencias k claves /\ (0 < n)%nat)
  /\ (forall k, k ∈ claves -> k ∉ List.map fst datos ->
        length datos = 10%nat
        /\ forall k' n', (k', n') ∈ datos -> (ocurrencias k claves <= n')%nat).
Proof.
  apply (grafico_paises_top (P := Es.pandas) df_generos (lit "top_paises.png")).
  vm_compute. reflexivity.
Defined.

(** X13: the gender chart is drawn exactly when one column of the table
    is called [genero] and has at least one value; it then shows every
    distinct value once, with the number of rows that hold it, and the
    numbers add up to the number of rows that have a value.  Without a
    [genero] column, or without a value in it, a diagnostic is printed
    instead; with two or more columns called [genero] the routine ends
    with [ValueError]. *)
Theorem grafico_genero_proporciones {P : Pandas} df :
  let claves := presentes (getitem genero df) in
  match grafico_genero df with
  | Ok (Figura _ datos) =>
    (exists j, get_loc genero (columns df) = [j])
    /\ claves <> []
    /\ NoDup (List.map fst datos)
    /\ (forall k, k ∈ List.map fst datos <-> k ∈ claves)
    /\ (forall k n, (k, n) ∈ datos -> n = ocurrencias k claves)
    /\ list_sum (List.map snd datos) = length claves
  | Ok (Aviso _) =>
    get_loc genero (columns df) = []
    \/ ((exists j, get_loc genero (columns df) = [j]) /\ claves = [])
  | Raise e =>
    e = ValueError /\ (2 <= length (get_loc genero (columns df)))%nat
  end.
Proof.
  intros claves. unfold grafico_genero.
  destruct (in_columns genero df) eqn:Hin.
  2:{ left. apply get_loc_from_nil.
      unfold in_columns in Hin. by apply bool_decide_eq_false in Hin. }
  pose proof (contar_columna_casos genero df) as Hcasos.
  destruct (contar_columna genero df) as [counts|e]; cbn [rbind].
  2:{ destruct Hcasos as [-> Hdos]. split; [done|]. by apply Hdos. }
  destruct Hcasos as [Huna ->].
  destruct (value_counts_spec (getitem genero df)) as (Hnd & Hn & Hk & Hsum & _).
  fold claves in Hn, Hk, Hsum.
  case_bool_decide as Hvacio; simpl.
  - right. split; [done|]. rewrite Hvacio in Hsum. simpl in Hsum.
    by destruct claves.
  - split; [done|]. split.
    { intros Hcl. rewrite Hcl in Hsum. simpl in Hsum.
      destruct (value_counts (getitem genero df)) as [|[k n] vc]; [done|].
      destruct (Hn k n) as [_ Hpos]; [left|]. simpl in Hsum. lia. }
    repeat (split; [done|]). split; [|done].
    intros k n Hin'. by apply Hn.
Qed.

(** The charts of a table with a gender column, and of a table in which
    two columns are called [pais]. *)
Example grafico_genero_ejemplos :
  (exists datos,
      grafico_genero (P := Es.pandas) df_generos
      = Ok (Figura (lit "distribucion_genero.png") datos)
      /\ datos ≡ₚ [([CStr (lit "MASCULINO")], 2%nat);
                   ([CStr (lit "FEMENINO")], 1%nat)])
  /\ grafico_paises (P := Es.pandas) df_dos_paises = Raise ValueError
  /\ exists mensaje, grafico_genero (P := Es.pandas) df_dos_paises = Ok (Aviso mensaje).
Proof.
  split; [eexists; split; [vm_compute; reflexivity|reflexivity]|].
  split; [vm_compute; reflexivity|]. eexists. vm_compute. reflexivity.
Qed.

(** ** What the third chart writes *)

Lemma nombres_distintos :
  fecha_publicacion <> anio /\ fecha_publicacion <> fecha_texto
  /\ anio <> fecha_texto.
Proof. repeat split; by vm_compute. Qed.

Lemma get_loc_from_app i key (a b : list str) :
  get_loc_from i key (a ++ b)
  = get_loc_from i key a ++ get_loc_from (i + length a) key b.
Proof.
  revert i. induction a as [|c a IH]; intros i; simpl.
  - by rewrite Nat.add_0_r.
  - rewrite IH. replace (S i + length a)%nat with (i + S (length a))%nat by lia.
    by destruct (decide (c = key)).
Qed.

Lemma get_loc_app_new key cols :
  key ∉ cols -> get_loc key (cols ++ [key]) = [length cols].
Proof.
  intros Hno. unfold get_loc. rewrite get_loc_from_app.
  rewrite (proj2 (get_loc_from_nil key cols 0%nat) Hno). simpl.
  by rewrite decide_True.
Qed.

Section AnualProps.

Context {P : Pandas}.
Variable to_datetime : list cell -> list (option Timestamp).
Variable sample : Z -> Z -> list fila -> list fila.

(** The first two charts raise nothing but [ValueError]. *)
Lemma grafico_paises_error df e : grafico_paises df = Raise e -> e = ValueError.
Proof.
  unfold grafico_paises. destruct (in_columns pais df); [|done].
  pose proof (contar_columna_casos pais df) as Hcasos.
  destruct (contar_columna pais df) as [counts|e']; cbn [rbind].
  - by destruct (negb _).
  - destruct Hcasos as [-> _]. by intros [= <-].
Qed.

Lemma grafico_genero_error df e : grafico_genero df = Raise e -> e = ValueError.
Proof.
  unfold grafico_genero. destruct (in_columns genero df); [|done].
  pose proof (contar_columna_casos genero df) as Hcasos.
  destruct (contar_columna genero df) as [counts|e']; cbn [rbind].
  - by destruct (negb _).
  - destruct Hcasos as [-> _]. by intros [= <-].
Qed.

(** X14: given a rectangular table with one [fecha_publicacion] column,
    the third chart leaves in that column the parsed dates.  When at
    least one date is valid it leaves in every column called [anio] (a
    new last column when there was none) the year of the date of each
    row, missing where the date is missing; it then draws the chart,
    unless the table came with two or more columns called [anio], in
    which case it ends with [ValueError], the columns written.  When no
    date is valid it adds no column and reports it. *)
Theorem grafico_anual_escribe df jp :
  bien_formado df ->
  get_loc fecha_publicacion (columns df) = [jp] ->
  length (to_datetime (iloc_col jp (filas df))) = length (filas df) ->
  let fechas := List.map celda_fecha (to_datetime (iloc_col jp (filas df))) in
  let df' := fst (grafico_anual to_datetime df) in
  iloc_col jp (filas df') = fechas
  /\ if existsb notnull fechas then
       anio ∈ columns df'
       /\ (forall ja, columns df' !! ja = Some anio ->
                      iloc_col ja (filas df') = List.map dt_year fechas)
       /\ match get_loc anio (columns df) with
          | _ :: _ :: _ =>
            snd (grafico_anual to_datetime df) = Raise ValueError
          | _ =>
            exists datos,
              snd (grafico_anual to_datetime df)
              = Ok (Figura (lit "evolucion_anual.png") datos)
          end
     else
       columns df' = columns df
       /\ exists mensaje, snd (grafico_anual to_datetime df) = Ok (Aviso mensaje).
Proof.
  intros Hwf Hloc Hlen fechas.
  assert (columns df !! jp = Some fecha_publicacion) as Hjp.
  { apply get_loc_elem. rewrite Hloc. left. }
  unfold grafico_anual, in_columns, serie.
  rewrite bool_decide_eq_true_2 by by apply list_elem_of_lookup_2 in Hjp.
  rewrite Hloc. cbn [rbind]. fold fechas.
  destruct (setitem fecha_publicacion DDatetime fechas df) as [df1|] eqn:Hs1.
  2:{ unfold setitem in Hs1. rewrite bool_decide_eq_true_2 in Hs1.
      - by rewrite Hloc in Hs1.
      - unfold fechas. by rewrite length_map. }
  destruct (setitem_facts _ _ _ _ _ Hwf Hs1) as (Hwf1 & Hsame1 & _ & Hold1 & _).
  pose proof (setitem_columns _ _ _ _ _ Hs1) as Hcols1.
  rewrite bool_decide_eq_true_2 in Hcols1
    by by apply list_elem_of_lookup_2 in Hjp.
  rewrite Hcols1, Hloc.
  rewrite (Hsame1 jp (Hold1 _ _ Hjp)).
  destruct (existsb notnull fechas).
  - destruct (setitem anio (dtype_year fechas) (List.map dt_year fechas) df1)
      as [df2|] eqn:Hs2.
    2:{ unfold setitem in Hs2. rewrite bool_decide_eq_true_2 in Hs2.
        - by destruct (get_loc anio (columns df1)).
        - pose proof (setitem_index _ _ _ _ _ Hs1) as Hi.
          apply (f_equal (@length nat)) in Hi. unfold index in Hi.
          rewrite !length_map in Hi. unfold fechas. by rewrite !length_map, Hlen. }
    destruct (setitem_facts _ _ _ _ _ Hwf1 Hs2) as (_ & Hsame2 & Hother2 & Hold2 & Hin2).
    pose proof (setitem_columns _ _ _ _ _ Hs2) as Hcols2. rewrite Hcols1 in Hcols2.
    cbn [fst snd]. split; [|split; [done|split; [done|]]].
    + destruct (Hother2 jp fecha_publicacion) as [_ ->].
      * by apply Hold2, Hold1.
      * apply nombres_distintos.
      * by apply Hsame1, Hold1.
    + unfold contar_columna.
      destruct (get_loc anio (columns df)) as [|ja [|jb js]] eqn:Ha.
      * apply get_loc_from_nil in Ha.
        rewrite bool_decide_eq_false_2 in Hcols2 by done.
        rewrite Hcols2, get_loc_app_new by done. by eexists.
      * rewrite bool_decide_eq_true_2 in Hcols2.
        -- rewrite Hcols2, Ha. by eexists.
        -- apply (list_elem_of_lookup_2 _ ja), get_loc_elem. rewrite Ha. left.
      * rewrite bool_decide_eq_true_2 in Hcols2.
        -- by rewrite Hcols2, Ha.
        -- apply (list_elem_of_lookup_2 _ ja), get_loc_elem. rewrite Ha. left.
  - cbn [fst snd]. split; [by apply Hsame1, Hold1|]. split; [done|by eexists].
Qed.

(** X15: handed a table in which two or more columns are called
    [fecha_publicacion], the chart generator ends with [ValueError]
    without having written anything into the caller's table: after the
    first two charts when both can be drawn, and before them when one of
    the two raises. *)
Theorem generar_visualizaciones_dos_fechas (σ : store) df tabla rapido j1 j2 js :
  σ !! df = Some tabla ->
  get_loc fecha_publicacion (columns tabla) = j1 :: j2 :: js ->
  let e := generar_visualizaciones to_datetime sample σ df rapido in
  let trabajo := tabla_de_trabajo sample tabla rapido in
  error e = Some ValueError
  /\ mem e !! df = Some tabla
  /\ match grafico_paises trabajo, grafico_genero trabajo with
     | Ok s1, Ok s2 => salidas e = [s1; s2]
     | Ok s1, Raise _ => salidas e = [s1]
     | Raise _, _ => salidas e = []
     end.
Proof.
  intros Hdf Hloc. cbv zeta. unfold generar_visualizaciones.
  pose proof (elegir_trabajo sample σ df tabla rapido Hdf) as Hel.
  pose proof (elegir_tabla sample σ df tabla rapido Hdf) as Hantes.
  destruct (elegir sample σ df rapido) as [σ1 df1].
  destruct Hel as (Htr & Hotro & Hmismo). rewrite Htr. simpl in Hantes |- *.
  set (trabajo := tabla_de_trabajo sample tabla rapido).
  assert (columns trabajo = columns tabla) as Hcols.
  { unfold trabajo, tabla_de_trabajo. by destruct (_ && _). }
  assert (grafico_anual to_datetime trabajo = (trabajo, Raise ValueError)) as Hg.
  { unfold grafico_anual, in_columns, serie. rewrite Hcols, Hloc.
    rewrite bool_decide_eq_true_2; [done|].
    apply (list_elem_of_lookup_2 _ j1), get_loc_elem. rewrite Hloc. left. }
  destruct (grafico_paises trabajo) as [s1|x1] eqn:H1.
  2:{ apply grafico_paises_error in H1. by subst x1. }
  destruct (grafico_genero trabajo) as [s2|x2] eqn:H2.
  2:{ apply grafico_genero_error in H2. by subst x2. }
  rewrite Hg. simpl. split; [done|]. split; [|done].
  destruct (decide (df1 = df)) as [->|Hne].
  - rewrite lookup_insert_eq. f_equal. unfold trabajo, tabla_de_trabajo.
    by rewrite (proj1 Hmismo eq_refl).
  - rewrite lookup_insert_ne by done. by apply Hotro.
Qed.

End AnualProps.

Lemma grafico_anual_escribe_witness :
  let fechas :=
    List.map celda_fecha
             (Es.to_datetime (iloc_col 1 (filas df_escenario_limpio))) in
  let df' := fst (grafico_anual (P := Es.pandas) Es.to_datetime df_escenario_limpio) in
  iloc_col 1 (filas df') = fechas
  /\ if existsb notnull fechas then
       anio ∈ columns df'
       /\ (forall ja, columns df' !! ja = Some anio ->
                      iloc_col ja (filas df') = List.map dt_year fechas)
       /\ match get_loc anio (columns df_escenario_limpio) with
          | _ :: _ :: _ =>
            snd (grafico_anual (P := Es.pandas) Es.to_datetime df_escenario_limpio)
            = Raise ValueError
          | _ =>
            exists datos,
              snd (grafico_anual (P := Es.pandas) Es.to_datetime df_escenario_limpio)
              = Ok (Figura (lit "evolucion_anual.png") datos)
          end
     else
       columns df' = columns df_escenario_limpio
       /\ exists mensaje,
           snd (grafico_anual (P := Es.pandas) Es.to_datetime df_escenario_limpio)
           = Ok (Aviso mensaje).
Proof.
  apply (grafico_anual_escribe (P := Es.pandas) Es.to_datetime
           df_escenario_limpio 1%nat).
  - repeat constructor.
  - reflexivity.
  - reflexivity.
Defined.

Lemma generar_visualizaciones_dos_fechas_witness :
  let tabla := renombrar (U := Es.unicode) df_dos_fechas in
  let e := generar_visualizaciones (P := Es.pandas) Es.to_datetime primeras
             {[0%nat := tabla]} 0%nat true in
  let trabajo := tabla_de_trabajo primeras tabla true in
  error e = Some ValueError
  /\ mem e !! 0%nat = Some tabla
  /\ match grafico_paises (P := Es.pandas) trabajo,
           grafico_genero (P := Es.pandas) trabajo with
     | Ok s1, Ok s2 => salidas e = [s1; s2]
     | Ok s1, Raise _ => salidas e = [s1]
     | Raise _, _ => salidas e = []
     end.
Proof.
  apply (generar_visualizaciones_dos_fechas (P := Es.pandas) Es.to_datetime primeras
           {[0%nat := renombrar (U := Es.unicode) df_dos_fechas]} 0%nat
           (renombrar (U := Es.unicode) df_dos_fechas) true 0%nat 1%nat []).
  - apply lookup_singleton_eq.
  - reflexivity.
Defined.

(** ** The freshness gate and the entry point *)

Lemma days_30 d : (30 <=? days d) = (30 * microsegundos_dia <=? d).
Proof.
  unfold days, microsegundos_dia.
  destruct (30 * 86400000000 <=? d) eqn:Hd.
  - apply Z.leb_le in Hd. apply Z.leb_le. Z.div_mod_to_equations; lia.
  - apply Z.leb_gt in Hd. apply Z.leb_gt. Z.div_mod_to_equations; lia.
Qed.

Section PrincipalProps.

Context {U : Unicode} {P : Pandas}.
Variable requests_get : Z -> result Response.
Variable to_datetime : list cell -> list (option Timestamp).
Variable sample : Z -> Z -> list fila -> list fila.
Variable pasos : nat.

Local Abbreviation ejecutar :=
  (ejecutar_pipeline requests_get to_datetime sample pasos).
Local Abbreviation prefetch :=
  (prefetch_mensual requests_get to_datetime sample pasos).
Local Abbreviation main := (principal requests_get to_datetime sample pasos).

(** X16: the prefetch runs the pipeline, once and in full mode, exactly
    when there is no output file or the file was last modified thirty
    whole days (2 592 000 seconds) ago or earlier; a younger file, and a
    file stamped in the future, leave it idle. *)
Theorem prefetch_mensual_umbral ultima_modificacion ahora :
  prefetch ultima_modificacion ahora
  = if vencido ultima_modificacion ahora
    then r ← ejecutar false; Some [mkCorrida false r]
    else Some [].
Proof.
  unfold vencido, prefetch_mensual.
  destruct ultima_modificacion as [ultima|]; [|done].
  cbv zeta. by rewrite days_30.
Qed.


End PrincipalProps.

(** A stale file and an endpoint whose third page fails: two runs, which
    write the same table. *)
Example principal_tercera_falla :
  exists r1 r2,
    principal (U := Es.unicode) (P := Es.pandas) servidor_tercera_falla
              Es.to_datetime primeras 5 None 0
    = Some [mkCorrida false r1; mkCorrida true r2]
    /\ escrito (mkCorrida false r1) = escrito (mkCorrida true r2)
    /\ is_Some (escrito (mkCorrida true r2)).
Proof.
  do 2 eexists. split; [vm_compute; reflexivity|]. split; [reflexivity|].
  by eexists.
Qed.

(** A stale file and an endpoint whose headers "Pais " and "PAÍS" are
    both given the name [pais]: the full run writes the table and ends
    with the [ValueError] of the country chart, and no second run is
    made. *)
Example principal_dos_paises :
  exists salida e,
    principal (U := Es.unicode) (P := Es.pandas) servidor_dos_paises
              Es.to_datetime primeras 5 None 0
    = Some [mkCorrida false (Ok (salida, e))]
    /\ error e = Some ValueError.
Proof. do 2 eexists. split; [vm_compute; reflexivity|reflexivity]. Qed.

(** ** Values outside the date columns *)

Section Valores.

Context {U : Unicode} {P : Pandas}.
Variable to_datetime : list cell -> list (option Timestamp).

(** X18: cleaning never rewrites a value outside the two date columns
    except to blank a sentinel: every other column of the returned table
    holds, row by row, the values left by the repair and pruning passes,
    with "N/A", "n/a" and the empty string replaced by the missing
    value, and the rows carry the labels they had. *)
Theorem limpiar_datos_valores df out :
  bien_formado df ->
  limpiar_datos to_datetime df = Ok out ->
  index out = index (podar df)
  /\ forall j nombre,
       columns out !! j = Some nombre ->
       nombre <> fecha_publicacion -> nombre <> fecha_texto ->
       iloc_col j (filas out)
       = List.map reemplazar_valor (iloc_col j (filas (podar df))).
Proof.
  intros Hwf Hd. split; [by apply (limpiar_datos_index to_datetime)|].
  by apply (limpiar_datos_frame to_datetime).
Qed.

End Valores.

Lemma limpiar_datos_valores_witness :
  index df_repetido_limpio = index (podar (P := Es.pandas) df_repetido)
  /\ forall j nombre,
       columns df_repetido_limpio !! j = Some nombre ->
       nombre <> fecha_publicacion -> nombre <> fecha_texto ->
       iloc_col j (filas df_repetido_limpio)
       = List.map reemplazar_valor (iloc_col j (filas (podar (P := Es.pandas) df_repetido))).
Proof.
  apply (limpiar_datos_valores (U := Es.unicode) (P := Es.pandas) Es.to_datetime df_repetido).
  - repeat constructor.
  - vm_compute. reflexivity.
Defined.

(** ** The yearly line *)

Lemma getitem_serie key df j :
  get_loc key (columns df) = [j] ->
  getitem key df = List.map (fun c => [c]) (iloc_col j (filas df)).
Proof.
  intros Hloc. unfold getitem, iloc_col. rewrite Hloc, List.map_map. done.
Qed.

Lemma ocurrencias_presentes k l :
  forallb notnull k = true -> ocurrencias k (presentes l) = ocurrencias k l.
Proof.
  intros Hk. unfold ocurrencias, presentes. f_equal.
  induction l as [|x l IH]; simpl; [done|].
  destruct (forallb notnull x) eqn:Hx; simpl.
  - by rewrite IH.
  - rewrite IH. rewrite bool_decide_eq_false_2; [done|]. congruence.
Qed.

Lemma insertar_sorted_on {A} (P : A -> Prop) (antes : A -> A -> bool) x l :
  (forall a b, P a -> P b -> antes a b = false -> antes b a = true) ->
  (forall a b c, P a -> P b -> P c ->
                 antes a b = true -> antes b c = true -> antes a c = true) ->
  P x -> Forall P l ->
  StronglySorted (fun a b => antes a b = true) l ->
  StronglySorted (fun a b => antes a b = true) (insertar antes x l).
Proof.
  intros Htot Htrans Hx HP Hs. induction Hs as [|y l Hs IH Hy]; simpl.
  - constructor; constructor.
  - apply Forall_cons in HP as [Hpy HP]. destruct (antes x y) eqn:Hxy.
    + constructor; [by constructor|]. constructor; [done|].
      rewrite List.Forall_forall in Hy. rewrite List.Forall_forall in HP.
      apply List.Forall_forall. intros z Hz.
      apply (Htrans x y z); auto.
    + constructor; [by apply IH|].
      apply List.Forall_forall. intros z Hz.
      apply list_elem_of_In in Hz. rewrite insertar_perm in Hz.
      apply elem_of_cons in Hz as [->|Hz]; [by apply Htot|].
      rewrite List.Forall_forall in Hy. by apply Hy, list_elem_of_In.
Qed.

Lemma ordenar_sorted_on {A} (P : A -> Prop) (antes : A -> A -> bool) l :
  (forall a b, P a -> P b -> antes a b = false -> antes b a = true) ->
  (forall a b c, P a -> P b -> P c ->
                 antes a b = true -> antes b c = true -> antes a c = true) ->
  Forall P l ->
  StronglySorted (fun a b => antes a b = true) (ordenar antes l).
Proof.
  intros Htot Htrans HP. induction HP as [|x l Hx HP IH]; [constructor|].
  unfold ordenar in *. simpl.
  apply (insertar_sorted_on P); try done.
  apply List.Forall_forall. intros z Hz. apply list_elem_of_In in Hz.
  fold (ordenar antes l) in Hz. rewrite ordenar_perm in Hz.
  rewrite List.Forall_forall in HP. by apply HP, list_elem_of_In.
Qed.

Lemma StronglySorted_strict {A B} (R : A -> A -> Prop) (f : A -> B)
      (P : A -> Prop) l :
  StronglySorted R l -> NoDup (List.map f l) -> Forall P l ->
  StronglySorted (fun a b => R a b /\ f a <> f b /\ P a /\ P b) l.
Proof.
  induction 1 as [|x l Hs IH Hx]; intros Hnd HP; [constructor|].
  simpl in Hnd. apply NoDup_cons in Hnd as [Hno Hnd].
  apply Forall_cons in HP as [Hpx HP].
  constructor; [by apply IH|].
  rewrite List.Forall_forall in Hx. rewrite List.Forall_forall in HP.
  apply List.Forall_forall. intros y Hy. repeat split; auto.
  intros Heq. apply Hno. rewrite Heq.
  apply list_elem_of_In, in_map, Hy.
Qed.

Section Linea.

Context {P : Pandas}.
Variable to_datetime : list cell -> list (option Timestamp).

(** X19: when the yearly chart is drawn for a rectangular table with one
    [fecha_publicacion] column and at most one [anio] column, the line
    has one point for each year in which some row was published, with
    the number of those rows, and the points go in increasing order of
    year. *)
Theorem grafico_anual_linea df jp archivo datos :
  bien_formado df ->
  get_loc fecha_publicacion (columns df) = [jp] ->
  (length (get_loc anio (columns df)) <= 1)%nat ->
  length (to_datetime (iloc_col jp (filas df))) = length (filas df) ->
  snd (grafico_anual to_datetime df) = Ok (Figura archivo datos) ->
  let anios :=
    List.map (fun o => [dt_year (celda_fecha o)])
             (to_datetime (iloc_col jp (filas df))) in
  (forall k n, (k, n) ∈ datos ->
               exists y, k = [CNum y] /\ n = ocurrencias k anios /\ (0 < n)%nat)
  /\ (forall y, [CNum y] ∈ anios -> [CNum y] ∈ List.map fst datos)
  /\ StronglySorted anio_anterior datos.
Proof.
  intros Hwf Hloc Hanio Hlen Hfig anios.
  assert (columns df !! jp = Some fecha_publicacion) as Hjp.
  { apply get_loc_elem. rewrite Hloc. left. }
  set (fechas := List.map celda_fecha (to_datetime (iloc_col jp (filas df)))).
  assert (anios = List.map (fun c => [c]) (List.map dt_year fechas)) as Hanios.
  { unfold anios, fechas. by rewrite !List.map_map. }
  unfold grafico_anual, in_columns, serie in Hfig.
  rewrite bool_decide_eq_true_2 in Hfig by by apply list_elem_of_lookup_2 in Hjp.
  rewrite Hloc in Hfig. cbn [rbind] in Hfig. fold fechas in Hfig.
  destruct (setitem fecha_publicacion DDatetime fechas df) as [df1|] eqn:Hs1;
    [|done].
  destruct (setitem_facts _ _ _ _ _ Hwf Hs1) as (Hwf1 & Hsame1 & _ & Hold1 & _).
  pose proof (setitem_columns _ _ _ _ _ Hs1) as Hcols1.
  rewrite bool_decide_eq_true_2 in Hcols1
    by by apply list_elem_of_lookup_2 in Hjp.
  rewrite Hcols1, Hloc in Hfig.
  rewrite (Hsame1 jp (Hold1 _ _ Hjp)) in Hfig.
  destruct (existsb notnull fechas); [|done].
  destruct (setitem anio (dtype_year fechas) (List.map dt_year fechas) df1)
    as [df2|] eqn:Hs2; [|done].
  destruct (setitem_facts _ _ _ _ _ Hwf1 Hs2) as (_ & Hsame2 & _ & _ & _).
  pose proof (setitem_columns _ _ _ _ _ Hs2) as Hcols2. rewrite Hcols1 in Hcols2.
  assert (exists ja, get_loc anio (columns df2) = [ja]) as [ja Hja].
  { destruct (get_loc anio (columns df)) as [|ja [|? ?]] eqn:Ha;
      [| |simpl in Hanio; lia].
    - apply get_loc_from_nil in Ha.
      rewrite bool_decide_eq_false_2 in Hcols2 by done.
      exists (length (columns df)). rewrite Hcols2. by apply get_loc_app_new.
    - exists ja. rewrite bool_decide_eq_true_2 in Hcols2.
      + by rewrite Hcols2.
      + apply (list_elem_of_lookup_2 _ ja), get_loc_elem. rewrite Ha. left. }
  cbn [snd] in Hfig. unfold contar_columna in Hfig. rewrite Hja in Hfig.
  cbn [rbind] in Hfig. inversion Hfig as [[Harch Hdatos]]. clear Hfig Harch.
  subst datos.
  assert (getitem anio df2 = anios) as Hget.
  { rewrite (getitem_serie anio df2 ja Hja), Hanios. f_equal.
    apply Hsame2, get_loc_elem. rewrite Hja. left. }
  rewrite Hget. clear Hget.
  destruct (value_counts_spec anios) as (Hnd & Hn & Hk & _ & _).
  set (vc := value_counts anios) in *.
  set (antes := fun a b : list cell * nat => clave_leb (fst a) (fst b)).
  assert (forall k, k ∈ presentes anios -> exists y, k = [CNum y]) as Hforma.
  { intros k Hin. apply list_elem_of_In, filter_In in Hin as [Hin Hnn].
    unfold anios in Hin. apply in_map_iff in Hin as (o & <- & _).
    destruct o as [t|]; [by exists (year t)|done]. }
  assert (Forall (fun a => exists y, fst a = [CNum y]) vc) as HP.
  { apply List.Forall_forall. intros [k n] Hin. simpl. apply Hforma, Hk.
    apply list_elem_of_In, in_map_iff. by exists (k, n). }
  assert (sort_index vc ≡ₚ vc) as Hperm by apply ordenar_perm.
  assert (List.map fst (sort_index vc) ≡ₚ List.map fst vc) as Hpk
      by by apply Permutation_map.
  split; [|split].
  - intros k n Hin. rewrite Hperm in Hin.
    destruct (Hn k n Hin) as [Hocc Hpos].
    destruct (Hforma k) as [y ->].
    { apply Hk, list_elem_of_In, in_map_iff. exists (k, n).
      split; [done|by apply list_elem_of_In]. }
    exists y. split; [done|]. split; [|done].
    by rewrite <- ocurrencias_presentes.
  - intros y Hy. rewrite Hpk. apply Hk. apply list_elem_of_In, filter_In.
    split; [by apply list_elem_of_In|done].
  - apply (StronglySorted_mono
             (fun a b => antes a b = true /\ fst a <> fst b
                         /\ (exists y, fst a = [CNum y])
                         /\ (exists y, fst b = [CNum y]))).
    + intros a b (Hab & Hne & [x Hx] & [y Hy]). exists x, y.
      split; [done|]. split; [done|].
      unfold antes in Hab. rewrite Hx, Hy in Hab, Hne. simpl in Hab.
      destruct (x <? y) eqn:Hxy; [by apply Z.ltb_lt|].
      destruct (y <? x) eqn:Hyx; [done|].
      apply Z.ltb_ge in Hxy, Hyx. destruct Hne. do 2 f_equal. lia.
    + apply StronglySorted_strict.
      * change (sort_index vc) with (ordenar antes vc).
        apply (ordenar_sorted_on (fun a => exists y, fst a = [CNum y]));
          [| |done]; unfold antes.
        -- intros a b [x ->] [y ->]. simpl.
           by destruct (x <? y) eqn:Hxy, (y <? x) eqn:Hyx.
        -- intros a b c [x ->] [y ->] [z ->]. simpl.
           destruct (x <? y) eqn:Hxy, (y <? z) eqn:Hyz, (x <? z) eqn:Hxz;
             try done;
             destruct (y <? x) eqn:Hyx, (z <? y) eqn:Hzy, (z <? x) eqn:Hzx;
             try done; zbool; lia.
      * by rewrite Hpk.
      * apply List.Forall_forall. intros a Ha. apply list_elem_of_In in Ha.
        rewrite Hperm in Ha. rewrite List.Forall_forall in HP.
        by apply HP, list_elem_of_In.
Qed.

End Linea.

Lemma grafico_anual_linea_witness :
  let datos := [([CNum 2019], 1%nat); ([CNum 2021], 2%nat)] in
  let anios :=
    List.map (fun o => [dt_year (celda_fecha o)])
             (Es.to_datetime (iloc_col 0 (filas df_fechas))) in
  (forall k n, (k, n) ∈ datos ->
               exists y, k = [CNum y] /\ n = ocurrencias k anios /\ (0 < n)%nat)
  /\ (forall y, [CNum y] ∈ anios -> [CNum y] ∈ List.map fst datos)
  /\ StronglySorted anio_anterior datos.
Proof.
  apply (grafico_anual_linea (P := Es.pandas) Es.to_datetime df_fechas 0%nat
           (lit "evolucion_anual.png")).
  - repeat constructor.
  - reflexivity.
  - vm_compute. lia.
  - reflexivity.
  - vm_compute. reflexivity.
Defined.

(** ** Ends of a normalised name *)

Lemma lstrip_head sp s c : head (lstrip sp s) = Some c -> sp c = false.
Proof.
  induction s as [|x s IH]; simpl; [done|].
  destruct (sp x) eqn:Hx; [done|]. simpl. by intros [= <-].
Qed.

Lemma lstrip_suffix sp s : exists pre, s = pre ++ lstrip sp s.
Proof.
  induction s as [|x s [pre IH]]; simpl; [by exists []|].
  destruct (sp x); [|by exists []].
  exists (x :: pre). simpl. by f_equal.
Qed.

Lemma head_rev {A} (l : list A) : head (rev l) = last l.
Proof.
  induction l as [|x l IH] using rev_ind; [done|].
  by rewrite rev_unit, last_snoc.
Qed.

Lemma last_rev {A} (l : list A) : last (rev l) = head l.
Proof. by rewrite <- head_rev, rev_involutive. Qed.

Lemma last_app_nonempty {A} (l1 l2 : list A) x :
  last l2 = Some x -> last (l1 ++ l2) = Some x.
Proof.
  destruct l2 as [|y l2] using rev_ind; [done|].
  rewrite app_assoc, !last_snoc. done.
Qed.

Lemma strip_ends sp s c :
  head (strip sp s) = Some c \/ last (strip sp s) = Some c -> sp c = false.
Proof.
  unfold strip. rewrite head_rev, last_rev. intros [Hl|Hh].
  - destruct (lstrip_suffix sp (rev (lstrip sp s))) as [pre Hpre].
    apply (last_app_nonempty pre) in Hl. rewrite <- Hpre, last_rev in Hl.
    by apply lstrip_head in Hl.
  - by apply lstrip_head in Hh.
Qed.

Section Extremos.

Context {U : Unicode}.

(** X20: a normalised column name neither begins nor ends with a
    whitespace character (the space itself being one). *)
Theorem normalizar_columna_extremos nombre c :
  isspace 32 = true ->
  head (normalizar_columna nombre) = Some c
  \/ last (normalizar_columna nombre) = Some c ->
  isspace c = false.
Proof.
  intros Hsp Hc. unfold normalizar_columna, replace_space in Hc. cbv zeta in Hc.
  set (s := strip isspace _) in Hc.
  assert (exists c0, (head s = Some c0 \/ last s = Some c0)
                     /\ c = if c0 =? 32 then 95 else c0) as (c0 & Hc0 & ->).
  { destruct Hc as [Hc|Hc].
    - destruct s as [|c0 s']; [done|]. simpl in Hc. inversion Hc.
      exists c0. split; [by left|done].
    - destruct s as [|c0 s'] using rev_ind; [done|].
      rewrite List.map_app in Hc. simpl in Hc. rewrite last_snoc in Hc.
      inversion Hc. exists c0. split; [right; by rewrite last_snoc|done]. }
  apply strip_ends in Hc0.
  destruct (c0 =? 32) eqn:H32; [|done].
  apply Z.eqb_eq in H32. subst c0. congruence.
Qed.

End Extremos.

Lemma normalizar_columna_extremos_witness :
  isspace (Unicode := Es.unicode) 102 = false.
Proof.
  apply (normalizar_columna_extremos (U := Es.unicode) nombre_acentuado 102).
  - reflexivity.
  - left. vm_compute. reflexivity.
Defined.

(** ** Where the download stops, and when it fails *)

Section DescargaCorte.

Context {P : Pandas}.

Lemma bucle_hasta_el_corte (g1 g2 : Z -> result Response) k pasos offset all_data :
  (forall i, (i <= k)%nat ->
             g1 (offset + Z.of_nat i * limit) = g2 (offset + Z.of_nat i * limit)) ->
  (forall i, (i < k)%nat -> pagina_ok g1 (offset + Z.of_nat i * limit)) ->
  pagina_fin g1 (offset + Z.of_nat k * limit)
  \/ (exists e, pagina_error g1 (offset + Z.of_nat k * limit) e) ->
  (k < pasos)%nat ->
  bucle g1 pasos offset all_data = bucle g2 pasos offset all_data.
Proof.
  revert pasos offset all_data.
  induction k as [|k IH]; intros pasos offset all_data Heq Hok Hcorte Hlt;
    (destruct pasos as [|pasos]; [lia|]);
    pose proof (Heq 0%nat ltac:(lia)) as Heq0; rewrite Z.add_0_r in Heq0.
  - rewrite Z.add_0_r in Hcorte. destruct Hcorte as [Hfin|[e He]].
    + rewrite (bucle_fin g1), (bucle_fin g2); [done| |done].
      unfold pagina_fin. by rewrite <- Heq0.
    + rewrite (bucle_error g1 _ _ _ e), (bucle_error g2 _ _ _ e); [done| |done].
      unfold pagina_error. by rewrite <- Heq0.
  - destruct (Hok 0%nat) as [df_temp Hes]; [lia|]. rewrite Z.add_0_r in Hes.
    rewrite (bucle_ok g1 _ _ _ df_temp), (bucle_ok g2 _ _ _ df_temp); [| |done].
    2:{ unfold pagina_es. by rewrite <- Heq0. }
    apply (IH pasos (offset + limit)); [| | |lia].
    + intros i Hi. replace (offset + limit + Z.of_nat i * limit)
        with (offset + Z.of_nat (S i) * limit) by lia.
      apply Heq. lia.
    + intros i Hi. replace (offset + limit + Z.of_nat i * limit)
        with (offset + Z.of_nat (S i) * limit) by lia.
      apply Hok. lia.
    + replace (offset + limit + Z.of_nat k * limit)
        with (offset + Z.of_nat (S k) * limit) by lia.
      done.
Qed.

(** X21: the download asks for offsets 0, 50000, 100000, ... and for
    nothing beyond the first request that fails, comes back empty or
    raises: two endpoints that answer alike up to that request give the
    same result. *)
Theorem descargar_hasta_el_corte (g1 g2 : Z -> result Response) k pasos :
  (forall i, (i <= k)%nat -> g1 (Z.of_nat i * limit) = g2 (Z.of_nat i * limit)) ->
  (forall i, (i < k)%nat -> pagina_ok g1 (Z.of_nat i * limit)) ->
  pagina_fin g1 (Z.of_nat k * limit)
  \/ (exists e, pagina_error g1 (Z.of_nat k * limit) e) ->
  (k < pasos)%nat ->
  descargar_datos_completos g1 pasos = descargar_datos_completos g2 pasos.
Proof.
  intros Heq Hok Hcorte Hlt. unfold descargar_datos_completos.
  by rewrite (bucle_hasta_el_corte g1 g2 k pasos 0 []).
Qed.

(** When the loop is left with an exception, a request has raised it,
    after nothing but pages with rows. *)
Lemma bucle_excepcion (requests_get : Z -> result Response) pasos offset all_data e :
  bucle requests_get pasos offset all_data = Some (Raise e) ->
  exists k,
    (k < pasos)%nat
    /\ (forall i, (i < k)%nat ->
                  pagina_ok requests_get (offset + Z.of_nat i * limit))
    /\ pagina_error requests_get (offset + Z.of_nat k * limit) e.
Proof.
  revert offset all_data.
  induction pasos as [|n IH]; intros offset all_data Hb; [done|].
  destruct (pagina_casos requests_get offset) as [[df_temp Hes]|[Hfin|[e' He]]].
  - rewrite (bucle_ok _ _ _ _ _ Hes) in Hb.
    destruct (IH _ _ Hb) as (k & Hk & Hok & He).
    exists (S k). split; [lia|]. split.
    + intros [|i] Hi.
      * rewrite Z.add_0_r. by exists df_temp.
      * replace (offset + Z.of_nat (S i) * limit)
          with (offset + limit + Z.of_nat i * limit) by lia.
        apply Hok. lia.
    + replace (offset + Z.of_nat (S k) * limit)
        with (offset + limit + Z.of_nat k * limit) by lia.
      done.
  - by rewrite (bucle_fin _ _ _ _ Hfin) in Hb.
  - rewrite (bucle_error _ _ _ _ _ He) in Hb. inversion Hb; subst e'.
    exists 0%nat. split; [lia|]. split; [intros i Hi; lia|].
    by rewrite Z.add_0_r.
Qed.

(** X22: the download ends with an exception in three ways only: with
    [ValueError] when the very first request fails or comes back without
    rows; with the exception of a request that gets no answer, or whose
    answer has status 200 and a body that cannot be parsed, after
    nothing but pages with rows; and with the exception of [pd.concat],
    which can only be when the pages received do not all carry the
    header of the first. *)
Theorem descargar_excepciones (requests_get : Z -> result Response) pasos e :
  descargar_datos_completos requests_get pasos = Some (Raise e) ->
  (e = ValueError /\ pagina_fin requests_get 0)
  \/ (exists k,
        (k < pasos)%nat
        /\ (forall i, (i < k)%nat -> pagina_ok requests_get (Z.of_nat i * limit))
        /\ pagina_error requests_get (Z.of_nat k * limit) e)
  \/ (exists primera rest,
        bucle requests_get pasos 0 [] = Some (Ok (primera :: rest))
        /\ concat (primera :: rest) = Raise e
        /\ ~ Forall (fun g => columns g = columns primera) rest).
Proof.
  unfold descargar_datos_completos. intros Hd.
  destruct (bucle requests_get pasos 0 []) as [[frames|e']|] eqn:Hb; [| |done].
  - simpl in Hd. inversion Hd as [Hc]. clear Hd.
    destruct (bucle_guardadas _ _ _ _ _ Hb) as (rest & Hfr & _ & Hpri).
    simpl in Hfr. subst frames. destruct rest as [|primera rest].
    + left. rewrite concat_nil in Hc. split; [congruence|done].
    + right; right. exists primera, rest. split; [done|]. split; [done|].
      intros Hall. destruct (concat_header primera rest Hall) as (df & Hdf & _).
      congruence.
  - simpl in Hd. inversion Hd; subst e'. right; left.
    destruct (bucle_excepcion _ _ _ _ _ Hb) as (k & Hk & Hok & He).
    exists k. split; [done|]. split.
    + intros i Hi. specialize (Hok i Hi). by rewrite Z.add_0_l in Hok.
    + by rewrite Z.add_0_l in He.
Qed.

End DescargaCorte.

Lemma descargar_hasta_el_corte_witness :
  descargar_datos_completos (P := Es.pandas) servidor_tercera_falla 5
  = descargar_datos_completos (P := Es.pandas)
      (fun offset => if offset <=? 100000 then servidor_tercera_falla offset
                     else servidor_caido offset) 5.
Proof.
  apply (descargar_hasta_el_corte (P := Es.pandas) servidor_tercera_falla _ 2 5).
  - intros [|[|[|i]]] Hi; try lia; reflexivity.
  - intros [|[|i]] Hi; try lia; eexists; eexists; repeat split; reflexivity.
  - left. eexists. split; [reflexivity|]. left. simpl. discriminate.
  - lia.
Defined.

Lemma descargar_excepciones_witness :
  (EmptyDataError = ValueError /\ pagina_fin servidor_cuerpo_vacio 0)
  \/ (exists k,
        (k < 5)%nat
        /\ (forall i, (i < k)%nat ->
                      pagina_ok servidor_cuerpo_vacio (Z.of_nat i * limit))
        /\ pagina_error servidor_cuerpo_vacio (Z.of_nat k * limit) EmptyDataError)
  \/ (exists primera rest,
        bucle servidor_cuerpo_vacio 5 0 [] = Some (Ok (primera :: rest))
        /\ concat (Pandas := Es.pandas) (primera :: rest) = Raise EmptyDataError
        /\ ~ Forall (fun g => columns g = columns primera) rest).
Proof.
  apply (descargar_excepciones (P := Es.pandas) servidor_cuerpo_vacio 5).
  vm_compute. reflexivity.
Defined.
